(** * Seshat / CASS: the Chandra OCR post-processing, verified

    A shallow embedding of [Tools/chandra_inference.py]: the layout block
    parser ([parse_layout_blocks]), the plain-text fallback
    ([extract_text_from_html]), the image size normaliser
    ([resize_image_if_needed]), the assembling part of the pipeline
    ([run_inference]), the model cache ([load_model]) and the command
    line ([main]); and of the box viewer of
    [Tools/test_bounding_boxes.py] ([draw_boxes_on_image]), which calls
    the pipeline.

    Python values are modelled as the interpreter has them: a [str] is a
    sequence of code points, an [int] is an unbounded integer ([Z]), a
    [float] is an IEEE 754 binary64 number ([spec_float] at precision 53),
    and a raised exception is the [Raise] branch of the [result] type.
    What the program obtains from its collaborators (the tree built by
    BeautifulSoup, the size reported by PIL, the text produced by the
    model, the value of the C library's [pow]) is an input of the
    embedding. *)

From Stdlib Require Import ZArith NArith QArith Qpower Lia Lqa List Bool Ascii String.
From Stdlib Require Import SpecFloat DecimalFacts DecimalPos DecimalZ.
From stdpp Require Import base option list gmap.

Local Open Scope Z_scope.

(** ** Exceptions and results *)

Module Py.

Inductive exn : Set :=
  | JSONDecodeError | AssertionError | ValueError | TypeError
  | OverflowError | ZeroDivisionError | ImportError | OSError | IndexError.

Inductive result (A : Type) : Type :=
  | Ok (a : A)
  | Raise (e : exn).
Global Arguments Ok {A} a.
Global Arguments Raise {A} e.

#[global] Instance result_ret : MRet result := fun _ a => Ok a.
#[global] Instance result_bind : MBind result := fun _ _ f m =>
  match m with Ok a => f a | Raise e => Raise e end.

Definition exn_eqb (a b : exn) : bool :=
  match a, b with
  | JSONDecodeError, JSONDecodeError | AssertionError, AssertionError
  | ValueError, ValueError | TypeError, TypeError
  | OverflowError, OverflowError | ZeroDivisionError, ZeroDivisionError
  | ImportError, ImportError | OSError, OSError
  | IndexError, IndexError => true
  | _, _ => false
  end.

(** [isinstance e c]: [json.JSONDecodeError] is a subclass of
    [ValueError]; the other classes used here are unrelated. *)
Definition isinstance (e c : exn) : bool :=
  exn_eqb e c || (exn_eqb e JSONDecodeError && exn_eqb c ValueError).

(** [try: body except (c1, ..., cn): handler]. *)
Definition try_except {A} (body : result A) (classes : list exn)
    (handler : result A) : result A :=
  match body with
  | Ok a => Ok a
  | Raise e => if existsb (isinstance e) classes then handler else Raise e
  end.

(** [assert b]. *)
Definition assert (b : bool) : result unit :=
  if b then Ok tt else Raise AssertionError.

End Py.
Import Py.

(** ** Strings *)

Module Str.

(** A code point, and a Python [str]. *)
Definition char : Set := N.
Definition str : Set := list char.

(** The code points of an ASCII literal. *)
Definition py (s : string) : str := map N_of_ascii (list_ascii_of_string s).

(** [str.isspace] on one code point; the same set is used by
    [str.strip()], [str.split()] and the [\s] class of [re] on [str]
    patterns. *)
Definition isspace (c : char) : bool :=
  ((9 <=? c) && (c <=? 13) || (28 <=? c) && (c <=? 32)
   || (c =? 133) || (c =? 160) || (c =? 5760)
   || (8192 <=? c) && (c <=? 8202)
   || (c =? 8232) || (c =? 8233) || (c =? 8239) || (c =? 8287)
   || (c =? 12288))%N.

Fixpoint dropwhile {A} (p : A -> bool) (l : list A) : list A :=
  match l with
  | [] => []
  | a :: r => if p a then dropwhile p r else l
  end.

Definition lstrip (s : str) : str := dropwhile isspace s.
Definition rstrip (s : str) : str := rev (dropwhile isspace (rev s)).

(** [s.strip()]. *)
Definition strip (s : str) : str := rstrip (lstrip s).

(** [sep.join(l)]. *)
Fixpoint join (sep : str) (l : list str) : str :=
  match l with
  | [] => []
  | [a] => a
  | a :: r => a ++ sep ++ join sep r
  end.

(** [s.split()]: the maximal runs of non-whitespace. *)
Fixpoint split_ws_aux (cur : str) (s : str) : list str :=
  match s with
  | [] => match cur with [] => [] | _ => [rev cur] end
  | c :: r =>
      if isspace c
      then match cur with
           | [] => split_ws_aux [] r
           | _ => rev cur :: split_ws_aux [] r
           end
      else split_ws_aux (c :: cur) r
  end.
Definition split_ws (s : str) : list str := split_ws_aux [] s.

(** [s.split(sep)] for a separator of one character: never empty. *)
Fixpoint split_on (sep : char) (s : str) : list str :=
  match s with
  | [] => [[]]
  | c :: r =>
      if (c =? sep)%N then [] :: split_on sep r
      else match split_on sep r with
           | h :: t => (c :: h) :: t
           | [] => [[c]]
           end
  end.

(** *** [int(s)] for a [str]

    Unicode decimal digits (category Nd) come in runs of ten; the table
    lists the code point of each zero (Unicode 14, CPython 3.11). *)
Definition digit_zeros : list N :=
  [48; 1632; 1776; 1984; 2406; 2534; 2662; 2790; 2918; 3046; 3174; 3302;
   3430; 3558; 3664; 3792; 3872; 4160; 4240; 6112; 6160; 6470; 6608; 6784;
   6800; 6992; 7088; 7232; 7248; 42528; 43216; 43264; 43472; 43504; 43600;
   44016; 65296; 66720; 68912; 69734; 69872; 69942; 70096; 70384; 70736;
   70864; 71248; 71360; 71472; 71904; 72016; 72784; 73040; 73120; 92768;
   92864; 93008; 120782; 120792; 120802; 120812; 120822; 123200; 123632;
   125264; 130032]%N.

Definition digit_value (c : char) : option Z :=
  match List.find (fun z => (z <=? c) && (c <=? z + 9))%N digit_zeros with
  | Some z => Some (Z.of_N (c - z))
  | None => None
  end.

(** The white space [int] skips around the literal: the ASCII control
    characters 28..31 are white space for [str.strip] but not here. *)
Definition int_space (c : char) : bool :=
  isspace c && negb ((28 <=? c) && (c <=? 31))%N.

(** Digits with single underscores between them; [prev] tells whether
    the previous character was a digit. *)
Fixpoint int_digits (acc : Z) (prev : bool) (s : str) : option Z :=
  match s with
  | [] => if prev then Some acc else None
  | c :: r =>
      if (c =? 95)%N then (if prev then int_digits acc false r else None)
      else match digit_value c with
           | Some d => int_digits (10 * acc + d) true r
           | None => None
           end
  end.

Definition int_of_str (s : str) : result Z :=
  let t := rev (dropwhile int_space (rev (dropwhile int_space s))) in
  let '(neg, body) :=
    match t with
    | c :: r => if (c =? 45)%N then (true, r)
                else if (c =? 43)%N then (false, r) else (false, t)
    | [] => (false, t)
    end in
  match int_digits 0 false body with
  | Some z => Ok (if neg then - z else z)
  | None => Raise ValueError
  end.

End Str.
Import Str.

(** ** Floating point: IEEE 754 binary64 *)

Module Float.

Definition prec : Z := 53.
Definition emax : Z := 1024.

Definition float : Set := spec_float.

Definition mul (x y : float) : float := SFmul prec emax x y.

(** The quotient [a / b] of two naturals ([0 <= a], [0 < b]) rounded to
    the nearest float, ties to even, with sign [neg]: the quotient is
    computed with at least three bits more than the format holds, and the
    remainder is kept as a sticky last bit, so that the final rounding
    sees on which side of a midpoint the exact value lies. *)
Definition div_round (neg : bool) (a b : Z) : float :=
  if a =? 0 then S754_zero neg
  else
    let k := Z.max 0 (prec + 3 + Z.log2 b - Z.log2 a) in
    let '(q, r) := Z.div_eucl (a * 2 ^ k) b in
    let m := 2 * q + (if r =? 0 then 0 else 1) in
    binary_normalize prec emax (if neg then - m else m) (- k - 1) neg.

(** [a / b] on two [int]s: the correctly rounded quotient. *)
Definition int_truediv (a b : Z) : result float :=
  if b =? 0 then Raise ZeroDivisionError
  else match div_round (xorb (a <? 0) (b <? 0)) (Z.abs a) (Z.abs b) with
       | S754_infinity _ => Raise OverflowError
       | f => Ok f
       end.

(** The conversion of an [int] operand of a mixed [int]/[float]
    operation. *)
Definition of_int (z : Z) : result float :=
  match binary_normalize prec emax z 0 false with
  | S754_infinity _ => Raise OverflowError
  | f => Ok f
  end.

(** [z * f] for an [int] and a [float]. *)
Definition int_mul (z : Z) (f : float) : result float :=
  x ← of_int z; Ok (mul x f).

(** [int(f)]: truncation towards zero. *)
Definition to_int (f : float) : result Z :=
  match f with
  | S754_nan => Raise ValueError
  | S754_infinity _ => Raise OverflowError
  | S754_zero _ => Ok 0
  | S754_finite s m e => Ok (cond_Zopp s (Z.shiftl (Zpos m) e))
  end.

(** The float nearest to the decimal [m * 10 ^ e10] ([0 <= m]), as read
    by [float(str)] and by the JSON decoder. *)
Definition of_decimal (neg : bool) (m e10 : Z) : float :=
  if 0 <=? e10 then div_round neg (m * 10 ^ e10) 1
  else div_round neg m (10 ^ (- e10)).

End Float.

(** ** [json.loads]

    The decoder of the standard library (the C scanner of CPython), on
    the remaining text instead of an index.  Every failure of the decoder
    is a [JSONDecodeError], so the scanning functions return an option.
    The interpreter's recursion limit on deeply nested documents and
    its limit on the number of digits of an integer literal are not
    modelled. *)

Module Json.

#[warnings="-register-all"]
Inductive value : Set :=
  | JNone
  | JBool (b : bool)
  | JInt (z : Z)
  | JFloat (f : Float.float)
  | JStr (s : str)
  | JList (l : list value)
  | JDict (d : list (str * value)).

Local Open Scope N_scope.

(** The white space of the JSON grammar: space, tab, line feed, carriage
    return. *)
Definition is_ws (c : char) : bool :=
  (c =? 32) || (c =? 9) || (c =? 10) || (c =? 13).
Definition skip_ws (s : str) : str := dropwhile is_ws s.

Definition is_digit (c : char) : bool := (48 <=? c) && (c <=? 57).

Fixpoint span_digits (s : str) : str * str :=
  match s with
  | c :: r => if is_digit c
              then let '(d, t) := span_digits r in (c :: d, t)
              else ([], s)
  | [] => ([], [])
  end.

Definition digits_value (ds : str) : Z :=
  fold_left (fun acc c => (10 * acc + Z.of_N (c - 48))%Z) ds 0%Z.

Definition hex_value (c : char) : option N :=
  if (48 <=? c) && (c <=? 57) then Some (c - 48)
  else if (97 <=? c) && (c <=? 102) then Some (c - 87)
  else if (65 <=? c) && (c <=? 70) then Some (c - 55)
  else None.

Definition hex4 (a b c d : char) : option N :=
  x ← hex_value a; y ← hex_value b; z ← hex_value c; w ← hex_value d;
  Some (((x * 16 + y) * 16 + z) * 16 + w).

Definition is_high_surrogate (c : N) : bool := (55296 <=? c) && (c <=? 56319).
Definition is_low_surrogate (c : N) : bool := (56320 <=? c) && (c <=? 57343).
Definition join_surrogates (h l : N) : N :=
  65536 + (h - 55296) * 1024 + (l - 56320).

(** The text after the opening quote, up to the closing one (strict
    mode: no raw control character). *)
Fixpoint scanstring (s : str) : option (str * str) :=
  match s with
  | [] => None
  | c :: r =>
      if c =? 34 then Some ([], r)
      else if c =? 92 then
        match r with
        | [] => None
        | e :: r1 =>
            let simple (x : char) :=
              '(t, rest) ← scanstring r1; Some (x :: t, rest) in
            if e =? 34 then simple 34
            else if e =? 92 then simple 92
            else if e =? 47 then simple 47
            else if e =? 98 then simple 8
            else if e =? 102 then simple 12
            else if e =? 110 then simple 10
            else if e =? 114 then simple 13
            else if e =? 116 then simple 9
            else if e =? 117 then
              match r1 with
              | h1 :: h2 :: h3 :: h4 :: r2 =>
                  c1 ← hex4 h1 h2 h3 h4;
                  let lone := '(t, rest) ← scanstring r2; Some (c1 :: t, rest) in
                  if is_high_surrogate c1 && (6 <? N.of_nat (length r2)) then
                    match r2 with
                    | b :: u :: g1 :: g2 :: g3 :: g4 :: r3 =>
                        if (b =? 92) && (u =? 117) then
                          c2 ← hex4 g1 g2 g3 g4;
                          if is_low_surrogate c2
                          then '(t, rest) ← scanstring r3;
                               Some (join_surrogates c1 c2 :: t, rest)
                          else lone
                        else lone
                    | _ => lone
                    end
                  else lone
              | _ => None
              end
            else None
        end
      else if c <=? 31 then None
      else '(t, rest) ← scanstring r; Some (c :: t, rest)
  end.

(** A number: an optional minus sign, then [0] or a digit [1..9] followed
    by digits, then optionally a point and one digit or more, then
    optionally [e] or [E], an optional sign and one digit or more; an
    [int] when it has neither fraction nor exponent. *)
Definition match_number (s : str) : option (value * str) :=
  let '(neg, s1) :=
    match s with
    | c :: r => if c =? 45 then (true, r) else (false, s)
    | [] => (false, s)
    end in
  '(ipart, s2) ←
    match s1 with
    | c :: r =>
        if (49 <=? c) && (c <=? 57)
        then let '(d, t) := span_digits r in Some (c :: d, t)
        else if c =? 48 then Some ([c], r) else None
    | [] => None
    end;
  let '(fpart, s3) :=
    match s2 with
    | p :: d :: r =>
        if (p =? 46) && is_digit d
        then let '(ds, t) := span_digits r in (Some (d :: ds), t)
        else (None, s2)
    | _ => (None, s2)
    end in
  let '(epart, s4) :=
    match s3 with
    | e :: r =>
        if (e =? 101) || (e =? 69) then
          let '(eneg, r1) :=
            match r with
            | sg :: t => if sg =? 45 then (true, t)
                         else if sg =? 43 then (false, t) else (false, r)
            | [] => (false, r)
            end in
          match span_digits r1 with
          | ([], _) => (None, s3)
          | (ds, t) =>
              (Some (if eneg then (- digits_value ds)%Z else digits_value ds), t)
          end
        else (None, s3)
    | [] => (None, s3)
    end in
  match fpart, epart with
  | None, None =>
      Some (JInt (if neg then (- digits_value ipart)%Z else digits_value ipart), s4)
  | _, _ =>
      let fd := default [] fpart in
      let e10 := (default 0 epart - Z.of_nat (length fd))%Z in
      Some (JFloat (Float.of_decimal neg (digits_value (ipart ++ fd)) e10), s4)
  end.

(** [s] without the prefix [p], when it starts with it. *)
Fixpoint strip_prefix (p s : str) : option str :=
  match p, s with
  | [], _ => Some s
  | a :: p', b :: s' => if a =? b then strip_prefix p' s' else None
  | _ :: _, [] => None
  end.

Definition constant (name : string) (v : value) (s : str)
    (otherwise : option (value * str)) : option (value * str) :=
  match strip_prefix (py name) s with
  | Some r => Some (v, r)
  | None => otherwise
  end.

(** One JSON value at the head of [s]; [n] bounds the number of nested
    calls, each of which, or its successor, consumes a character. *)
Fixpoint scan_once (n : nat) (s : str) : option (value * str) :=
  match n with
  | O => None
  | S n =>
      match s with
      | [] => None
      | c :: r =>
          if c =? 34 then '(k, t) ← scanstring r; Some (JStr k, t)
          else if c =? 123 then
            match skip_ws r with
            | c' :: r' =>
                if c' =? 125 then Some (JDict [], r')
                else '(d, t) ← object_items n (c' :: r'); Some (JDict d, t)
            | [] => None
            end
          else if c =? 91 then
            match skip_ws r with
            | c' :: r' =>
                if c' =? 93 then Some (JList [], r')
                else '(l, t) ← array_items n (c' :: r'); Some (JList l, t)
            | [] => None
            end
          else if c =? 110 then constant "null" JNone s None
          else if c =? 116 then constant "true" (JBool true) s None
          else if c =? 102 then constant "false" (JBool false) s None
          else if c =? 78 then constant "NaN" (JFloat S754_nan) s None
          else if c =? 73 then
            constant "Infinity" (JFloat (S754_infinity false)) s None
          else if c =? 45 then
            constant "-Infinity" (JFloat (S754_infinity true)) s (match_number s)
          else match_number s
      end
  end
with array_items (n : nat) (s : str) : option (list value * str) :=
  match n with
  | O => None
  | S n =>
      '(v, r) ← scan_once n s;
      match skip_ws r with
      | c :: r' =>
          if c =? 93 then Some ([v], r')
          else if c =? 44 then
            '(vs, t) ← array_items n (skip_ws r'); Some (v :: vs, t)
          else None
      | [] => None
      end
  end
with object_items (n : nat) (s : str) : option (list (str * value) * str) :=
  match n with
  | O => None
  | S n =>
      match s with
      | c :: r =>
          if c =? 34 then
            '(k, r1) ← scanstring r;
            match skip_ws r1 with
            | c2 :: r2 =>
                if c2 =? 58 then
                  '(v, r3) ← scan_once n (skip_ws r2);
                  match skip_ws r3 with
                  | c3 :: r4 =>
                      if c3 =? 125 then Some ([(k, v)], r4)
                      else if c3 =? 44 then
                        '(kvs, t) ← object_items n (skip_ws r4);
                        Some ((k, v) :: kvs, t)
                      else None
                  | [] => None
                  end
                else None
            | [] => None
            end
          else None
      | [] => None
      end
  end.

(** [json.loads(s)] for a [str]. *)
Definition loads (s : str) : result value :=
  match s with
  | 65279 :: _ => Raise JSONDecodeError
  | _ =>
      match scan_once (2 * length s + 2) (skip_ws s) with
      | Some (v, r) =>
          match skip_ws r with
          | [] => Ok v
          | _ :: _ => Raise JSONDecodeError
          end
      | None => Raise JSONDecodeError
      end
  end.

End Json.

(** ** The values the parser handles

    The variable [bbox] of [parse_layout_blocks] holds what [json.loads]
    returned, a list of [int]s, or [None]; the built-in functions applied
    to it are modelled on exactly these values. *)

Module Value.
Import Json.

(** The keys of a [dict] built from the pairs [d], in the order of their
    first insertion. *)
Fixpoint dict_keys_from (seen : list str) (d : list (str * value)) : list str :=
  match d with
  | [] => []
  | (k, _) :: r =>
      if bool_decide (k ∈ seen) then dict_keys_from seen r
      else k :: dict_keys_from (k :: seen) r
  end.
Definition dict_keys (d : list (str * value)) : list str := dict_keys_from [] d.

(** [len(v)]. *)
Definition len (v : value) : result Z :=
  match v with
  | JList l => Ok (Z.of_nat (length l))
  | JStr s => Ok (Z.of_nat (length s))
  | JDict d => Ok (Z.of_nat (length (dict_keys d)))
  | JNone | JBool _ | JInt _ | JFloat _ => Raise TypeError
  end.

(** The items [for item in v] runs over. *)
Definition iter (v : value) : result (list value) :=
  match v with
  | JList l => Ok l
  | JStr s => Ok (map (fun c => JStr [c]) s)
  | JDict d => Ok (map JStr (dict_keys d))
  | JNone | JBool _ | JInt _ | JFloat _ => Raise TypeError
  end.

(** [int(v)]. *)
Definition int (v : value) : result Z :=
  match v with
  | JInt z => Ok z
  | JBool b => Ok (if b then 1 else 0)
  | JFloat f => Float.to_int f
  | JStr s => int_of_str s
  | JNone | JList _ | JDict _ => Raise TypeError
  end.

(** The truth value of [v]. *)
Definition truthy (v : value) : bool :=
  match v with
  | JNone => false
  | JBool b => b
  | JInt z => negb (z =? 0)
  | JFloat (S754_zero _) => false
  | JFloat _ => true
  | JStr s => negb (bool_decide (s = []))
  | JList l => match l with [] => false | _ => true end
  | JDict d => match d with [] => false | _ => true end
  end.

(** [list(map(f, l))]: the first exception stops the traversal. *)
Fixpoint map_result {A B} (f : A -> result B) (l : list A) : result (list B) :=
  match l with
  | [] => Ok []
  | a :: r => b ← f a; bs ← map_result f r; Ok (b :: bs)
  end.

(** [l[i]]. *)
Definition index (l : list Z) (i : nat) : result Z :=
  match l !! i with
  | Some z => Ok z
  | None => Raise IndexError
  end.

End Value.

(** ** The tree built by BeautifulSoup *)

Module Bs4.

(** A node of the tree: a string that [get_text] collects
    ([NavigableString]), a string of another kind that it leaves out (a
    comment, a declaration, the content of a [script] or [style]
    element), or an element with its attribute dictionary and children. *)
#[warnings="-register-all"]
Inductive node : Type :=
  | NavigableString (s : str)
  | OtherString (s : str)
  | Tag (name : str) (attrs : gmap str str) (children : list node).

(** [tag.get(key)]: [None] on a node that is no element. *)
Definition get (n : node) (key : str) : option str :=
  match n with
  | Tag _ attrs _ => attrs !! key
  | _ => None
  end.

(** The strings of [n] and its descendants in document order, each
    stripped, the empty ones left out. *)
Fixpoint all_strings (n : node) : list str :=
  match n with
  | NavigableString s =>
      match strip s with
      | [] => []
      | t => [t]
      end
  | OtherString _ => []
  | Tag _ _ children => flat_map all_strings children
  end.

(** [n.get_text(separator=sep, strip=True)]. *)
Definition get_text (sep : str) (n : node) : str := join sep (all_strings n).

Definition is_tag (name : str) (n : node) : bool :=
  match n with
  | Tag t _ _ => bool_decide (t = name)
  | _ => false
  end.

(** [soup.find_all(name, recursive=False)] on the children of the
    document. *)
Definition find_all (name : str) (children : list node) : list node :=
  List.filter (is_tag name) children.

(** A markup text together with the tree that
    [BeautifulSoup(raw, "html.parser")] builds from it. *)
Record html : Type := Html { raw : str; tree : list node }.

End Bs4.

(** ** [Tools/chandra_inference.py] *)

Module Chandra.
Import Json Value Bs4 Float.

(** [BBOX_SCALE]: the boxes of the model are normalised to [0..1024]. *)
Definition BBOX_SCALE : Z := 1024.

Module Block.
(** An entry of [bounding_boxes]. *)
Record t : Set := Make {
  text : str;
  x : Z;
  y : Z;
  width : Z;
  height : Z;
  label : str;
  estimated : bool
}.
End Block.

(** The value of [bbox] after the two attempts of lines 93-105: the JSON
    reading first, then the list of space separated integers, else
    [None]. *)
Definition parse_bbox (bbox_str : option str) : result value :=
  match bbox_str with
  | Some (c :: s') =>
      let s := c :: s' in
      try_except
        (bbox ← Json.loads s;
         n ← len bbox;
         _ ← assert (n =? 4);
         Ok bbox)
        [JSONDecodeError; AssertionError]
        (try_except
           (ints ← map_result int_of_str (split_ws s);
            _ ← assert (Z.of_nat (length ints) =? 4);
            Ok (JList (map JInt ints)))
           [ValueError; AssertionError]
           (Ok JNone))
  | Some [] | None => Ok JNone
  end.

(** [int(b * scaler)]. *)
Definition scaled (b : Z) (scaler : float) : result Z :=
  f ← int_mul b scaler; to_int f.

(** Lines 115-122: the pixel box [(x1, y1, width, height)] of a box given
    on the normalised grid. *)
Definition rescale (width_scaler height_scaler : float)
    (image_width image_height : Z) (bbox : list Z) : result (Z * Z * Z * Z) :=
  b0 ← index bbox 0; s0 ← scaled b0 width_scaler;
  let x1 := Z.max 0 s0 in
  b1 ← index bbox 1; s1 ← scaled b1 height_scaler;
  let y1 := Z.max 0 s1 in
  b2 ← index bbox 2; s2 ← scaled b2 width_scaler;
  let x2 := Z.min s2 image_width in
  b3 ← index bbox 3; s3 ← scaled b3 height_scaler;
  let y2 := Z.min s3 image_height in
  let width := x2 - x1 in
  let height := y2 - y1 in
  Ok (x1, y1, width, height).

(** The body of the loop of [parse_layout_blocks] for one top-level
    [div]: the block it appends, if any. *)
Definition layout_block (width_scaler height_scaler : float)
    (image_width image_height : Z) (div : node) : result (option Block.t) :=
  let bbox_str := get div (py "data-bbox") in
  let label := default (py "Text") (get div (py "data-label")) in
  bbox ← parse_bbox bbox_str;
  if negb (truthy bbox) then Ok None
  else
    items ← iter bbox;
    bbox ← map_result int items;
    '(x1, y1, width, height) ←
      rescale width_scaler height_scaler image_width image_height bbox;
    if (width <=? 0) || (height <=? 0) then Ok None
    else
      let text := get_text (py " ") div in
      match text with
      | [] => Ok None
      | _ :: _ => Ok (Some (Block.Make text x1 y1 width height label false))
      end.

(** The loop over the top-level [div]s, appending to [blocks]. *)
Fixpoint layout_blocks (width_scaler height_scaler : float)
    (image_width image_height : Z) (divs : list node)
    (blocks : list Block.t) : result (list Block.t) :=
  match divs with
  | [] => Ok blocks
  | div :: rest =>
      b ← layout_block width_scaler height_scaler image_width image_height div;
      layout_blocks width_scaler height_scaler image_width image_height rest
        (match b with Some blk => blocks ++ [blk] | None => blocks end)
  end.

(** [parse_layout_blocks(raw_html, image_width, image_height)];
    [bs4] tells whether the package can be imported. *)
Definition parse_layout_blocks (bs4 : bool) (doc : html)
    (image_width image_height : Z) : result (list Block.t) :=
  if negb bs4 then Raise ImportError
  else
    let top_level_divs := find_all (py "div") (tree doc) in
    width_scaler ← int_truediv image_width BBOX_SCALE;
    height_scaler ← int_truediv image_height BBOX_SCALE;
    layout_blocks width_scaler height_scaler image_width image_height
      top_level_divs [].

(** [re.sub(r'<[^>]+>', ' ', s)].  A match starts at a [<] that is
    followed by a character other than [>] and, further on, by a [>]; it
    ends at the first [>].  [inside] tells whether the scan is within a
    match. *)
Definition opens_tag (r : str) : bool :=
  match r with
  | c :: r' => negb (c =? 62)%N && existsb (N.eqb 62) r'
  | [] => false
  end.

Fixpoint sub_tags (inside : bool) (s : str) : str :=
  match s with
  | [] => []
  | c :: r =>
      if inside then (if (c =? 62)%N then sub_tags false r else sub_tags true r)
      else if (c =? 60)%N && opens_tag r then 32%N :: sub_tags true r
      else c :: sub_tags false r
  end.

(** [re.sub(r'\s+', ' ', s)]: every maximal run of white space becomes
    one space.  [after_space] tells whether the previous character was
    white space. *)
Fixpoint sub_spaces (after_space : bool) (s : str) : str :=
  match s with
  | [] => []
  | c :: r =>
      if isspace c
      then (if after_space then sub_spaces true r else 32%N :: sub_spaces true r)
      else c :: sub_spaces false r
  end.

(** The two strategies of [extract_text_from_html]. *)
Definition extract_structured (doc : html) : str * list str :=
  let texts :=
    List.filter (fun t => negb (bool_decide (t = [])))
      (map (get_text (py " ")) (find_all (py "div") (tree doc))) in
  (join [10%N] texts, texts).

Definition extract_degraded (raw_html : str) : str * list str :=
  let text := sub_tags false raw_html in
  let text := strip (sub_spaces false text) in
  let lines :=
    map strip
      (List.filter (fun line => negb (bool_decide (strip line = [])))
         (split_on 10%N text)) in
  (text, lines).

(** [extract_text_from_html(raw_html)]: the import of [bs4] selects the
    strategy. *)
Definition extract_text_from_html (bs4 : bool) (doc : html) : str * list str :=
  if bs4 then extract_structured doc else extract_degraded (raw doc).

(** *** The collaborators of the pipeline *)

(** What a run obtains from outside the program. *)
Record world : Type := World {
  (** whether [bs4] and [PIL] can be imported *)
  bs4_installed : bool;
  pil_installed : bool;
  (** [Path(image_path).exists()] and [MODEL_PATH.exists()]: the
      answer, or the [OSError] of a path that cannot be examined (a name
      that is too long, a directory that may not be searched) *)
  path_exists : str -> result bool;
  model_exists : result bool;
  (** [Image.open(image_path).size], or the exception of a file that
      cannot be opened or decoded *)
  image_size : str -> result (Z * Z);
  (** lines 203-211, once the new size is known: the message on the
      standard error and [img.resize((w, h), LANCZOS)] saved next to the
      original; the path of the new file, or the exception of one of
      these steps *)
  save_resized : str -> Z -> Z -> result str;
  (** the C library's [pow(x, 0.5)] on a positive finite [x] *)
  libm_pow_half : float -> float;
  (** the import of [mlx_vlm], the loading of the model and the
      generation on the given image: the markup produced *)
  generate : str -> result html
}.

(** A Python number that is a [float] or a [complex]. *)
Inductive number : Set :=
  | NFloat (f : float)
  | NComplex.

Definition one : float := S754_finite false 4503599627370496 (-52).

(** [x ** 0.5] for a [float] [x]. *)
Definition pow_half (libm : float -> float) (x : float) : number :=
  match x with
  | S754_nan => NFloat S754_nan
  | S754_infinity _ => NFloat (S754_infinity false)
  | S754_zero _ => NFloat (S754_zero false)
  | S754_finite true _ _ => NComplex
  | S754_finite false _ _ =>
      if SFeqb x one then NFloat one else NFloat (libm x)
  end.

(** [int(n * scale)]. *)
Definition int_scaled (n : Z) (scale : number) : result Z :=
  match scale with
  | NFloat s => f ← int_mul n s; to_int f
  | NComplex => _ ← of_int n; Raise TypeError
  end.

(** [resize_image_if_needed(image_path, max_pixels)]. *)
Definition resize_image_if_needed (w : world) (image_path : str)
    (max_pixels : Z) : result (str * (Z * Z)) :=
  if negb (pil_installed w) then Ok (image_path, (0, 0))
  else
    '(original_width, original_height) ← image_size w image_path;
    let total_pixels := original_width * original_height in
    if total_pixels <=? max_pixels
    then Ok (image_path, (original_width, original_height))
    else
      ratio ← int_truediv max_pixels total_pixels;
      let scale := pow_half (libm_pow_half w) ratio in
      new_width ← int_scaled original_width scale;
      new_height ← int_scaled original_height scale;
      temp_path ← save_resized w image_path new_width new_height;
      Ok (temp_path, (new_width, new_height)).

Definition default_max_pixels : Z := 2048 * 2048.

Module Extraction.
(** The fields of a successful result that the program computes; the
    timings and the counters of the model are left out. *)
Record t : Type := Make {
  text : str;
  lines : list str;
  bounding_boxes : list Block.t;
  confidence : float;
  image_size : Z * Z;
  raw_html : str
}.
End Extraction.

Inductive failure : Set :=
  | ImageNotFound
  | ModelNotFound
  | Uncaught (e : exn).

(** The dictionary returned by [run_inference]: [success] false with an
    error, or true with the extraction. *)
Inductive response : Type :=
  | Failure (f : failure)
  | Success (r : Extraction.t).

Definition high_confidence : float := of_decimal false 95 (-2).
Definition low_confidence : float := of_decimal false 7 (-1).

(** Lines 278-290 and the result built from them. *)
Definition assemble (bs4 : bool) (doc : html) (bounding_boxes : list Block.t)
    (image_width image_height : Z) : Extraction.t :=
  let '(text, lines) :=
    match bounding_boxes with
    | _ :: _ => (join [10%N] (map Block.text bounding_boxes),
                 map Block.text bounding_boxes)
    | [] => extract_text_from_html bs4 doc
    end in
  let confidence :=
    match bounding_boxes with
    | _ :: _ => high_confidence
    | [] => low_confidence
    end in
  Extraction.Make text lines bounding_boxes confidence
    (image_width, image_height) (raw doc).

(** [run_inference(image_path)]: the two existence checks and the size
    normalisation run before the [try] block, the rest within it. *)
Definition run_inference (w : world) (image_path : str) : result response :=
  image_found ← path_exists w image_path;
  if negb image_found then Ok (Failure ImageNotFound)
  else
    model_found ← model_exists w;
    if negb model_found then Ok (Failure ModelNotFound)
    else
      '(processed_image_path, (image_width, image_height)) ←
        resize_image_if_needed w image_path default_max_pixels;
      match
        doc ← generate w processed_image_path;
        bounding_boxes ←
          parse_layout_blocks (bs4_installed w) doc image_width image_height;
        Ok (assemble (bs4_installed w) doc bounding_boxes
              image_width image_height)
      with
      | Ok r => Ok (Success r)
      | Raise e => Ok (Failure (Uncaught e))
      end.

End Chandra.

(** ** The model cache: [load_model] *)

Module Cache.

(** A reference to an object returned by [mlx_vlm.load], or [None]. *)
Definition ref (obj : Type) : Type := option obj.

(** [_model_cache], the dictionary with the keys ["model"] and
    ["processor"]. *)
Record t (obj : Type) : Type := Make { model : ref obj; processor : ref obj }.
Arguments Make {obj} model processor.
Arguments model {obj} t.
Arguments processor {obj} t.

(** Its value when the module is imported. *)
Definition empty {obj : Type} : t obj := Make None None.

(** What a call can change: the cache, and the number of calls of
    [mlx_vlm.load] made so far. *)
Record state (obj : Type) : Type := State { cache : t obj; loads : nat }.
Arguments State {obj} cache loads.
Arguments cache {obj} s.
Arguments loads {obj} s.

(** [load_model()].  [load n] is the outcome of the call number [n] of
    [mlx_vlm.load(str(MODEL_PATH))], the import of the package included;
    the state survives an exception. *)
Definition load_model {obj : Type} (load : nat -> result (ref obj * ref obj))
    (s : state obj) : result (ref obj * ref obj) * state obj :=
  match model (cache s) with
  | Some m => (Ok (Some m, processor (cache s)), s)
  | None =>
      match load (loads s) with
      | Ok (m, p) => (Ok (m, p), State (Make m p) (S (loads s)))
      | Raise e => (Raise e, State (cache s) (S (loads s)))
      end
  end.

End Cache.

(** ** The command line: [main] *)

Module Cli.
Import Chandra.




End Cli.

(** ** [Tools/test_bounding_boxes.py] *)

Module Viewer.
Import Chandra.

(** A call of [draw.rectangle([x1, y1, x2, y2], outline=color, width=2)]
    with the caption drawn next to it: its number, its label and the
    point where it is written. *)
Record rectangle : Set := Rect {
  x1 : Z;
  y1 : Z;
  x2 : Z;
  y2 : Z;
  outline : str;
  caption : nat * str;
  caption_at : Z * Z
}.

Definition colors : gmap str str :=
  list_to_map
    [(py "Text", py "red"); (py "Section-Header", py "blue");
     (py "Page-Footer", py "gray"); (py "Page-Header", py "gray");
     (py "Table", py "green"); (py "Image", py "purple");
     (py "Figure", py "purple")].

(** The body of the loop for the box number [i]. *)
Definition draw_box (i : nat) (box : Block.t) : rectangle :=
  let x1 := Block.x box in
  let y1 := Block.y box in
  let x2 := x1 + Block.width box in
  let y2 := y1 + Block.height box in
  let label := Block.label box in
  let color := default (py "red") (colors !! label) in
  Rect x1 y1 x2 y2 color (S i, label) (x1, y1 - 15).

(** [draw_boxes_on_image(image_path, output_path)]: [None] when the
    inference failed, else the size of the picture that was opened and
    the rectangles drawn on it; [saved] is the outcome of the final
    [img.save]. *)
Definition draw_boxes_on_image (w : world) (image_path : str)
    (saved : result unit) : result (option (Z * Z * list rectangle)) :=
  if negb (pil_installed w) then Raise ImportError
  else
    result ← run_inference w image_path;
    match result with
    | Failure _ => Ok None
    | Success r =>
        size ← image_size w image_path;
        let boxes := Extraction.bounding_boxes r in
        let drawn := imap draw_box boxes in
        _ ← saved;
        Ok (Some (size, drawn))
    end.

End Viewer.

(** ** Concrete inputs used in the statements below *)

Module Examples.
Import Json Value Bs4 Float Chandra.

(** A top-level [div] with a [data-bbox] attribute and one text child. *)
Definition div_bbox (bbox text : string) : node :=
  Tag (py "div") {[ py "data-bbox" := py bbox ]} [NavigableString (py text)].

(** [<div data-bbox='0 0 2000 2000'>Hello</div>] *)
Definition out_of_range : html :=
  Html (py "<div data-bbox='0 0 2000 2000'>Hello</div>")
       [div_bbox "0 0 2000 2000" "Hello"].

(** [<div data-bbox='[0,0,512,512]' data-label='Text'>Hello</div>] *)
Definition scenario_a : html :=
  Html (py "<div data-bbox='[0,0,512,512]' data-label='Text'>Hello</div>")
       [Tag (py "div")
          (<[ py "data-label" := py "Text" ]> {[ py "data-bbox" := py "[0,0,512,512]" ]})
          [NavigableString (py "Hello")]].

(** [<div data-bbox='5'>x</div>]: the attribute is the JSON number 5. *)
Definition scalar_bbox : html :=
  Html (py "<div data-bbox='5'>x</div>") [div_bbox "5" "x"].

(** [<div data-bbox='[null,null,null,null]'>x</div>]: a JSON array of
    four values that are no numbers. *)
Definition null_bbox : html :=
  Html (py "<div data-bbox='[null,null,null,null]'>x</div>")
       [div_bbox "[null,null,null,null]" "x"].

(** [<div data-bbox='1 2 3'>x</div><div>y</div>]: two blocks without a
    readable box. *)
Definition no_box : html :=
  Html (py "<div data-bbox='1 2 3'>x</div><div>y</div>")
       [div_bbox "1 2 3" "x"; Tag (py "div") ∅ [NavigableString (py "y")]].

(** A [div] with a label outside the vocabulary of the prompt, and one
    without a label. *)
Definition labelled : html :=
  Html (py "<div data-bbox='0 0 512 512' data-label='Sidebar'>a</div><div data-bbox='0 512 512 1024'>b</div>")
       [Tag (py "div")
          (<[ py "data-label" := py "Sidebar" ]> {[ py "data-bbox" := py "0 0 512 512" ]})
          [NavigableString (py "a")];
        div_bbox "0 512 512 1024" "b"].

(** The correctly rounded square root, as a C library that computes
    [pow(x, 0.5)] exactly rounded. *)
Definition exact_pow_half (x : float) : float := SFsqrt prec emax x.

(** A machine with every package and the model installed, on which every
    image file exists; [size] is what PIL reports for the image and [doc]
    what the model generates. *)
Definition machine (size : result (Z * Z)) (doc : html) : world :=
  {| bs4_installed := true;
     pil_installed := true;
     path_exists := fun _ => Ok true;
     model_exists := Ok true;
     image_size := fun _ => size;
     save_resized := fun p _ _ => Ok (py "resized_" ++ p);
     libm_pow_half := exact_pow_half;
     generate := fun _ => Ok doc |}.

(** The same machine without PIL. *)
Definition machine_without_pil (size : result (Z * Z)) (doc : html) : world :=
  {| bs4_installed := true;
     pil_installed := false;
     path_exists := fun _ => Ok true;
     model_exists := Ok true;
     image_size := fun _ => size;
     save_resized := fun p _ _ => Ok (py "resized_" ++ p);
     libm_pow_half := exact_pow_half;
     generate := fun _ => Ok doc |}.

Definition page : str := py "page.png".

(** A machine on which the image cannot be decoded, with and without
    PIL. *)
Definition corrupt_image : world := machine (Raise OSError) scenario_a.
Definition corrupt_image_without_pil : world :=
  machine_without_pil (Raise OSError) scenario_a.

(** A machine with an image of 800 by 600 pixels, and one with an image
    of 1000 by 500 pixels for which the model produces [scenario_a]. *)
Definition small_image : world := machine (Ok (800, 600)) scenario_a.
Definition scenario_a_run : world := machine (Ok (1000, 500)) scenario_a.

(** A machine with an image of 4000 by 4000 pixels. *)
Definition large_image : world := machine (Ok (4000, 4000)) scenario_a.

(** The float [2048 * 2048 / (8575 * 8575)], and a C library that
    returns for its power [0.5] what glibc 2.36 returns on x86-64,
    [0x1.e921b49695b06p-3]: one unit in the last place below the
    correctly rounded root, which it returns elsewhere. *)
Definition ratio_8575 : float := S754_finite false 8220559934140565 (-57).

Definition observed_pow_half (x : float) : float :=
  if SFeqb x ratio_8575 then S754_finite false 8604895194733318 (-55)
  else exact_pow_half x.

(** A machine with that library and a square image of 8575 pixels a
    side. *)
Definition square_8575 : world :=
  {| bs4_installed := true;
     pil_installed := true;
     path_exists := fun _ => Ok true;
     model_exists := Ok true;
     image_size := fun _ => Ok (8575, 8575);
     save_resized := fun p _ _ => Ok (py "resized_" ++ p);
     libm_pow_half := observed_pow_half;
     generate := fun _ => Ok scenario_a |}.

(** A run in which the model produces no block with a readable box. *)
Definition no_box_run : world := machine (Ok (1000, 500)) no_box.

End Examples.

(** ** Predicates on floats *)

Module FloatSpec.
Import Float.

(** The bits dropped by a right shift of [k] places, [t], against the
    two flags of a shift record: nothing, less than half, half, more
    than half of a unit. *)
Definition loc_inv (k t : Z) (r s : bool) : Prop :=
  match r, s with
  | false, false => t = 0
  | false, true => 0 < t /\ 2 * t < 2 ^ k
  | true, false => 2 * t = 2 ^ k
  | true, true => 2 ^ k < 2 * t
  end.

(** The record [mrs] is [M] shifted right by [k] places. *)
Definition shr_inv (M k : Z) (mrs : shr_record) : Prop :=
  0 <= shr_m mrs /\
  exists t, M = shr_m mrs * 2 ^ k + t /\ 0 <= t < 2 ^ k /\
            loc_inv k t (shr_r mrs) (shr_s mrs).

(** The float [f] is exactly [N * 2 ^ t] with sign [s]. *)
Definition dyadic (f : float) (s : bool) (N : positive) (t : Z) : Prop :=
  exists m e, f = S754_finite s m e /\ e <= t /\ Zpos m = Zpos N * 2 ^ (t - e).

(** [2 ^ e] as a rational, and the magnitude [m * 2 ^ e] of a float. *)
Definition bpow (e : Z) : Q := (2 ^ e)%Q.
Definition mag (m : positive) (e : Z) : Q := (inject_Z (Zpos m) * bpow e)%Q.

(** The unit roundoff of binary64. *)
Definition roundoff : Q := bpow (-53).

(** [s] is within a relative error of [2 ^ -52] of the square root of
    [x], both positive floats: what a [pow] of the C library that is
    accurate to one unit in the last place returns for [pow(x, 0.5)]. *)
Definition pow_half_accurate (x s : float) : Prop :=
  match x, s with
  | S754_finite false mx ex, S754_finite false ms es =>
      (mag mx ex * ((1 - bpow (-52)) * (1 - bpow (-52)))
         <= mag ms es * mag ms es
         <= mag mx ex * ((1 + bpow (-52)) * (1 + bpow (-52))))%Q
  | _, _ => False
  end.

End FloatSpec.

(** ** Predicates of the statements *)

Module Spec.
Import Json Value Bs4 Float Chandra.

(** A string that [strip] leaves unchanged. *)
Definition trimmed (s : str) : Prop := lstrip s = s /\ rstrip s = s.

(** The invariant of an emitted block for an image of [image_width] by
    [image_height] pixels. *)
Definition block_ok (image_width image_height : Z) (b : Block.t) : Prop :=
  0 <= Block.x b /\ 0 <= Block.y b /\
  Block.x b + Block.width b <= image_width /\
  Block.y b + Block.height b <= image_height /\
  0 < Block.width b /\ 0 < Block.height b /\
  strip (Block.text b) <> [].



(** The block that a top-level [div] with the pixel box [box] gives. *)
Definition expected_block (div : node) (box : Z * Z * Z * Z) : option Block.t :=
  let '(x, y, width, height) := box in
  if (width <=? 0) || (height <=? 0) then None
  else match get_text (py " ") div with
       | [] => None
       | text =>
           Some (Block.Make text x y width height
                   (default (py "Text") (get div (py "data-label"))) false)
       end.

(** A side of the downscale in the words of the specification,
    [floor(side * sqrt(max_pixels / (side * other)))] in exact
    arithmetic: the largest [n] with
    [n * n * other <= side * max_pixels], which is the integer square
    root of [side * max_pixels // other]. *)
Definition exact_side (side other max_pixels : Z) : Z :=
  Z.sqrt (side * max_pixels / other).

(** The shape of what [extract_text_from_html] returns: the text is the
    lines joined by a line feed, and no line is empty after trimming. *)
Definition text_lines_shape (r : str * list str) : Prop :=
  fst r = join [10%N] (snd r) /\
  Forall (fun line => strip line <> []) (snd r).

End Spec.
Import Spec.

(** ** Further notions of the statements *)

Module Notions.
Import Json Value Bs4 Float Chandra.

(** *** Decimal literals *)

Fixpoint uint_chars (d : Decimal.uint) : str :=
  match d with
  | Decimal.Nil => []
  | Decimal.D0 d => 48%N :: uint_chars d
  | Decimal.D1 d => 49%N :: uint_chars d
  | Decimal.D2 d => 50%N :: uint_chars d
  | Decimal.D3 d => 51%N :: uint_chars d
  | Decimal.D4 d => 52%N :: uint_chars d
  | Decimal.D5 d => 53%N :: uint_chars d
  | Decimal.D6 d => 54%N :: uint_chars d
  | Decimal.D7 d => 55%N :: uint_chars d
  | Decimal.D8 d => 56%N :: uint_chars d
  | Decimal.D9 d => 57%N :: uint_chars d
  end.

(** [str(z)] for an [int]: a minus sign for a negative number, then the
    decimal digits without a leading zero. *)
Definition str_of_int (z : Z) : str :=
  match Z.to_int z with
  | Decimal.Pos d => uint_chars d
  | Decimal.Neg d => 45%N :: uint_chars d
  end.

(** The two notations of a box that the prompt and the parser know: the
    JSON array [[b0, b1, b2, b3]], with or without a space after each
    comma, and the four numbers separated by single spaces. *)
Definition bbox_json (spaced : bool) (b0 b1 b2 b3 : Z) : str :=
  let sep := if spaced then py ", " else py "," in
  py "[" ++ str_of_int b0 ++ sep ++ str_of_int b1 ++ sep
    ++ str_of_int b2 ++ sep ++ str_of_int b3 ++ py "]".

Definition bbox_spaces (b0 b1 b2 b3 : Z) : str :=
  str_of_int b0 ++ py " " ++ str_of_int b1 ++ py " "
    ++ str_of_int b2 ++ py " " ++ str_of_int b3.

(** An integer whose literal the interpreter converts: recent versions
    refuse a literal of more than 4300 digits. *)
Definition convertible (z : Z) : Prop := Z.abs z < 10 ^ 4300.

(** *** Markup and white space *)

(** A top-level [div] with a non-empty [data-bbox] attribute. *)
Definition has_bbox (n : node) : bool :=
  is_tag (py "div") n &&
  match get n (py "data-bbox") with
  | Some (_ :: _) => true
  | _ => false
  end.

(** The pattern [<[^>]+>] matches a part of [s]: a [<], then one
    character or more other than [>], then a [>]. *)
Definition has_tag (s : str) : Prop :=
  exists pre body suf,
    s = pre ++ [60%N] ++ body ++ [62%N] ++ suf /\
    body <> [] /\ Forall (fun c => c <> 62%N) body.

(** No two white space characters of [s] are adjacent. *)
Definition single_spaced (s : str) : Prop :=
  forall pre c d suf,
    s = pre ++ c :: d :: suf -> isspace c = true -> isspace d = false.

(** White space is normalised in [s]: none at either end, and between
    two words exactly one space character. *)
Definition normalised (s : str) : Prop :=
  trimmed s /\
  Forall (fun c => isspace c = true -> c = 32%N) s /\
  single_spaced s.

(** *** The exceptions of the loop body *)

(** The exceptions that can leave the body of the loop of
    [parse_layout_blocks]. *)
Definition escapes (e : exn) : Prop :=
  e = TypeError \/ e = ValueError \/ e = OverflowError.

(** *** Literals *)

Definition digit (c : char) : Prop := (48 <= c <= 57)%N.

(** A literal: a sign, a first digit and further digits, with no digit
    after a leading zero. *)
Definition sign (neg : bool) : str := if neg then [45%N] else [].

Definition literal (c : char) (ds : str) : Prop :=
  digit c /\ Forall digit ds /\ (c = 48%N -> ds = []).

Definition signed (neg : bool) (v : Z) : Z := if neg then - v else v.

(** A rest of the text at which an integer literal ends. *)
Definition stops (rest : str) : Prop :=
  match rest with
  | [] => True
  | c :: _ => ~ digit c /\ c <> 46%N /\ c <> 101%N /\ c <> 69%N
  end.

(** The separator between two items: a comma, and a space or not. *)
Definition separator (spaced : bool) : str :=
  if spaced then py ", " else py ",".

(** *** Boxes on the grid *)

(** A box as the prompt asks for it: within the grid, the corners in
    order. *)
Definition on_grid (b0 b1 b2 b3 : Z) : Prop :=
  0 <= b0 <= b2 /\ b2 <= 1024 /\ 0 <= b1 <= b3 /\ b3 <= 1024.

(** The pixel box of a box on the grid: each coordinate scaled and
    rounded down. *)
Definition grid_box (image_width image_height b0 b1 b2 b3 : Z)
    : Z * Z * Z * Z :=
  (b0 * image_width / 1024, b1 * image_height / 1024,
   b2 * image_width / 1024 - b0 * image_width / 1024,
   b3 * image_height / 1024 - b1 * image_height / 1024).

(** The [data-bbox] attribute of [div] is a notation of the box
    [b0, b1, b2, b3]. *)
Definition denotes (div : node) (b0 b1 b2 b3 : Z) : Prop :=
  (exists spaced,
     get div (py "data-bbox") = Some (bbox_json spaced b0 b1 b2 b3)) \/
  get div (py "data-bbox") = Some (bbox_spaces b0 b1 b2 b3).

(** *** The pattern of a tag, computed *)

(** Whether the pattern [<[^>]+>] matches somewhere in [s]. *)
Fixpoint tagged (s : str) : bool :=
  match s with
  | [] => false
  | c :: r => (c =? 60)%N && opens_tag r || tagged r
  end.

(** [s] is empty or starts with a character that is no white space. *)
Definition word_next (s : str) : Prop :=
  match s with
  | d :: _ => isspace d = false
  | [] => True
  end.

(** *** Successive calls *)

(** [n] calls of [load_model] in a row: what each returns or raises, and
    the final state. *)
Fixpoint load_model_calls {obj : Type}
    (load : nat -> result (Cache.ref obj * Cache.ref obj)) (n : nat)
    (s : Cache.state obj)
    : list (result (Cache.ref obj * Cache.ref obj)) * Cache.state obj :=
  match n with
  | O => ([], s)
  | S n =>
      let '(r, s1) := Cache.load_model load s in
      let '(rs, s2) := load_model_calls load n s1 in
      (r :: rs, s2)
  end.

(** *** Rectangles *)

(** The rectangle [q] is not empty and lies within a picture of
    [width] by [height] pixels. *)
Definition inside (width height : Z) (q : Viewer.rectangle) : Prop :=
  0 <= Viewer.x1 q < Viewer.x2 q /\ Viewer.x2 q <= width /\
  0 <= Viewer.y1 q < Viewer.y2 q /\ Viewer.y2 q <= height.

End Notions.
Import Notions.

(** ** Further concrete inputs *)

Module Cases.
Import Json Value Bs4 Float Chandra.

(** The machine of [Examples.machine] without [bs4]. *)
Definition machine_without_bs4 (size : result (Z * Z)) (doc : html) : world :=
  {| bs4_installed := false;
     pil_installed := true;
     path_exists := fun _ => Ok true;
     model_exists := Ok true;
     image_size := fun _ => size;
     save_resized := fun p _ _ => Ok (py "resized_" ++ p);
     libm_pow_half := Examples.exact_pow_half;
     generate := fun _ => Ok doc |}.

(** Runs on an image of 1000 by 500 pixels for which the model produces
    [Examples.scenario_a], on a machine without [bs4] and on one without
    PIL. *)
Definition no_bs4_run : world :=
  machine_without_bs4 (Ok (1000, 500)) Examples.scenario_a.
Definition no_pil_run : world :=
  Examples.machine_without_pil (Ok (1000, 500)) Examples.scenario_a.

(** A run on an image of 4000 by 3000 pixels. *)
Definition landscape : world :=
  Examples.machine (Ok (4000, 3000)) Examples.scenario_a.




(** A loader that fails at its first call and returns the objects 1 and
    2 from then on. *)
Definition flaky_load (n : nat) : result (Cache.ref nat * Cache.ref nat) :=
  match n with
  | O => Raise ImportError
  | S _ => Ok (Some 1%nat, Some 2%nat)
  end.

(** A text with markup and irregular white space. *)
Definition untidy : str :=
  py "<div data-bbox='0 0 10 10'>  Hello <b>big</b>   world </div> a < b".

End Cases.

(** * Properties *)

(** ** Results *)

Module PyFacts.

Lemma bind_ok {A B} (m : result A) (f : A -> result B) (b : B) :
  m ≫= f = Ok b -> exists a, m = Ok a /\ f a = Ok b.
Proof. destruct m as [a|e]; [eauto | discriminate]. Qed.

End PyFacts.

(** Inversion of a chain of binds that returns. *)
Ltac bind_inv H :=
  repeat match type of H with
  | _ ≫= _ = Ok _ =>
      let a := fresh "v" in let Ha := fresh "E" in
      apply PyFacts.bind_ok in H; destruct H as (a & Ha & H)
  end.

(** ** Strings *)

Module StrFacts.

Section Dropwhile.
Context {A : Type} (p : A -> bool).

Lemma dropwhile_head (l : list A) a r :
  dropwhile p l = a :: r -> p a = false.
Proof.
  induction l as [|b l IH]; simpl; [discriminate|].
  destruct (p b) eqn:Hb; [exact IH|]. intros [= -> _]. exact Hb.
Qed.

Lemma dropwhile_fixed (l : list A) a r :
  l = a :: r -> p a = false -> dropwhile p l = l.
Proof. intros -> Ha. simpl. now rewrite Ha. Qed.

Lemma dropwhile_idem (l : list A) :
  dropwhile p (dropwhile p l) = dropwhile p l.
Proof.
  destruct (dropwhile p l) as [|a r] eqn:E; [reflexivity|].
  apply (dropwhile_fixed _ a r eq_refl), (dropwhile_head l a r E).
Qed.

Lemma dropwhile_suffix (l : list A) :
  exists u, l = u ++ dropwhile p l.
Proof.
  induction l as [|b l [u IH]]; simpl; [now exists []|].
  destruct (p b); [exists (b :: u); simpl; congruence | now exists []].
Qed.

Lemma dropwhile_app (a x : list A) :
  a <> [] -> dropwhile p a = a -> dropwhile p (a ++ x) = a ++ x.
Proof.
  destruct a as [|c a]; [congruence|]. intros _ H.
  pose proof (dropwhile_head (c :: a) c a H) as Hc.
  simpl. now rewrite Hc.
Qed.

Lemma dropwhile_Forall (P : A -> Prop) (l : list A) :
  Forall P l -> Forall P (dropwhile p l).
Proof.
  induction 1 as [|b l Hb Hl IH]; simpl; [constructor|].
  destruct (p b); [exact IH | now constructor].
Qed.
End Dropwhile.

Lemma rstrip_prefix (s : str) : exists u, s = rstrip s ++ u.
Proof.
  unfold rstrip. destruct (dropwhile_suffix isspace (rev s)) as [u Hu].
  exists (rev u). rewrite <- rev_app_distr, <- Hu. now rewrite rev_involutive.
Qed.

Lemma rstrip_idem (s : str) : rstrip (rstrip s) = rstrip s.
Proof. unfold rstrip. now rewrite rev_involutive, dropwhile_idem. Qed.

Lemma lstrip_rstrip (s : str) : lstrip s = s -> lstrip (rstrip s) = rstrip s.
Proof.
  intros H. destruct (rstrip_prefix s) as [u Hu].
  destruct (rstrip s) as [|c r] eqn:E; [reflexivity|].
  unfold lstrip in *. apply (dropwhile_fixed _ _ c r eq_refl).
  rewrite Hu in H. exact (dropwhile_head _ _ _ _ H).
Qed.

Lemma strip_trimmed (s : str) : trimmed (strip s).
Proof.
  unfold trimmed, strip. split.
  - apply lstrip_rstrip. apply dropwhile_idem.
  - apply rstrip_idem.
Qed.

Lemma trimmed_strip (s : str) : trimmed s -> strip s = s.
Proof. intros [Hl Hr]. unfold strip. now rewrite Hl. Qed.

(** [strip] is idempotent. *)
Lemma strip_idem (s : str) : strip (strip s) = strip s.
Proof. apply trimmed_strip, strip_trimmed. Qed.

Lemma lstrip_app (a x : str) :
  a <> [] -> lstrip a = a -> lstrip (a ++ x) = a ++ x.
Proof. apply dropwhile_app. Qed.

Lemma rstrip_app (x b : str) :
  b <> [] -> rstrip b = b -> rstrip (x ++ b) = x ++ b.
Proof.
  unfold rstrip. intros Hb H.
  assert (Hd : dropwhile isspace (rev b) = rev b).
  { rewrite <- H at 2. now rewrite rev_involutive. }
  rewrite rev_app_distr, dropwhile_app; [|intros E; apply Hb|exact Hd].
  - now rewrite <- rev_app_distr, rev_involutive.
  - rewrite <- (rev_involutive b), E. reflexivity.
Qed.

Lemma join_nonempty (sep : str) (l : list str) :
  l <> [] -> Forall (fun t => t <> []) l -> join sep l <> [].
Proof.
  destruct l as [|a [|b r]]; [congruence| |]; intros _ H; inversion H; subst.
  - assumption.
  - simpl. destruct a; [congruence | discriminate].
Qed.

(** Joining trimmed, non-empty pieces gives a trimmed string. *)
Lemma join_trimmed (sep : str) (l : list str) :
  Forall (fun t => t <> [] /\ trimmed t) l -> trimmed (join sep l).
Proof.
  induction 1 as [|a r [Ha [Hl Hr]] Hrest IH]; [now split|].
  destruct r as [|b r]; [now split|].
  change (join sep (a :: b :: r)) with (a ++ sep ++ join sep (b :: r)).
  assert (Hne : join sep (b :: r) <> []).
  { apply join_nonempty; [discriminate|].
    eapply Forall_impl; [exact Hrest|]. now intros t [Ht _]. }
  destruct IH as [_ IHr]. split.
  - now apply lstrip_app.
  - rewrite app_assoc. now apply rstrip_app.
Qed.

Lemma strip_Forall (P : char -> Prop) (s : str) :
  Forall P s -> Forall P (strip s).
Proof.
  intros H. unfold strip, rstrip, lstrip.
  apply List.Forall_rev, dropwhile_Forall, List.Forall_rev, dropwhile_Forall, H.
Qed.

(** A string without the separator is not split. *)
Lemma split_on_absent (sep : char) (s : str) :
  Forall (fun c => c <> sep) s -> split_on sep s = [s].
Proof.
  induction 1 as [|c s Hc Hs IH]; [reflexivity|]. simpl.
  destruct (N.eqb_spec c sep); [contradiction|]. now rewrite IH.
Qed.

End StrFacts.

(** ** Floating point *)

Module FloatFacts.
Import Float FloatSpec Chandra.

(** *** Digits *)

Lemma digits2_log2 (m : positive) :
  Zpos (digits2_pos m) = Z.log2 (Zpos m) + 1.
Proof.
  induction m as [m IH|m IH|]; simpl digits2_pos.
  - rewrite Pos2Z.inj_succ, IH, Pos2Z.inj_xI, Z.log2_succ_double by lia. lia.
  - rewrite Pos2Z.inj_succ, IH, Pos2Z.inj_xO, Z.log2_double by lia. lia.
  - reflexivity.
Qed.

Lemma digits2_bounds (m : positive) :
  2 ^ (Zpos (digits2_pos m) - 1) <= Zpos m < 2 ^ Zpos (digits2_pos m).
Proof.
  rewrite digits2_log2. replace (Z.log2 (Zpos m) + 1 - 1) with (Z.log2 (Zpos m)) by lia.
  apply Z.log2_spec. lia.
Qed.

Lemma digits2_unique (m : positive) (d : Z) :
  2 ^ (d - 1) <= Zpos m < 2 ^ d -> Zpos (digits2_pos m) = d.
Proof.
  intros H. rewrite digits2_log2.
  assert (0 < d).
  { destruct (Z.leb_spec d 0); [|assumption].
    rewrite (Z.pow_neg_r 2 (d - 1)) in H by lia.
    destruct (Z.eqb_spec d 0) as [->|]; [simpl in H; lia|].
    rewrite (Z.pow_neg_r 2 d) in H by lia. lia. }
  rewrite (Z.log2_unique (Zpos m) (d - 1)); [lia | lia |].
  replace (Z.succ (d - 1)) with d by lia. exact H.
Qed.

Lemma digits2_shift (m : positive) (j : Z) (p : positive) :
  0 <= j -> Zpos p = Zpos m * 2 ^ j ->
  Zpos (digits2_pos p) = Zpos (digits2_pos m) + j.
Proof.
  intros Hj Hp. apply digits2_unique. rewrite Hp.
  pose proof (digits2_bounds m) as [Hl Hu].
  assert (0 < Zpos (digits2_pos m)) by lia.
  replace (Zpos (digits2_pos m) + j - 1) with (Zpos (digits2_pos m) - 1 + j) by lia.
  rewrite !Z.pow_add_r by lia.
  assert (0 < 2 ^ j) by (apply Z.pow_pos_nonneg; lia).
  split; [apply Z.mul_le_mono_nonneg_r | apply Z.mul_lt_mono_pos_r]; lia.
Qed.

(** *** Right shifts *)

Lemma shr_1_inv (M k : Z) (mrs : shr_record) :
  0 <= k -> shr_inv M k mrs -> shr_inv M (k + 1) (shr_1 mrs).
Proof.
  intros Hk (Hm & t & HM & Ht & Hloc). destruct mrs as [m r s].
  assert (Hp : 2 ^ (k + 1) = 2 * 2 ^ k) by (rewrite Z.pow_add_r; lia).
  assert (0 < 2 ^ k) by (apply Z.pow_pos_nonneg; lia).
  unfold shr_inv, loc_inv in *. rewrite Hp.
  cbn [shr_m shr_r shr_s] in *.
  destruct m as [|[p|p|]|p]; cbn [shr_1 shr_m shr_r shr_s]; try lia.
  - split; [lia|]. exists t. destruct r, s; cbn [orb] in *; lia.
  - split; [lia|]. exists (2 ^ k + t). destruct r, s; cbn [orb] in *; lia.
  - split; [lia|]. exists t. destruct r, s; cbn [orb] in *; lia.
  - split; [lia|]. exists (2 ^ k + t). destruct r, s; cbn [orb] in *; lia.
Qed.

Lemma iter_shr_1_inv (M : Z) (p : positive) :
  forall k mrs, 0 <= k -> shr_inv M k mrs ->
                shr_inv M (k + Zpos p) (SpecFloat.iter_pos shr_1 p mrs).
Proof.
  induction p as [p IH|p IH|]; intros k mrs Hk H; simpl.
  - replace (k + Zpos p~1) with (k + 1 + Zpos p + Zpos p) by lia.
    apply IH; [lia|]. apply IH; [lia|]. now apply shr_1_inv.
  - replace (k + Zpos p~0) with (k + Zpos p + Zpos p) by lia.
    apply IH; [lia|]. now apply IH.
  - now apply shr_1_inv.
Qed.

Lemma shr_inv_start (M : Z) : 0 <= M -> shr_inv M 0 (Build_shr_record M false false).
Proof. intros H. split; [exact H|]. exists 0. simpl. lia. Qed.

(** *** Rounding a positive mantissa *)

Lemma fexp_normal (x : Z) : -1074 <= x - 53 -> fexp 53 1024 x = x - 53.
Proof. unfold fexp, emin. lia. Qed.

(** A mantissa of 53 bits, or [2 ^ 53], at an exponent of the normal
    range is left as it is, or halved. *)
Lemma shr_fexp_fit (m : positive) (e : Z) :
  2 ^ 52 <= Zpos m <= 2 ^ 53 -> -1074 <= e ->
  exists m' e',
    shr_fexp 53 1024 (Zpos m) e loc_Exact
      = (Build_shr_record (Zpos m') false false, e') /\
    Zpos m' * 2 ^ (e' - e) = Zpos m /\ e <= e' <= e + 1 /\
    (Zpos m < 2 ^ 53 -> e' = e) /\
    2 ^ 52 <= Zpos m' < 2 ^ 53.
Proof.
  intros Hm He. unfold shr_fexp. cbn [Zdigits2 shr_record_of_loc].
  destruct (Z.eq_dec (Zpos m) (2 ^ 53)) as [E53|Hne].
  - assert (m = 9007199254740992%positive) as -> by (apply Pos2Z.inj; exact E53).
    exists 4503599627370496%positive, (e + 1).
    assert (Hd : Zpos (digits2_pos 9007199254740992) = 54) by reflexivity.
    rewrite Hd, fexp_normal by lia.
    replace (54 + e - 53 - e) with 1 by lia.
    cbn [shr SpecFloat.iter_pos shr_1 orb].
    replace (e + 1 - e) with 1 by lia. repeat split; try lia; reflexivity.
  - assert (Hd : Zpos (digits2_pos m) = 53) by (apply digits2_unique; lia).
    exists m, e. rewrite Hd, fexp_normal by lia.
    replace (53 + e - 53 - e) with 0 by lia. cbn [shr].
    rewrite Z.sub_diag. repeat split; lia.
Qed.

Lemma round_aux_spec (s : bool) (M : positive) (E : Z) :
  let d := Zpos (digits2_pos M) in
  let k := Z.max 0 (d - 53) in
  -1074 <= d + E - 53 -> d + E <= 1023 -> E <= 971 ->
  exists m' e',
    binary_round_aux 53 1024 s (Zpos M) E loc_Exact = S754_finite s m' e' /\
    E + k <= e' <= E + k + 1 /\
    (Zpos M mod 2 ^ k = 0 -> Zpos m' * 2 ^ (e' - E) = Zpos M /\ e' = E + k) /\
    2 * Z.abs (Zpos m' * 2 ^ (e' - E) - Zpos M) <= 2 ^ k.
Proof.
  intros d k Hlo Hhi HE. unfold binary_round_aux.
  assert (Hd1 : 1 <= d) by (unfold d; lia).
  unfold shr_fexp at 1. cbn [Zdigits2 shr_record_of_loc]. fold d.
  rewrite fexp_normal by lia.
  replace (d + E - 53 - E) with (d - 53) by lia.
  assert (Hsmall : d - 53 <= 0 ->
    exists m' e',
      (let '(mrs'', e'') :=
         shr_fexp 53 1024
           (round_nearest_even (Zpos M)
              (loc_of_shr_record (Build_shr_record (Zpos M) false false)))
           E loc_Exact in
       match shr_m mrs'' with
       | 0 => S754_zero s
       | Zpos m => if e'' <=? 1024 - 53 then S754_finite s m e''
                   else S754_infinity s
       | Zneg _ => S754_nan
       end) = S754_finite s m' e' /\
      E + k <= e' <= E + k + 1 /\
      (Zpos M mod 2 ^ k = 0 -> Zpos m' * 2 ^ (e' - E) = Zpos M /\ e' = E + k) /\
      2 * Z.abs (Zpos m' * 2 ^ (e' - E) - Zpos M) <= 2 ^ k).
  { intros Hle. cbn [shr_m loc_of_shr_record round_nearest_even].
    unfold shr_fexp. cbn [Zdigits2 shr_record_of_loc]. fold d.
    rewrite fexp_normal by lia.
    destruct (d + E - 53 - E) as [|p|p] eqn:Ez; try lia; cbn [shr shr_m];
      (destruct (Z.leb_spec E (1024 - 53)); [|lia]);
      exists M, E; replace k with 0 by (unfold k; lia);
      rewrite Z.sub_diag, Z.pow_0_r, Z.mul_1_r; repeat split; lia. }
  destruct (d - 53) as [|p|p] eqn:En; cbn [shr].
  - apply Hsmall. lia.
  - (* more than 53 bits *)
    pose proof (iter_shr_1_inv (Zpos M) p 0 _ (Z.le_refl 0)
                  (shr_inv_start (Zpos M) ltac:(lia))) as Hinv.
    rewrite Z.add_0_l in Hinv.
    destruct (SpecFloat.iter_pos shr_1 p _) as [q r st].
    destruct Hinv as (Hq & t & HM & Ht & Hloc). cbn [shr_m shr_r shr_s] in *.
    assert (Hk : k = Zpos p) by (unfold k; lia). rewrite Hk.
    pose proof (digits2_bounds M) as HMb. fold d in HMb.
    assert (HX : 0 < 2 ^ Zpos p) by (apply Z.pow_pos_nonneg; lia).
    assert (Hl : 2 ^ (d - 1) = 4503599627370496 * 2 ^ Zpos p).
    { replace (d - 1) with (52 + Zpos p) by lia. now rewrite Z.pow_add_r by lia. }
    assert (Hu : 2 ^ d = 9007199254740992 * 2 ^ Zpos p).
    { replace d with (53 + Zpos p) by lia. now rewrite Z.pow_add_r by lia. }
    rewrite Hl, Hu in HMb. clear Hl Hu.
    set (X := 2 ^ Zpos p) in *.
    assert (Hq52 : 4503599627370496 <= q).
    { destruct (Z.lt_ge_cases q 4503599627370496) as [Hlt|]; [|assumption].
      assert (q * X <= 4503599627370495 * X)
        by (apply Z.mul_le_mono_nonneg_r; lia). lia. }
    assert (Hq53 : q < 9007199254740992).
    { destruct (Z.lt_ge_cases q 9007199254740992) as [|Hge]; [assumption|].
      assert (9007199254740992 * X <= q * X)
        by (apply Z.mul_le_mono_nonneg_r; lia). lia. }
    set (m0 := round_nearest_even q (loc_of_shr_record (Build_shr_record q r st))).
    assert (Hm0 : (m0 = q /\ 2 * t <= X /\ (t = 0 \/ 0 < t)) \/
                  (m0 = q + 1 /\ X <= 2 * t)).
    { unfold m0, loc_inv in *. destruct r, st; cbn [loc_of_shr_record round_nearest_even].
      - right. lia.
      - destruct (Z.even q); [left | right]; lia.
      - left. lia.
      - left. lia. }
    assert (Hm0r : 2 ^ 52 <= m0 <= 2 ^ 53).
    { change (2 ^ 52) with 4503599627370496.
      change (2 ^ 53) with 9007199254740992. lia. }
    clearbody m0. destruct m0 as [|mp|mp]; try lia.
    destruct (shr_fexp_fit mp (E + Zpos p) Hm0r ltac:(lia))
      as (m' & e' & -> & Hv & He' & Hnc & Hm').
    cbn [shr_m]. destruct (Z.leb_spec e' (1024 - 53)); [|lia].
    exists m', e'. split; [reflexivity|]. split; [lia|].
    assert (HV : Zpos m' * 2 ^ (e' - E) = Zpos mp * X).
    { replace (e' - E) with (e' - (E + Zpos p) + Zpos p) by lia.
      rewrite Z.pow_add_r, Z.mul_assoc, Hv by lia. reflexivity. }
    rewrite HV. split.
    + intros Hmod. assert (t = 0).
      { rewrite HM in Hmod. rewrite Z.add_comm, Z.mod_add in Hmod by lia.
        rewrite Z.mod_small in Hmod by lia. exact Hmod. }
      destruct Hm0 as [(Hmq & _)|(_ & ?)]; [|lia].
      split; [lia|]. rewrite Hnc; [reflexivity|].
      change (2 ^ 53) with 9007199254740992. lia.
    + rewrite HM. destruct Hm0 as [(-> & ? & _)|(-> & ?)]; lia.
  - apply Hsmall. lia.
Qed.

(** *** Exact results *)

Lemma round_aux_dyadic (s : bool) (M N : positive) (E j : Z) :
  Zpos M = Zpos N * 2 ^ j -> 0 <= j ->
  Zpos (digits2_pos N) <= 53 ->
  -1074 <= Zpos (digits2_pos N) + j + E - 53 ->
  Zpos (digits2_pos N) + j + E <= 1023 -> E <= 971 ->
  dyadic (binary_round_aux prec emax s (Zpos M) E loc_Exact) s N (E + j).
Proof.
  intros HM Hj HN Hlo Hhi HE.
  pose proof (digits2_shift N j M Hj HM) as Hd.
  destruct (round_aux_spec s M E) as (m' & e' & Hr & He' & Hex & _); try lia.
  set (k := Z.max 0 (Zpos (digits2_pos M) - 53)) in *.
  assert (Hkj : 0 <= k <= j) by (unfold k; lia).
  assert (Hdiv : Zpos M = Zpos N * 2 ^ (j - k) * 2 ^ k).
  { rewrite HM, <- Z.mul_assoc, <- Z.pow_add_r by lia. do 2 f_equal. lia. }
  destruct Hex as [Hv ->].
  { rewrite Hdiv. apply Z.mod_mul. apply Z.pow_nonzero; lia. }
  exists m', (E + k). split; [exact Hr|]. split; [lia|].
  replace (E + j - (E + k)) with (j - k) by lia.
  replace (E + k - E) with k in Hv by lia.
  rewrite Hdiv in Hv. apply Z.mul_reg_r in Hv; [exact Hv|].
  apply Z.pow_nonzero; lia.
Qed.

Lemma iter_xO (m d : positive) : Zpos (Pos.iter xO m d) = Zpos m * 2 ^ Zpos d.
Proof.
  induction d as [|d IH] using Pos.peano_ind.
  - simpl. lia.
  - rewrite Pos.iter_succ, Pos2Z.inj_xO, IH, Pos2Z.inj_succ, Z.pow_succ_r by lia.
    lia.
Qed.

Lemma binary_round_dyadic (s : bool) (mx N : positive) (ex j : Z) :
  Zpos mx = Zpos N * 2 ^ j -> 0 <= j ->
  Zpos (digits2_pos N) <= 53 ->
  -1074 <= Zpos (digits2_pos N) + j + ex - 53 ->
  Zpos (digits2_pos N) + j + ex <= 1023 ->
  dyadic (binary_round prec emax s mx ex) s N (ex + j).
Proof.
  intros HM Hj HN Hlo Hhi.
  pose proof (digits2_shift N j mx Hj HM) as Hd.
  unfold binary_round, shl_align. rewrite fexp_normal by lia.
  destruct (Zpos (digits2_pos mx) + ex - 53 - ex) as [|d|d] eqn:Ed.
  - apply round_aux_dyadic; try assumption. lia.
  - apply round_aux_dyadic; try assumption. lia.
  - replace (ex + j) with
      ((Zpos (digits2_pos mx) + ex - 53) + (j + Zpos d)) by lia.
    apply round_aux_dyadic; try lia.
    rewrite iter_xO, HM, <- Z.mul_assoc, <- Z.pow_add_r by lia. reflexivity.
Qed.

Lemma to_int_dyadic (f : float) (s : bool) (N : positive) (t : Z) :
  dyadic f s N t -> to_int f = Ok (cond_Zopp s (Z.shiftl (Zpos N) t)).
Proof.
  intros (m & e & -> & He & Hm). simpl. do 2 f_equal.
  rewrite Hm, <- Z.shiftl_mul_pow2, Z.shiftl_shiftl by lia. f_equal. lia.
Qed.

Lemma mul_dyadic (x y : float) (s1 s2 : bool) (N1 N2 : positive) (t1 t2 : Z) :
  dyadic x s1 N1 t1 -> dyadic y s2 N2 t2 ->
  Zpos (digits2_pos (N1 * N2)) <= 53 ->
  -1074 <= Zpos (digits2_pos (N1 * N2)) + t1 + t2 - 53 ->
  Zpos (digits2_pos (N1 * N2)) + t1 + t2 <= 1023 -> t1 + t2 <= 971 ->
  dyadic (mul x y) (xorb s1 s2) (N1 * N2) (t1 + t2).
Proof.
  intros (m1 & e1 & -> & He1 & Hm1) (m2 & e2 & -> & He2 & Hm2) HN Hlo Hhi Ht.
  unfold mul. cbn [SFmul].
  replace (t1 + t2) with (e1 + e2 + (t1 - e1 + (t2 - e2))) by lia.
  apply round_aux_dyadic; try lia.
  rewrite !Pos2Z.inj_mul, Hm1, Hm2, Z.pow_add_r by lia. ring.
Qed.

Lemma of_int_dyadic (b : Z) (N : positive) :
  Z.abs b = Zpos N -> Zpos N < 2 ^ 53 ->
  exists f, of_int b = Ok f /\ dyadic f (b <? 0) N 0.
Proof.
  intros Hb HN.
  assert (HdN : Zpos (digits2_pos N) <= 53).
  { pose proof (digits2_bounds N) as [Hl _].
    destruct (Z.le_gt_cases (Zpos (digits2_pos N)) 53); [assumption|].
    assert (2 ^ 53 <= 2 ^ (Zpos (digits2_pos N) - 1))
      by (apply Z.pow_le_mono_r; lia). lia. }
  assert (Hd : forall s, dyadic (binary_round prec emax s N 0) s N 0).
  { intros s. replace 0 with (0 + 0) at 2 by lia.
    apply binary_round_dyadic; try lia. }
  unfold of_int, binary_normalize.
  destruct b as [|p|p]; simpl in Hb; [discriminate| |]; injection Hb as ->;
    destruct (Hd false) as (m & e & Ef & H1), (Hd true) as (m' & e' & Ef' & H1');
    [rewrite Ef | rewrite Ef']; eexists; (split; [reflexivity|]);
    [exists m, e | exists m', e']; auto.
Qed.

Lemma digits2_le_53 (N : positive) : Zpos N < 2 ^ 53 -> Zpos (digits2_pos N) <= 53.
Proof.
  intros HN. pose proof (digits2_bounds N) as [Hl _].
  destruct (Z.le_gt_cases (Zpos (digits2_pos N)) 53); [assumption|].
  assert (2 ^ 53 <= 2 ^ (Zpos (digits2_pos N) - 1))
    by (apply Z.pow_le_mono_r; lia). lia.
Qed.

(** The quotient of an integer of less than 53 bits by 1024 is exact. *)
Lemma div_round_scale_dyadic (s : bool) (N : positive) :
  Zpos N < 2 ^ 53 -> dyadic (div_round s (Zpos N) 1024) s N (-10).
Proof.
  intros HN. pose proof (digits2_le_53 N HN) as HdN.
  pose proof (digits2_log2 N) as Hlog.
  unfold div_round. change (Zpos N =? 0) with false. cbv iota.
  change (Z.log2 1024) with 10.
  set (k := Z.max 0 (prec + 3 + 10 - Z.log2 (Zpos N))).
  assert (Hk : 14 <= k) by (unfold k, prec; lia).
  assert (Hq : Zpos N * 2 ^ k = Zpos N * 2 ^ (k - 10) * 1024).
  { rewrite <- Z.mul_assoc. f_equal. change 1024 with (2 ^ 10).
    rewrite <- Z.pow_add_r by lia. f_equal. lia. }
  destruct (Z.div_eucl (Zpos N * 2 ^ k) 1024) as [q r] eqn:Ediv.
  assert (q = Zpos N * 2 ^ (k - 10)) as ->.
  { change q with (fst (q, r)). rewrite <- Ediv. fold (Z.div (Zpos N * 2 ^ k) 1024).
    rewrite Hq. apply Z.div_mul. lia. }
  assert (r = 0) as ->.
  { change r with (snd (Zpos N * 2 ^ (k - 10), r)). rewrite <- Ediv.
    fold (Z.modulo (Zpos N * 2 ^ k) 1024). rewrite Hq. apply Z.mod_mul. lia. }
  change (0 =? 0) with true. cbv iota. rewrite Z.add_0_r.
  assert (Hm : 2 * (Zpos N * 2 ^ (k - 10)) = Zpos N * 2 ^ (k - 9)).
  { replace (k - 9) with (k - 10 + 1) by lia. rewrite Z.pow_add_r by lia. lia. }
  rewrite Hm.
  assert (Hpos : 0 < Zpos N * 2 ^ (k - 9))
    by (apply Z.mul_pos_pos; [lia | apply Z.pow_pos_nonneg; lia]).
  destruct (Zpos N * 2 ^ (k - 9)) as [|mp|mp] eqn:Emp; try lia.
  assert (Hd : forall s', dyadic (binary_round prec emax s' mp (- k - 1)) s' N (-10)).
  { intros s'. replace (-10) with (- k - 1 + (k - 9)) by lia.
    apply binary_round_dyadic; unfold k, prec in *; try lia. }
  destruct s; cbn [Z.opp binary_normalize]; apply Hd.
Qed.

Lemma truediv_scale_dyadic (W : Z) (N : positive) :
  Z.abs W = Zpos N -> Zpos N < 2 ^ 53 ->
  exists f, int_truediv W BBOX_SCALE = Ok f /\ dyadic f (W <? 0) N (-10).
Proof.
  intros HW HN. unfold int_truediv.
  change (BBOX_SCALE =? 0) with false. change (BBOX_SCALE <? 0) with false.
  change (Z.abs BBOX_SCALE) with 1024. cbv iota. rewrite xorb_false_r, HW.
  destruct (div_round_scale_dyadic (W <? 0) N HN) as (m & e & Ef & H1).
  rewrite Ef. eexists. split; [reflexivity|]. exists m, e. auto.
Qed.

(** Truncation towards zero of a quotient by [2 ^ 10], by sign and
    magnitude. *)
Lemma quot_scale (b W : Z) (N1 N2 : positive) :
  Z.abs b = Zpos N1 -> Z.abs W = Zpos N2 ->
  cond_Zopp (xorb (b <? 0) (W <? 0)) (Z.shiftl (Zpos (N1 * N2)) (-10))
  = Z.quot (b * W) 1024.
Proof.
  intros Hb HW.
  change (Z.shiftl (Zpos (N1 * N2)) (-10)) with (Z.shiftr (Zpos (N1 * N2)) 10).
  rewrite Z.shiftr_div_pow2 by lia. change (2 ^ 10) with 1024.
  destruct b as [|p|p], W as [|q|q]; simpl in Hb, HW; try discriminate;
    injection Hb as ->; injection HW as ->; cbn [Z.ltb Z.compare xorb cond_Zopp].
  - change (Zpos N1 * Zpos N2) with (Zpos (N1 * N2)).
    now rewrite Z.quot_div_nonneg by lia.
  - change (Zpos N1 * Zneg N2) with (- Zpos (N1 * N2)).
    rewrite Z.quot_opp_l, Z.quot_div_nonneg by lia. reflexivity.
  - change (Zneg N1 * Zpos N2) with (- Zpos (N1 * N2)).
    rewrite Z.quot_opp_l, Z.quot_div_nonneg by lia. reflexivity.
  - change (Zneg N1 * Zneg N2) with (Zpos (N1 * N2)).
    now rewrite Z.quot_div_nonneg by lia.
Qed.

(** [int(b * (W / 1024))] is the exact quotient truncated towards zero
    as long as [b], [W] and [b * W] have less than 53 bits. *)
Lemma scaled_exact (b W : Z) :
  Z.abs b < 2 ^ 53 -> Z.abs W < 2 ^ 53 -> Z.abs (b * W) < 2 ^ 53 ->
  exists ws, int_truediv W BBOX_SCALE = Ok ws /\
             scaled b ws = Ok (Z.quot (b * W) 1024).
Proof.
  intros Hb HW HbW.
  destruct (Z.eq_dec W 0) as [->|HW0].
  { exists (S754_zero false). split; [reflexivity|].
    rewrite Z.mul_0_r. unfold scaled, int_mul.
    destruct (Z.eq_dec b 0) as [->|Hb0]; [reflexivity|].
    destruct (Z.abs b) as [|N|N] eqn:EN; try lia.
    destruct (of_int_dyadic b N EN Hb) as (f & -> & m & e & -> & _).
    reflexivity. }
  destruct (Z.abs W) as [|N2|N2] eqn:EW; try lia.
  destruct (truediv_scale_dyadic W N2 EW HW) as (ws & Hws & Hdw).
  exists ws. split; [exact Hws|]. unfold scaled, int_mul.
  destruct (Z.eq_dec b 0) as [->|Hb0].
  { destruct Hdw as (m & e & -> & _). reflexivity. }
  destruct (Z.abs b) as [|N1|N1] eqn:Eb; try lia.
  destruct (of_int_dyadic b N1 Eb Hb) as (x & -> & Hdx).
  cbn [mbind result_bind].
  assert (HN : Zpos (N1 * N2) < 2 ^ 53).
  { rewrite Pos2Z.inj_mul, <- Eb, <- EW, <- Z.abs_mul. exact HbW. }
  pose proof (digits2_le_53 _ HN) as HdN.
  assert (Hd : dyadic (mul x ws) (xorb (b <? 0) (W <? 0)) (N1 * N2) (0 + -10)).
  { apply mul_dyadic; try assumption; lia. }
  rewrite (to_int_dyadic _ _ _ _ Hd). f_equal. now apply quot_scale.
Qed.

(** *** Values and rounding errors *)

Lemma bpow_pos (e : Z) : (0 < bpow e)%Q.
Proof. apply Qpower_0_lt. reflexivity. Qed.

Lemma bpow_add (a b : Z) : (bpow (a + b) == bpow a * bpow b)%Q.
Proof. apply Qpower_plus. discriminate. Qed.

Lemma bpow_Z (n : Z) : 0 <= n -> (inject_Z (2 ^ n) == bpow n)%Q.
Proof. intros H. now apply Zpower_Qpower. Qed.

Lemma bpow_le (a b : Z) : a <= b -> (bpow a <= bpow b)%Q.
Proof. intros H. apply Qpower_le_compat_l; [exact H | discriminate]. Qed.

Lemma bpow_lt (a b : Z) : a < b -> (bpow a < bpow b)%Q.
Proof. intros H. apply Qpower_lt_compat_l; [exact H | reflexivity]. Qed.

Lemma mag_pos (m : positive) (e : Z) : (0 < mag m e)%Q.
Proof.
  unfold mag. apply Qmult_lt_0_compat; [|apply bpow_pos].
  now change (inject_Z 0 < inject_Z (Zpos m))%Q; rewrite <- Zlt_Qlt.
Qed.

(** A magnitude at a coarser exponent. *)
Lemma mag_coarser (m : positive) (e e' : Z) :
  e <= e' -> (mag m e' == inject_Z (Zpos m * 2 ^ (e' - e)) * bpow e)%Q.
Proof.
  intros H. unfold mag. rewrite inject_Z_mult, bpow_Z by lia.
  rewrite <- Qmult_assoc, <- bpow_add. now replace (e' - e + e) with e' by lia.
Qed.

(** The digits of a mantissa against the magnitude. *)
Lemma mag_digits (m : positive) (e : Z) :
  (bpow (Zpos (digits2_pos m) + e - 1) <= mag m e < bpow (Zpos (digits2_pos m) + e))%Q.
Proof.
  pose proof (digits2_bounds m) as [Hl Hu].
  assert (Hd : 0 < Zpos (digits2_pos m)) by lia.
  unfold mag. split.
  - replace (Zpos (digits2_pos m) + e - 1) with (Zpos (digits2_pos m) - 1 + e) by lia.
    rewrite bpow_add, <- (bpow_Z (Zpos (digits2_pos m) - 1)) by lia.
    apply Qmult_le_compat_r; [|apply Qlt_le_weak, bpow_pos].
    now rewrite <- Zle_Qle.
  - rewrite bpow_add, <- (bpow_Z (Zpos (digits2_pos m))) by lia.
    apply Qmult_lt_compat_r; [apply bpow_pos|].
    now rewrite <- Zlt_Qlt.
Qed.

Lemma digits_from_mag (m : positive) (e a b : Z) :
  (bpow a <= mag m e)%Q -> (mag m e < bpow b)%Q ->
  a < Zpos (digits2_pos m) + e <= b.
Proof.
  intros Ha Hb. pose proof (mag_digits m e) as [Hl Hu]. split.
  - destruct (Z.lt_ge_cases a (Zpos (digits2_pos m) + e)); [assumption|].
    pose proof (bpow_le _ _ H). exfalso.
    apply (Qlt_irrefl (mag m e)). eapply Qlt_le_trans; [exact Hu|].
    eapply Qle_trans; eassumption.
  - destruct (Z.le_gt_cases (Zpos (digits2_pos m) + e) b); [assumption|].
    assert (b <= Zpos (digits2_pos m) + e - 1) by lia.
    pose proof (bpow_le _ _ H0). exfalso.
    apply (Qlt_irrefl (mag m e)). eapply Qlt_le_trans; [exact Hb|].
    eapply Qle_trans; eassumption.
Qed.

Lemma roundoff_value : (roundoff == 1 # 9007199254740992)%Q.
Proof. reflexivity. Qed.

(** Rounding to nearest moves a mantissa of the normal range by at most
    one part in [2 ^ 53]. *)
Lemma round_aux_rel (s : bool) (M : positive) (E : Z) :
  -1074 <= Zpos (digits2_pos M) + E - 53 ->
  Zpos (digits2_pos M) + E <= 1023 -> E <= 971 ->
  exists m' e',
    binary_round_aux prec emax s (Zpos M) E loc_Exact = S754_finite s m' e' /\
    E <= e' /\
    Zpos M * (2 ^ 53 - 1) <= Zpos m' * 2 ^ (e' - E) * 2 ^ 53
      <= Zpos M * (2 ^ 53 + 1).
Proof.
  intros Hlo Hhi HE.
  destruct (round_aux_spec s M E Hlo Hhi HE) as (m' & e' & Hr & He' & _ & Habs).
  exists m', e'. split; [exact Hr|].
  set (k := Z.max 0 (Zpos (digits2_pos M) - 53)) in *.
  set (V := Zpos m' * 2 ^ (e' - E)) in *.
  split; [lia|].
  change (2 ^ 53) with 9007199254740992.
  destruct (Z.le_gt_cases (Zpos (digits2_pos M)) 53) as [Hd|Hd].
  - replace k with 0 in Habs by (unfold k; lia).
    rewrite Z.pow_0_r in Habs. lia.
  - pose proof (digits2_bounds M) as [Hl _].
    replace (Zpos (digits2_pos M) - 1) with (k + 52) in Hl by (unfold k; lia).
    rewrite Z.pow_add_r in Hl by (unfold k; lia).
    change (2 ^ 52) with 4503599627370496 in Hl.
    assert (0 < 2 ^ k) by (apply Z.pow_pos_nonneg; unfold k; lia).
    lia.
Qed.

Lemma round_aux_value (s : bool) (M : positive) (E : Z) :
  -1074 <= Zpos (digits2_pos M) + E - 53 ->
  Zpos (digits2_pos M) + E <= 1023 -> E <= 971 ->
  exists m' e',
    binary_round_aux prec emax s (Zpos M) E loc_Exact = S754_finite s m' e' /\
    (mag M E * (1 - roundoff) <= mag m' e' <= mag M E * (1 + roundoff))%Q.
Proof.
  intros Hlo Hhi HE.
  destruct (round_aux_rel s M E Hlo Hhi HE) as (m' & e' & Hr & He' & Hl & Hu).
  exists m', e'. split; [exact Hr|].
  rewrite (mag_coarser m' E e' He'). unfold mag.
  set (V := Zpos m' * 2 ^ (e' - E)) in *.
  change (2 ^ 53) with 9007199254740992 in *.
  rewrite Zle_Qle in Hl, Hu.
  rewrite !inject_Z_mult in Hl, Hu.
  change (inject_Z (9007199254740992 - 1)) with (9007199254740991 # 1)%Q in Hl.
  change (inject_Z (9007199254740992 + 1)) with (9007199254740993 # 1)%Q in Hu.
  change (inject_Z 9007199254740992) with (9007199254740992 # 1)%Q in Hl, Hu.
  pose proof (bpow_pos E) as HE0. rewrite roundoff_value.
  set (b := bpow E) in *. set (v := inject_Z V) in *.
  set (m := inject_Z (Zpos M)) in *.
  split.
  - apply Qle_trans with ((m * (1 - (1 # 9007199254740992))) * b)%Q; [lra|].
    apply Qmult_le_compat_r; lra.
  - apply Qle_trans with ((m * (1 + (1 # 9007199254740992))) * b)%Q; [|lra].
    apply Qmult_le_compat_r; lra.
Qed.

Lemma mag_mul (m1 m2 : positive) (e1 e2 : Z) :
  (mag (m1 * m2) (e1 + e2) == mag m1 e1 * mag m2 e2)%Q.
Proof. unfold mag. rewrite Pos2Z.inj_mul, inject_Z_mult, bpow_add. ring. Qed.

Lemma binary_round_value (s : bool) (mx : positive) (ex : Z) :
  -1074 <= Zpos (digits2_pos mx) + ex - 53 ->
  Zpos (digits2_pos mx) + ex <= 1023 ->
  exists m' e',
    binary_round prec emax s mx ex = S754_finite s m' e' /\
    (mag mx ex * (1 - roundoff) <= mag m' e' <= mag mx ex * (1 + roundoff))%Q.
Proof.
  intros Hlo Hhi. unfold binary_round, shl_align. rewrite fexp_normal by lia.
  destruct (Zpos (digits2_pos mx) + ex - 53 - ex) as [|d|d] eqn:Ed.
  - apply round_aux_value; lia.
  - apply round_aux_value; lia.
  - assert (Hz : Zpos (Pos.iter xO mx d) = Zpos mx * 2 ^ Zpos d) by apply iter_xO.
    pose proof (digits2_shift mx (Zpos d) _ (Pos2Z.is_nonneg d) Hz) as Hd.
    destruct (round_aux_value s (Pos.iter xO mx d)
                (Zpos (digits2_pos mx) + ex - 53)) as (m' & e' & Hr & Hv); try lia.
    exists m', e'. split; [exact Hr|].
    assert (Hm : (mag (Pos.iter xO mx d) (Zpos (digits2_pos mx) + ex - 53)
                  == mag mx ex)%Q).
    { rewrite (mag_coarser mx (Zpos (digits2_pos mx) + ex - 53) ex) by lia.
      unfold mag. rewrite Hz.
      replace (ex - (Zpos (digits2_pos mx) + ex - 53)) with (Zpos d) by lia.
      reflexivity. }
    rewrite Hm in Hv. exact Hv.
Qed.

(** The product of two positive floats. *)
Lemma mul_value (m1 m2 : positive) (e1 e2 : Z) :
  (bpow (-1021) <= mag m1 e1 * mag m2 e2)%Q ->
  (mag m1 e1 * mag m2 e2 < bpow 1023)%Q -> e1 + e2 <= 971 ->
  exists m e,
    mul (S754_finite false m1 e1) (S754_finite false m2 e2)
      = S754_finite false m e /\
    (mag m1 e1 * mag m2 e2 * (1 - roundoff) <= mag m e
       <= mag m1 e1 * mag m2 e2 * (1 + roundoff))%Q.
Proof.
  intros Hlo Hhi HE. rewrite <- mag_mul in Hlo, Hhi.
  pose proof (digits_from_mag _ _ _ _ Hlo Hhi) as Hd.
  destruct (round_aux_value false (m1 * m2) (e1 + e2)) as (m & e & Hr & Hv);
    try lia.
  exists m, e. split; [exact Hr|]. now rewrite <- mag_mul.
Qed.

(** [int] of a positive float is below its value. *)
Lemma to_int_floor (m : positive) (e : Z) :
  exists z, to_int (S754_finite false m e) = Ok z /\ 0 <= z /\
            (inject_Z z <= mag m e)%Q.
Proof.
  exists (Z.shiftl (Zpos m) e). split; [reflexivity|].
  destruct (Z.le_gt_cases 0 e) as [He|He].
  - rewrite Z.shiftl_mul_pow2 by lia.
    assert (0 < 2 ^ e) by (apply Z.pow_pos_nonneg; lia).
    split; [lia|]. unfold mag. rewrite inject_Z_mult, bpow_Z by lia. lra.
  - replace e with (- (- e)) at 1 2 by lia.
    rewrite Z.shiftl_opp_r, Z.shiftr_div_pow2 by lia.
    assert (Hp : 0 < 2 ^ (- e)) by (apply Z.pow_pos_nonneg; lia).
    split; [apply Z.div_pos; lia|].
    pose proof (Z.mul_div_le (Zpos m) (2 ^ (- e)) Hp) as Hle.
    rewrite Zle_Qle, inject_Z_mult, bpow_Z in Hle by lia.
    unfold mag. pose proof (bpow_pos e) as Hb.
    assert (Hinv : (bpow (- e) * bpow e == 1)%Q).
    { rewrite <- bpow_add. now replace (- e + e) with 0 by lia. }
    set (q := inject_Z (Zpos m / 2 ^ (- e))) in *.
    set (x := inject_Z (Zpos m)) in *.
    apply Qle_trans with ((bpow (- e) * q) * bpow e)%Q.
    + rewrite (Qmult_comm (bpow (- e))), <- Qmult_assoc, Hinv. lra.
    + apply Qmult_le_compat_r; lra.
Qed.

(** The conversion of a positive integer of less than 53 bits is exact. *)
Lemma of_int_value (W : Z) :
  0 < W < 2 ^ 53 ->
  exists m e, of_int W = Ok (S754_finite false m e) /\ e <= 0 /\
              (mag m e == inject_Z W)%Q.
Proof.
  intros [H0 H53]. destruct W as [|N|N]; try lia.
  destruct (of_int_dyadic (Zpos N) N eq_refl H53) as (f & Hf & m & e & -> & He & Hm).
  exists m, e. split; [exact Hf|]. split; [exact He|].
  unfold mag. rewrite Hm, Z.sub_0_l, inject_Z_mult, bpow_Z by lia.
  rewrite <- Qmult_assoc, <- bpow_add. replace (- e + e) with 0 by lia.
  change (bpow 0) with 1%Q. ring.
Qed.

(** The quotient with its sticky bit, before the final rounding, is
    within one part in [2 ^ 56] of the exact quotient. *)
Lemma sticky_quotient (a b : Z) :
  0 < a -> 0 < b ->
  let k := Z.max 0 (prec + 3 + Z.log2 b - Z.log2 a) in
  let '(q, r) := Z.div_eucl (a * 2 ^ k) b in
  let M := 2 * q + (if r =? 0 then 0 else 1) in
  2 ^ 56 <= M /\
  a * 2 ^ k * (2 ^ 56 - 1) <= M * b * 2 ^ 55 <= a * 2 ^ k * (2 ^ 56 + 1).
Proof.
  intros Ha Hb k.
  pose proof (Z.div_eucl_eq (a * 2 ^ k) b ltac:(lia)) as Heq.
  pose proof (Z.mod_pos_bound (a * 2 ^ k) b Hb) as Hr.
  unfold Z.modulo in Hr.
  destruct (Z.div_eucl (a * 2 ^ k) b) as [q r]. cbv zeta.
  pose proof (Z.log2_spec a Ha) as [Hal _].
  pose proof (Z.log2_spec b Hb) as [_ Hbu].
  pose proof (Z.log2_nonneg a) as Hla. pose proof (Z.log2_nonneg b) as Hlb.
  assert (Hk : 0 <= k) by (unfold k; lia).
  assert (Hbig : b * 2 ^ 55 <= a * 2 ^ k).
  { apply Z.le_trans with (2 ^ Z.succ (Z.log2 b) * 2 ^ 55).
    { apply Z.mul_le_mono_nonneg_r; lia. }
    rewrite <- Z.pow_add_r by lia.
    apply Z.le_trans with (2 ^ (Z.log2 a + k)).
    { apply Z.pow_le_mono_r; unfold k, prec; lia. }
    rewrite Z.pow_add_r by lia.
    apply Z.mul_le_mono_nonneg_r; [apply Z.pow_nonneg|]; lia. }
  change (2 ^ 55) with 36028797018963968 in *.
  change (2 ^ 56) with 72057594037927936.
  set (X := a * 2 ^ k) in *.
  assert (Hq : 36028797018963968 <= q).
  { destruct (Z.lt_ge_cases q 36028797018963968); [|assumption].
    assert (b * q <= b * 36028797018963967)
      by (apply Z.mul_le_mono_nonneg_l; lia). lia. }
  destruct (Z.eqb_spec r 0) as [->|Hr0].
  - split; [lia|]. rewrite Z.add_0_r in *.
    replace (2 * q * b) with (2 * (b * q)) by ring. lia.
  - split; [lia|].
    replace ((2 * q + 1) * b) with (2 * (b * q) + b) by ring. lia.
Qed.

(** The correctly rounded quotient of two positive integers of less
    than 64 bits. *)
Lemma div_round_value (a b : Z) :
  0 < a < 2 ^ 64 -> 0 < b < 2 ^ 64 ->
  exists m e,
    div_round false a b = S754_finite false m e /\
    (inject_Z a * ((1 - bpow (-56)) * (1 - roundoff)) <= mag m e * inject_Z b
       <= inject_Z a * ((1 + bpow (-56)) * (1 + roundoff)))%Q.
Proof.
  intros [Ha Ha64] [Hb Hb64].
  pose proof (sticky_quotient a b Ha Hb) as Hs. cbv zeta in Hs.
  unfold div_round. destruct (Z.eqb_spec a 0); [lia|].
  set (k := Z.max 0 (prec + 3 + Z.log2 b - Z.log2 a)) in *.
  assert (Hk : 0 <= k) by (unfold k; lia).
  destruct (Z.div_eucl (a * 2 ^ k) b) as [q r].
  set (M := 2 * q + (if r =? 0 then 0 else 1)) in *.
  destruct Hs as (HM56 & Hlo & Hhi).
  change (2 ^ 56) with 72057594037927936 in *.
  change (2 ^ 55) with 36028797018963968 in *.
  destruct M as [|mp|mp] eqn:EM; try lia. cbn [binary_normalize].
  (* the value before rounding *)
  assert (Hval : (inject_Z a * (1 - bpow (-56)) <= mag mp (- k - 1) * inject_Z b
                  <= inject_Z a * (1 + bpow (-56)))%Q).
  { rewrite Zle_Qle in Hlo, Hhi. rewrite !inject_Z_mult in Hlo, Hhi.
    rewrite (bpow_Z k Hk) in Hlo, Hhi.
    change (inject_Z (72057594037927936 - 1)) with (72057594037927935 # 1)%Q in Hlo.
    change (inject_Z (72057594037927936 + 1)) with (72057594037927937 # 1)%Q in Hhi.
    change (inject_Z 36028797018963968) with (36028797018963968 # 1)%Q in Hlo, Hhi.
    change (bpow (-56)) with (1 # 72057594037927936)%Q.
    unfold mag.
    assert (Hh : (bpow k * bpow (- k - 1) == 1 # 2)%Q).
    { rewrite <- bpow_add. now replace (k + (- k - 1)) with (-1) by lia. }
    pose proof (bpow_pos (- k - 1)) as Hh0. pose proof (bpow_pos k) as Hk0.
    set (A := inject_Z a) in *. set (B := inject_Z b) in *.
    set (K := bpow k) in *. set (h := bpow (- k - 1)) in *.
    set (Mq := inject_Z (Zpos mp)) in *.
    assert (Hlo' : (A * K * (72057594037927935 # 1) * h
                    <= Mq * B * (36028797018963968 # 1) * h)%Q)
      by (apply Qmult_le_compat_r; lra).
    assert (Hhi' : (Mq * B * (36028797018963968 # 1) * h
                    <= A * K * (72057594037927937 # 1) * h)%Q)
      by (apply Qmult_le_compat_r; lra).
    assert (HAK : (A * K * h == A * (1 # 2))%Q) by (rewrite <- Qmult_assoc, Hh; reflexivity).
    split; nra. }
  assert (HA : (1 <= inject_Z a)%Q) by (change 1%Q with (inject_Z 1); rewrite <- Zle_Qle; lia).
  assert (HB : (1 <= inject_Z b)%Q) by (change 1%Q with (inject_Z 1); rewrite <- Zle_Qle; lia).
  assert (HA64 : (inject_Z a < bpow 64)%Q).
  { rewrite <- bpow_Z by lia. rewrite <- Zlt_Qlt. lia. }
  assert (HB64 : (inject_Z b < bpow 64)%Q).
  { rewrite <- bpow_Z by lia. rewrite <- Zlt_Qlt. lia. }
  pose proof (mag_pos mp (- k - 1)) as Hmp.
  assert (Hrange : (bpow (-66) <= mag mp (- k - 1))%Q /\ (mag mp (- k - 1) < bpow 66)%Q).
  { change (bpow (-56)) with (1 # 72057594037927936)%Q in Hval.
    change (bpow 64) with (18446744073709551616 # 1)%Q in *.
    change (bpow 66) with (73786976294838206464 # 1)%Q.
    change (bpow (-66)) with (1 # 73786976294838206464)%Q.
    set (A := inject_Z a) in *. set (B := inject_Z b) in *.
    set (x := mag mp (- k - 1)) in *. split; nra. }
  destruct Hrange as [Hr1 Hr2].
  pose proof (digits_from_mag _ _ _ _ Hr1 Hr2) as Hd.
  destruct (binary_round_value false mp (- k - 1)) as (m & e & Hr & Hv); try lia.
  exists m, e. split; [exact Hr|].
  pose proof (mag_pos m e) as Hme.
  change roundoff with (1 # 9007199254740992)%Q in *.
  change (bpow (-56)) with (1 # 72057594037927936)%Q in *.
  set (A := inject_Z a) in *. set (B := inject_Z b) in *.
  set (x := mag mp (- k - 1)) in *. set (y := mag m e) in *.
  split; nra.
Qed.

Lemma SFeqb_one (m : positive) (e : Z) :
  SFeqb (S754_finite false m e) one = true -> (mag m e == 1)%Q.
Proof.
  unfold SFeqb, SFcompare, one. intros H.
  destruct (Z.compare_spec e (-52)) as [He| |]; [|discriminate H..].
  destruct (Pos.compare_cont Eq m 4503599627370496) eqn:Hc;
    [|discriminate H..].
  apply (Pos.compare_eq m 4503599627370496) in Hc.
  subst e m. reflexivity.
Qed.

(** [int(n * s)] for a positive integer and a positive float of moderate
    size: it returns, and the result is at most [n * s * (1 + roundoff)]. *)
Lemma int_scaled_value (n : Z) (ms : positive) (es : Z) :
  0 < n < 2 ^ 50 ->
  (bpow (-26) <= mag ms es)%Q -> (mag ms es < bpow 1)%Q ->
  exists z,
    int_scaled n (NFloat (S754_finite false ms es)) = Ok z /\ 0 <= z /\
    (inject_Z z <= inject_Z n * mag ms es * (1 + roundoff))%Q.
Proof.
  intros [Hn Hn50] Hlo Hhi.
  destruct (of_int_value n) as (mn & en & Hof & Hen & Hmn).
  { change (2 ^ 53) with 9007199254740992. change (2 ^ 50) with 1125899906842624 in Hn50. lia. }
  assert (Hn1 : (1 <= inject_Z n)%Q)
    by (change 1%Q with (inject_Z 1); rewrite <- Zle_Qle; lia).
  assert (Hn2 : (inject_Z n < bpow 50)%Q).
  { rewrite <- bpow_Z by lia. now rewrite <- Zlt_Qlt. }
  pose proof (mag_pos ms es) as Hs0.
  assert (Hes : es <= 0).
  { pose proof (digits_from_mag ms es (-26) 1 Hlo Hhi). lia. }
  destruct (mul_value mn ms en es) as (mp & ep & Hmul & Hv).
  { rewrite Hmn. apply Qle_trans with (bpow (-26)); [apply bpow_le; lia|].
    apply Qle_trans with (1 * mag ms es)%Q; [lra|].
    apply Qmult_le_compat_r; lra. }
  { rewrite Hmn. apply Qlt_trans with (bpow 51); [|apply bpow_lt; lia].
    rewrite (bpow_add 50 1).
    apply Qle_lt_trans with (bpow 50 * mag ms es)%Q.
    - apply Qmult_le_compat_r; lra.
    - apply Qmult_lt_l; [apply bpow_pos | exact Hhi]. }
  { lia. }
  destruct (to_int_floor mp ep) as (z & Hz & Hz0 & Hzv).
  exists z. unfold int_scaled, int_mul, scaled. rewrite Hof.
  cbn [mbind result_bind]. rewrite Hmul. split; [exact Hz|]. split; [exact Hz0|].
  rewrite Hmn in Hv. lra.
Qed.

Lemma inject_Z_pos (z : Z) : 0 < z -> (1 <= inject_Z z)%Q.
Proof. intros H. change 1%Q with (inject_Z 1). rewrite <- Zle_Qle. lia. Qed.

(** The arithmetic of the error terms: with each step within its bound,
    the product of the two new sides stays below [M + 1]. *)
Lemma budget_arithmetic (A B R SS Wq Hq S nw nh : Q) :
  (1 <= A)%Q -> (A <= B - 1)%Q -> (B <= 1125899906842624 # 1)%Q ->
  (Wq * Hq == B)%Q -> (1 <= Wq)%Q -> (1 <= Hq)%Q ->
  (0 < S)%Q -> (SS == S * S)%Q -> (0 < R)%Q ->
  (R * B <= A * ((1 + bpow (-56)) * (1 + roundoff)))%Q ->
  (SS <= R * ((1 + bpow (-52)) * (1 + bpow (-52))))%Q ->
  (0 <= nw)%Q -> (nw <= Wq * S * (1 + roundoff))%Q ->
  (0 <= nh)%Q -> (nh <= Hq * S * (1 + roundoff))%Q ->
  (nw * nh < A + 1)%Q.
Proof.
  intros HA HAB HB HWH HW HH HS HSS HR Hratio Hpow Hnw0 Hnw Hnh0 Hnh.
  change roundoff with (1 # 9007199254740992)%Q in *.
  change (bpow (-56)) with (1 # 72057594037927936)%Q in *.
  change (bpow (-52)) with (1 # 4503599627370496)%Q in *.
  set (c := (1 + (1 # 9007199254740992))%Q) in *.
  set (c1 := ((1 + (1 # 72057594037927936)) * c)%Q) in *.
  set (h := ((1 + (1 # 4503599627370496)) * (1 + (1 # 4503599627370496)))%Q) in *.
  assert (Hc : (0 < c)%Q) by reflexivity.
  assert (Hh : (0 < h)%Q) by reflexivity.
  assert (Hc1 : (0 < c1)%Q) by reflexivity.
  assert (HC : (c1 * h * (c * c) <= 1 + (1 # 1125899906842625))%Q)
    by (vm_compute; discriminate).
  (* nw * nh <= B * SS * c^2 *)
  assert (H1 : (nw * nh <= (Wq * S * c) * (Hq * S * c))%Q).
  { apply Qmult_le_compat_nonneg; split; assumption. }
  assert (H2 : ((Wq * S * c) * (Hq * S * c) == (B * SS) * (c * c))%Q).
  { rewrite HSS, <- HWH. ring. }
  assert (H3 : (B * SS <= (R * B) * h)%Q).
  { apply Qle_trans with (B * (R * h))%Q; [|lra].
    apply Qmult_le_l; lra. }
  assert (H4 : ((R * B) * h <= (A * c1) * h)%Q).
  { apply Qmult_le_compat_r; lra. }
  assert (H5 : ((B * SS) * (c * c) <= (A * c1 * h) * (c * c))%Q).
  { apply Qmult_le_compat_r; [lra|]. apply Qlt_le_weak. apply Qmult_lt_0_compat; exact Hc. }
  assert (H6 : ((A * c1 * h) * (c * c) == A * (c1 * h * (c * c)))%Q) by ring.
  assert (H7 : (A * (c1 * h * (c * c)) <= A * (1 + (1 # 1125899906842625)))%Q).
  { apply Qmult_le_l; lra. }
  assert (H8 : (A * (1 # 1125899906842625) < 1)%Q).
  { apply Qle_lt_trans with ((1125899906842624 # 1) * (1 # 1125899906842625))%Q.
    - apply Qmult_le_compat_r; [lra | discriminate].
    - reflexivity. }
  lra.
Qed.

(** The ratio is below one, and the scale lies between [2 ^ -26] and
    [2]. *)
Lemma scale_range (A B R SS S : Q) :
  (1 <= A)%Q -> (A <= B - 1)%Q -> (B <= 1125899906842624 # 1)%Q ->
  (0 < S)%Q -> (SS == S * S)%Q -> (0 < R)%Q ->
  (A * ((1 - bpow (-56)) * (1 - roundoff)) <= R * B)%Q ->
  (R * B <= A * ((1 + bpow (-56)) * (1 + roundoff)))%Q ->
  (R * ((1 - bpow (-52)) * (1 - bpow (-52))) <= SS)%Q ->
  (SS <= R * ((1 + bpow (-52)) * (1 + bpow (-52))))%Q ->
  (R < 1)%Q /\ (bpow (-26) <= S)%Q /\ (S < bpow 1)%Q.
Proof.
  intros HA HAB HB HS HSS HR Hlo Hhi Hpl Hph.
  change roundoff with (1 # 9007199254740992)%Q in *.
  change (bpow (-56)) with (1 # 72057594037927936)%Q in *.
  change (bpow (-52)) with (1 # 4503599627370496)%Q in *.
  change (bpow (-26)) with (1 # 67108864)%Q.
  change (bpow 1) with 2%Q.
  set (c1 := ((1 + (1 # 72057594037927936)) * (1 + (1 # 9007199254740992)))%Q) in *.
  set (c0 := ((1 - (1 # 72057594037927936)) * (1 - (1 # 9007199254740992)))%Q) in *.
  set (h := ((1 + (1 # 4503599627370496)) * (1 + (1 # 4503599627370496)))%Q) in *.
  set (l := ((1 - (1 # 4503599627370496)) * (1 - (1 # 4503599627370496)))%Q) in *.
  assert (Hc1 : (c1 <= 1 + (1 # 2251799813685248))%Q) by (vm_compute; discriminate).
  assert (Hc1' : (1 <= c1)%Q) by (vm_compute; discriminate).
  assert (Hc0 : (3 # 4 <= c0)%Q) by (vm_compute; discriminate).
  assert (Hh : (h <= 2)%Q) by (vm_compute; discriminate).
  assert (Hh0 : (0 < h)%Q) by reflexivity.
  assert (Hl : (3 # 4 <= l)%Q) by (vm_compute; discriminate).
  assert (HB0 : (0 < B)%Q) by lra.
  assert (HR1 : (R < 1)%Q).
  { apply (Qmult_lt_r R 1 B HB0).
    apply Qle_lt_trans with (A * c1)%Q; [exact Hhi|].
    apply Qle_lt_trans with ((B - 1) * c1)%Q.
    { apply Qmult_le_compat_r; lra. }
    assert (Hx : (B * (c1 - 1) <= (1125899906842624 # 1) * (c1 - 1))%Q)
      by (apply Qmult_le_compat_r; lra).
    assert (Hy : ((1125899906842624 # 1) * (c1 - 1)
                  <= (1125899906842624 # 1) * (1 # 2251799813685248))%Q)
      by (apply Qmult_le_l; [reflexivity | lra]).
    assert (Hz : ((1125899906842624 # 1) * (1 # 2251799813685248) == 1 # 2)%Q)
      by reflexivity.
    lra. }
  split; [exact HR1|]. split.
  - destruct (Qlt_le_dec S (1 # 67108864)) as [Hlt|]; [exfalso|assumption].
    assert (H1 : (S * S < (1 # 67108864) * (1 # 67108864))%Q)
      by (apply Qmult_lt_compat_nonneg; split; lra).
    assert (H2 : (SS * B <= SS * (1125899906842624 # 1))%Q)
      by (apply Qmult_le_l; [rewrite HSS; apply Qmult_lt_0_compat; assumption | exact HB]).
    assert (H3 : (SS * (1125899906842624 # 1)
                  < (1 # 67108864) * (1 # 67108864) * (1125899906842624 # 1))%Q)
      by (apply Qmult_lt_compat_r; [reflexivity | rewrite HSS; exact H1]).
    assert (H4 : ((1 # 67108864) * (1 # 67108864) * (1125899906842624 # 1) == 1 # 4)%Q)
      by reflexivity.
    assert (H5 : ((R * l) * B <= SS * B)%Q)
      by (apply Qmult_le_compat_r; lra).
    assert (H6 : ((R * l) * B == (R * B) * l)%Q) by ring.
    assert (H7 : ((A * c0) * l <= (R * B) * l)%Q)
      by (apply Qmult_le_compat_r; lra).
    assert (H8 : ((3 # 4) * (3 # 4) <= (A * c0) * l)%Q).
    { apply Qmult_le_compat_nonneg; split; try lra.
      apply Qle_trans with (1 * c0)%Q; [lra|].
      apply Qmult_le_compat_r; lra. }
    assert (H9 : ((3 # 4) * (3 # 4) == 9 # 16)%Q) by reflexivity.
    lra.
  - destruct (Qlt_le_dec S 2) as [|Hge]; [assumption|exfalso].
    assert (H1 : (2 * 2 <= S * S)%Q)
      by (apply Qmult_le_compat_nonneg; split; lra).
    assert (H2 : (R * h <= 1 * h)%Q) by (apply Qmult_le_compat_r; lra).
    lra.
Qed.

End FloatFacts.

(** ** The text of a node *)

Module Bs4Facts.
Import Bs4 StrFacts.

(** Induction on a node with the hypothesis on every child. *)
Lemma node_induction (P : node -> Prop) :
  (forall s, P (NavigableString s)) ->
  (forall s, P (OtherString s)) ->
  (forall name attrs children, Forall P children -> P (Tag name attrs children)) ->
  forall n, P n.
Proof.
  intros Hs Ho Ht. fix IH 1. intros [s|s|name attrs children].
  - apply Hs.
  - apply Ho.
  - apply Ht.
    refine ((fix go (cs : list node) : Forall P cs :=
               match cs with
               | [] => @List.Forall_nil _ P
               | c :: r => @List.Forall_cons _ P c r (IH c) (go r)
               end) children).
Qed.

(** Every collected string is non-empty and trimmed. *)
Lemma all_strings_pieces (n : node) :
  Forall (fun t => t <> [] /\ trimmed t) (all_strings n).
Proof.
  induction n as [s|s|name attrs children IH] using node_induction; simpl.
  - destruct (strip s) as [|c r] eqn:E; constructor; [|constructor].
    split; [discriminate|]. rewrite <- E. apply strip_trimmed.
  - constructor.
  - apply List.Forall_flat_map. exact IH.
Qed.

Lemma get_text_trimmed (sep : str) (n : node) : trimmed (get_text sep n).
Proof. apply join_trimmed, all_strings_pieces. Qed.

(** The text of a node is unchanged by trimming. *)
Lemma strip_get_text (sep : str) (n : node) :
  strip (get_text sep n) = get_text sep n.
Proof. apply trimmed_strip, get_text_trimmed. Qed.

End Bs4Facts.

(** ** The layout block parser *)

Module ParserFacts.
Import Json Value Bs4 Float Chandra PyFacts StrFacts Bs4Facts.

Lemma map_result_Forall2 {A B} (f : A -> result B) (l : list A) (bs : list B) :
  map_result f l = Ok bs -> Forall2 (fun a b => f a = Ok b) l bs.
Proof.
  revert bs. induction l as [|a l IH]; simpl; intros bs H.
  - injection H as <-. constructor.
  - bind_inv H. injection H as <-. constructor; auto.
Qed.

(** The loop is a traversal that keeps the blocks produced. *)
Lemma layout_blocks_traverse ws hs W H (divs : list node) (acc : list Block.t) :
  layout_blocks ws hs W H divs acc =
  obs ← map_result (layout_block ws hs W H) divs; Ok (acc ++ omap id obs).
Proof.
  revert acc. induction divs as [|d divs IH]; intros acc; simpl.
  - now rewrite app_nil_r.
  - destruct (layout_block ws hs W H d) as [[b|]|e]; simpl; [| |reflexivity].
    + rewrite IH. destruct (map_result _ divs); simpl; [|reflexivity].
      now rewrite <- app_assoc.
    + rewrite IH. now destruct (map_result _ divs).
Qed.

(** The blocks of a traversal, paired in order with the [div]s that
    produced them. *)
Lemma omap_kept {A B} (R : A -> option B -> Prop) (l : list A) (obs : list (option B)) :
  Forall2 R l obs ->
  exists kept, sublist kept l /\ Forall2 (fun a b => R a (Some b)) kept (omap id obs).
Proof.
  induction 1 as [|a ob l obs Hab _ (kept & Hsub & Hk)]; simpl.
  - exists []. split; constructor.
  - destruct ob as [b|]; simpl.
    + exists (a :: kept). split; [now constructor | now constructor].
    + exists kept. split; [now constructor | exact Hk].
Qed.

(** What a returned parse consists of: the scale factors, and the
    emitted blocks paired in document order with the top-level [div]s
    they come from. *)
Lemma parse_layout_blocks_ok bs4 doc W H blocks :
  parse_layout_blocks bs4 doc W H = Ok blocks ->
  exists ws hs kept,
    bs4 = true /\
    int_truediv W BBOX_SCALE = Ok ws /\
    int_truediv H BBOX_SCALE = Ok hs /\
    sublist kept (find_all (py "div") (tree doc)) /\
    Forall2 (fun div b => layout_block ws hs W H div = Ok (Some b)) kept blocks.
Proof.
  unfold parse_layout_blocks. destruct bs4; simpl; [|discriminate].
  intros E. bind_inv E. rename v into ws, v0 into hs.
  rewrite layout_blocks_traverse in E. bind_inv E. injection E as <-.
  apply map_result_Forall2 in E2.
  destruct (omap_kept _ _ _ E2) as (kept & Hsub & Hk).
  exists ws, hs, kept. simpl. auto.
Qed.

(** The box of [rescale] lies within the image, whatever the scale. *)
Lemma rescale_within ws hs W H bbox x1 y1 width height :
  rescale ws hs W H bbox = Ok (x1, y1, width, height) ->
  0 <= x1 /\ 0 <= y1 /\ x1 + width <= W /\ y1 + height <= H.
Proof.
  unfold rescale. intros E. bind_inv E. injection E as <- <- <- <-. lia.
Qed.

(** What the loop body guarantees about the block it emits. *)
Lemma layout_block_emits ws hs W H div b :
  layout_block ws hs W H div = Ok (Some b) ->
  Spec.block_ok W H b /\
  Block.text b = get_text (py " ") div /\
  Block.label b = default (py "Text") (get div (py "data-label")) /\
  Block.estimated b = false /\
  exists bbox,
    rescale ws hs W H bbox =
      Ok (Block.x b, Block.y b, Block.width b, Block.height b).
Proof.
  unfold layout_block. intros E. bind_inv E.
  destruct (negb (truthy v)); [discriminate|]. bind_inv E.
  destruct v2 as [[[x1 y1] width] height].
  destruct ((width <=? 0) || (height <=? 0)) eqn:Hwh; [discriminate|].
  assert (Hs := strip_get_text (py " ") div).
  destruct (get_text (py " ") div) as [|c t] eqn:Ht; [discriminate|].
  injection E as <-. unfold Spec.block_ok.
  cbn [Block.text Block.x Block.y Block.width Block.height Block.label
       Block.estimated].
  apply orb_false_elim in Hwh as [Hw Hh].
  apply Z.leb_gt in Hw, Hh.
  match goal with
  | Hr : rescale _ _ _ _ ?bbox = Ok _ |- _ =>
      pose proof (rescale_within _ _ _ _ _ _ _ _ _ Hr) as (? & ? & ? & ?);
      repeat split; try assumption; [|exists bbox; exact Hr]
  end.
  rewrite Hs. discriminate.
Qed.

End ParserFacts.

(** ** The claims on [parse_layout_blocks] *)

Module ParserClaims.
Import Json Value Bs4 Float Chandra PyFacts StrFacts Bs4Facts ParserFacts.

(** C1.  For every markup and every strictly positive image width and
    height, every block that [parse_layout_blocks] returns lies within
    the image ([0 <= x], [0 <= y], [x + width <= image_width],
    [y + height <= image_height]), has a strictly positive width and
    height, and has a text that is non-empty after trimming.  The blocks
    are paired, in order, with top-level [div]s of the document: the box
    of each is the rescaled box of its [div] and its text is the text
    extracted from it, so a [div] whose rescaled box is empty or whose
    text is empty contributes no block. *)
Theorem parse_layout_blocks_invariant bs4 doc image_width image_height blocks :
  0 < image_width -> 0 < image_height ->
  parse_layout_blocks bs4 doc image_width image_height = Ok blocks ->
  Forall (block_ok image_width image_height) blocks /\
  exists ws hs kept,
    sublist kept (find_all (py "div") (tree doc)) /\
    Forall2 (fun div b =>
      Block.text b = get_text (py " ") div /\
      exists bbox,
        rescale ws hs image_width image_height bbox =
          Ok (Block.x b, Block.y b, Block.width b, Block.height b))
      kept blocks.
Proof.
  intros _ _ E.
  destruct (parse_layout_blocks_ok _ _ _ _ _ E)
    as (ws & hs & kept & _ & _ & _ & Hsub & Hk).
  split.
  - clear Hsub E. induction Hk as [|div b kept blocks Hb _ IH]; constructor.
    + now destruct (layout_block_emits _ _ _ _ _ _ Hb) as (Hok & _).
    + exact IH.
  - exists ws, hs, kept. split; [exact Hsub|].
    eapply Forall2_impl; [exact Hk|]. intros div b Hb.
    destruct (layout_block_emits _ _ _ _ _ _ Hb) as (_ & Ht & _ & _ & Hr).
    now split.
Qed.

Lemma parse_layout_blocks_invariant_witness :
  0 < 800 /\ 0 < 600 /\
  parse_layout_blocks true Examples.out_of_range 800 600
    = Ok [Block.Make (py "Hello") 0 0 800 600 (py "Text") false] /\
  Forall (block_ok 800 600)
    [Block.Make (py "Hello") 0 0 800 600 (py "Text") false].
Proof.
  assert (E : parse_layout_blocks true Examples.out_of_range 800 600
              = Ok [Block.Make (py "Hello") 0 0 800 600 (py "Text") false])
    by (vm_compute; reflexivity).
  split; [reflexivity|]. split; [reflexivity|]. split; [exact E|].
  apply (parse_layout_blocks_invariant true Examples.out_of_range 800 600 _
           eq_refl eq_refl E).
Defined.

(** C9.  Every emitted block carries the label of the [div] it comes
    from: ["Text"] when the [div] has no [data-label] attribute, and
    otherwise the value of the attribute as it stands, whatever it is. *)
Theorem label_passes_through bs4 doc image_width image_height blocks :
  parse_layout_blocks bs4 doc image_width image_height = Ok blocks ->
  exists kept,
    sublist kept (find_all (py "div") (tree doc)) /\
    Forall2 (fun div b =>
      Block.text b = get_text (py " ") div /\
      match get div (py "data-label") with
      | None => Block.label b = py "Text"
      | Some value => Block.label b = value
      end) kept blocks.
Proof.
  intros E.
  destruct (parse_layout_blocks_ok _ _ _ _ _ E)
    as (ws & hs & kept & _ & _ & _ & Hsub & Hk).
  exists kept. split; [exact Hsub|].
  eapply Forall2_impl; [exact Hk|]. intros div b Hb.
  destruct (layout_block_emits _ _ _ _ _ _ Hb) as (_ & Ht & Hl & _).
  split; [exact Ht|]. rewrite Hl. now destruct (get div (py "data-label")).
Qed.

Lemma label_passes_through_witness :
  parse_layout_blocks true Examples.labelled 1000 500
    = Ok [Block.Make (py "a") 0 0 500 250 (py "Sidebar") false;
          Block.Make (py "b") 0 250 500 250 (py "Text") false] /\
  exists kept,
    sublist kept (find_all (py "div") (tree Examples.labelled)) /\
    Forall2 (fun div b =>
      Block.text b = get_text (py " ") div /\
      match get div (py "data-label") with
      | None => Block.label b = py "Text"
      | Some value => Block.label b = value
      end) kept
      [Block.Make (py "a") 0 0 500 250 (py "Sidebar") false;
       Block.Make (py "b") 0 250 500 250 (py "Text") false].
Proof.
  assert (E : parse_layout_blocks true Examples.labelled 1000 500
              = Ok [Block.Make (py "a") 0 0 500 250 (py "Sidebar") false;
                    Block.Make (py "b") 0 250 500 250 (py "Text") false])
    by (vm_compute; reflexivity).
  split; [exact E|].
  exact (label_passes_through true Examples.labelled 1000 500 _ E).
Defined.



(** The attribute of the scenario reads as the four integers. *)
Lemma out_of_range_bbox :
  parse_bbox (get (Examples.div_bbox "0 0 2000 2000" "Hello") (py "data-bbox"))
    = Ok (JList [JInt 0; JInt 0; JInt 2000; JInt 2000]).
Proof. vm_compute. reflexivity. Qed.

(** C3 (as the code behaves).  A [data-bbox] attribute that is a JSON
    scalar makes [len] raise a [TypeError], and a JSON array of four
    values that are no numbers makes [int] raise one; neither is among
    the exceptions the parser handles, so the whole parse raises instead
    of dropping the block, and the pipeline reports a failure. *)
Theorem bbox_type_error_aborts_parse :
  Json.loads (py "5") = Ok (JInt 5) /\
  parse_layout_blocks true Examples.scalar_bbox 800 600 = Raise TypeError /\
  parse_layout_blocks true Examples.null_bbox 800 600 = Raise TypeError /\
  run_inference (Examples.machine (Ok (800, 600)) Examples.scalar_bbox)
    Examples.page = Ok (Failure (Uncaught TypeError)).
Proof. repeat split; vm_compute; reflexivity. Qed.

(** The part of the tolerance that the code implements: an attribute
    that is no JSON text and no list of four integers leaves [bbox] at
    [None], and the block is dropped. *)
Lemma unreadable_bbox_dropped ws hs W H div s :
  get div (py "data-bbox") = Some s ->
  Json.loads s = Raise JSONDecodeError ->
  (forall ints, map_result int_of_str (split_ws s) = Ok ints ->
                length ints <> 4%nat) ->
  (forall e, map_result int_of_str (split_ws s) = Raise e -> e = ValueError) ->
  layout_block ws hs W H div = Ok None.
Proof.
  intros Hget Hjson Hlen Hexn. unfold layout_block. rewrite Hget.
  assert (Hb : parse_bbox (Some s) = Ok JNone).
  { unfold parse_bbox. destruct s as [|c s]; [reflexivity|].
    rewrite Hjson. simpl.
    destruct (map_result int_of_str (split_ws (c :: s))) as [ints|e] eqn:Em; simpl.
    - specialize (Hlen ints eq_refl).
      destruct (Z.eqb_spec (Z.of_nat (length ints)) 4); [lia|reflexivity].
    - now rewrite (Hexn e eq_refl). }
  now rewrite Hb.
Qed.

Lemma missing_bbox_dropped ws hs W H div :
  get div (py "data-bbox") = None -> layout_block ws hs W H div = Ok None.
Proof. intros Hget. unfold layout_block. now rewrite Hget. Qed.

End ParserClaims.

(** ** The claims on [extract_text_from_html] *)

Module FallbackClaims.
Import Json Value Bs4 Float Chandra PyFacts StrFacts Bs4Facts.

(** After [re.sub(r'\s+', ' ', s)] the only white space left is the
    space character. *)
Lemma sub_spaces_only_space (after_space : bool) (s : str) :
  Forall (fun c => isspace c = true -> c = 32%N) (sub_spaces after_space s).
Proof.
  revert after_space. induction s as [|c s IH]; intros b; simpl; [constructor|].
  destruct (isspace c) eqn:Hc.
  - destruct b; [apply IH|]. constructor; [reflexivity | apply IH].
  - constructor; [congruence | apply IH].
Qed.

Lemma sub_spaces_no_newline (after_space : bool) (s : str) :
  Forall (fun c => c <> 10%N) (sub_spaces after_space s).
Proof.
  eapply Forall_impl; [apply sub_spaces_only_space|].
  intros c Hc ->. now specialize (Hc eq_refl).
Qed.

(** The degraded strategy returns the collapsed text and, as lines,
    nothing when it is empty and the text itself otherwise. *)
Lemma extract_degraded_lines (raw_html : str) :
  let text := strip (sub_spaces false (sub_tags false raw_html)) in
  extract_degraded raw_html =
    (text, match text with [] => [] | _ :: _ => [text] end).
Proof.
  cbv zeta. unfold extract_degraded.
  assert (Hn : Forall (fun c => c <> 10%N)
                 (strip (sub_spaces false (sub_tags false raw_html))))
    by apply strip_Forall, sub_spaces_no_newline.
  assert (Hs := strip_idem (sub_spaces false (sub_tags false raw_html))).
  destruct (strip (sub_spaces false (sub_tags false raw_html))) as [|c t].
  - reflexivity.
  - rewrite (split_on_absent _ _ Hn). cbn [List.filter]. rewrite Hs.
    rewrite bool_decide_eq_false_2 by discriminate.
    cbn [negb map]. now rewrite Hs.
Qed.

(** C8.  Whichever strategy [extract_text_from_html] takes, the text it
    returns is its list of lines joined by a line feed, and every line is
    non-empty after trimming. *)
Theorem fallback_strategies_same_shape (bs4 : bool) (doc : html) :
  text_lines_shape (extract_text_from_html bs4 doc) /\
  text_lines_shape (extract_structured doc) /\
  text_lines_shape (extract_degraded (raw doc)).
Proof.
  assert (Hst : text_lines_shape (extract_structured doc)).
  { unfold text_lines_shape, extract_structured. simpl. split; [reflexivity|].
    apply List.Forall_forall. intros t Ht.
    apply List.filter_In in Ht as [Hin Hne].
    apply List.in_map_iff in Hin as (div & <- & _).
    rewrite strip_get_text.
    now apply negb_true_iff, bool_decide_eq_false in Hne. }
  assert (Hdg : text_lines_shape (extract_degraded (raw doc))).
  { unfold text_lines_shape. rewrite extract_degraded_lines. simpl.
    destruct (strip _) as [|c t] eqn:E; simpl.
    - split; [reflexivity | constructor].
    - split; [reflexivity|]. constructor; [|constructor].
      rewrite <- E, strip_idem, E. discriminate. }
  split; [|split; assumption].
  unfold extract_text_from_html. now destruct bs4.
Qed.

(** C10.  The collapse of white space leaves no line feed in the text,
    so the degraded strategy returns at most one line. *)
Theorem degraded_at_most_one_line (doc : html) :
  Forall (fun c => c <> 10%N) (fst (extract_text_from_html false doc)) /\
  (length (snd (extract_text_from_html false doc)) <= 1)%nat.
Proof.
  unfold extract_text_from_html. rewrite extract_degraded_lines. simpl. split.
  - apply strip_Forall, sub_spaces_no_newline.
  - destruct (strip _); simpl; lia.
Qed.

End FallbackClaims.

(** ** The integer part of a scaled side *)

Module ScaleFacts.
Import Json Value Bs4 Float FloatSpec Chandra PyFacts FloatFacts.

(** [int] of a positive float is its integer part. *)
Lemma to_int_part (m : positive) (e : Z) :
  exists z, to_int (S754_finite false m e) = Ok z /\ 0 <= z /\
            (inject_Z z <= mag m e)%Q /\ (mag m e < inject_Z z + 1)%Q.
Proof.
  destruct (to_int_floor m e) as (z & Hz & Hz0 & Hle).
  exists z. split; [exact Hz|]. split; [exact Hz0|]. split; [exact Hle|].
  cbn [to_int cond_Zopp] in Hz. injection Hz as <-.
  destruct (Z.le_gt_cases 0 e) as [He|He].
  - rewrite Z.shiftl_mul_pow2 by lia.
    unfold mag. rewrite inject_Z_mult, bpow_Z by lia. lra.
  - replace e with (- (- e)) at 2 by lia.
    rewrite Z.shiftl_opp_r, Z.shiftr_div_pow2 by lia.
    assert (Hp : 0 < 2 ^ (- e)) by (apply Z.pow_pos_nonneg; lia).
    pose proof (Z.mod_pos_bound (Zpos m) (2 ^ (- e)) Hp) as Hmod.
    pose proof (Z.div_mod (Zpos m) (2 ^ (- e)) ltac:(lia)) as Hdm.
    assert (Hlt : Zpos m < (Zpos m / 2 ^ (- e) + 1) * 2 ^ (- e)) by nia.
    rewrite Zlt_Qlt, inject_Z_mult, inject_Z_plus, bpow_Z in Hlt by lia.
    unfold mag. pose proof (bpow_pos e) as Hb.
    assert (Hinv : (bpow (- e) * bpow e == 1)%Q).
    { rewrite <- bpow_add. now replace (- e + e) with 0 by lia. }
    set (q := inject_Z (Zpos m / 2 ^ (- e))) in *.
    set (x := inject_Z (Zpos m)) in *.
    apply Qlt_le_trans with (((q + inject_Z 1) * bpow (- e)) * bpow e)%Q.
    + apply Qmult_lt_compat_r; [exact Hb | exact Hlt].
    + rewrite <- Qmult_assoc, Hinv. change (inject_Z 1) with 1%Q. lra.
Qed.

(** [int(n * s)] for a positive integer and a positive float of moderate
    size, from both sides. *)
Lemma int_scaled_bounds (n : Z) (ms : positive) (es : Z) :
  0 < n < 2 ^ 50 ->
  (bpow (-26) <= mag ms es)%Q -> (mag ms es < bpow 1)%Q ->
  exists z,
    int_scaled n (NFloat (S754_finite false ms es)) = Ok z /\ 0 <= z /\
    (inject_Z z <= inject_Z n * mag ms es * (1 + roundoff))%Q /\
    (inject_Z n * mag ms es * (1 - roundoff) < inject_Z z + 1)%Q.
Proof.
  intros [Hn Hn50] Hlo Hhi.
  destruct (of_int_value n) as (mn & en & Hof & Hen & Hmn).
  { change (2 ^ 53) with 9007199254740992.
    change (2 ^ 50) with 1125899906842624 in Hn50. lia. }
  assert (Hn1 : (1 <= inject_Z n)%Q) by now apply inject_Z_pos.
  assert (Hn2 : (inject_Z n < bpow 50)%Q).
  { rewrite <- bpow_Z by lia. now rewrite <- Zlt_Qlt. }
  pose proof (mag_pos ms es) as Hs0.
  assert (Hes : es <= 0).
  { pose proof (digits_from_mag ms es (-26) 1 Hlo Hhi). lia. }
  destruct (mul_value mn ms en es) as (mp & ep & Hmul & Hv).
  { rewrite Hmn. apply Qle_trans with (bpow (-26)); [apply bpow_le; lia|].
    apply Qle_trans with (1 * mag ms es)%Q; [lra|].
    apply Qmult_le_compat_r; lra. }
  { rewrite Hmn. apply Qlt_trans with (bpow 51); [|apply bpow_lt; lia].
    rewrite (bpow_add 50 1).
    apply Qle_lt_trans with (bpow 50 * mag ms es)%Q.
    - apply Qmult_le_compat_r; lra.
    - apply Qmult_lt_l; [apply bpow_pos | exact Hhi]. }
  { lia. }
  destruct (to_int_part mp ep) as (z & Hz & Hz0 & Hzle & Hzlt).
  exists z. unfold int_scaled, int_mul, scaled. rewrite Hof.
  cbn [mbind result_bind]. rewrite Hmul. split; [exact Hz|]. split; [exact Hz0|].
  rewrite Hmn in Hv. split; lra.
Qed.

(** The new side of an image of 4000 pixels a side scaled to the budget
    [2048 * 2048], for every scale within the accuracy of the C
    library: the ratio is the float nearest to [0.262144]. *)
Lemma scenario_d_side (ms : positive) (es : Z) :
  pow_half_accurate (S754_finite false 4722366482869645 (-54))
    (S754_finite false ms es) ->
  exists n, int_scaled 4000 (NFloat (S754_finite false ms es)) = Ok n /\
            2047 <= n <= 2048.
Proof.
  cbn [pow_half_accurate]. intros [Hlo Hhi].
  pose proof (mag_pos ms es) as HS.
  change (mag 4722366482869645 (-54))
    with (4722366482869645 # 18014398509481984)%Q in Hlo, Hhi.
  change (bpow (-52)) with (1 # 4503599627370496)%Q in Hlo, Hhi.
  set (S := mag ms es) in *.
  set (R := (4722366482869645 # 18014398509481984)%Q) in *.
  set (l := ((1 - (1 # 4503599627370496)) * (1 - (1 # 4503599627370496)))%Q) in *.
  set (h := ((1 + (1 # 4503599627370496)) * (1 + (1 # 4503599627370496)))%Q) in *.
  set (c_lo := ((512 # 1000) - (1 # 1125899906842624))%Q).
  set (c_hi := ((512 # 1000) + (1 # 1125899906842624))%Q).
  assert (Hc_lo : (c_lo * c_lo <= R * l)%Q) by (vm_compute; discriminate).
  assert (Hc_hi : (R * h <= c_hi * c_hi)%Q) by (vm_compute; discriminate).
  assert (Hc_lo0 : (0 < c_lo)%Q) by reflexivity.
  assert (Hc_hi0 : (0 < c_hi)%Q) by reflexivity.
  assert (HSlo : (c_lo <= S)%Q).
  { destruct (Qlt_le_dec S c_lo) as [Hlt|]; [exfalso|assumption].
    assert (S * S < c_lo * c_lo)%Q
      by (apply Qmult_lt_compat_nonneg; split; lra).
    lra. }
  assert (HShi : (S <= c_hi)%Q).
  { destruct (Qlt_le_dec c_hi S) as [Hlt|]; [exfalso|assumption].
    assert (c_hi * c_hi < S * S)%Q
      by (apply Qmult_lt_compat_nonneg; split; lra).
    lra. }
  destruct (int_scaled_bounds 4000 ms es) as (n & Hn & Hn0 & Hle & Hlt).
  { split; reflexivity. }
  { fold S. apply Qle_trans with c_lo; [vm_compute; discriminate | exact HSlo]. }
  { fold S. apply Qle_lt_trans with c_hi; [exact HShi | reflexivity]. }
  exists n. split; [exact Hn|]. fold S in Hle, Hlt.
  change roundoff with (1 # 9007199254740992)%Q in Hle, Hlt.
  change (inject_Z 4000) with (4000 # 1)%Q in Hle, Hlt.
  unfold c_lo in HSlo. unfold c_hi in HShi.
  assert (Hup : (inject_Z n < inject_Z 2049)%Q).
  { change (inject_Z 2049) with (2049 # 1)%Q. lra. }
  assert (Hdown : (inject_Z 2046 < inject_Z n)%Q).
  { change (inject_Z 2046) with (2046 # 1)%Q. lra. }
  rewrite <- Zlt_Qlt in Hup, Hdown. lia.
Qed.

End ScaleFacts.

(** ** The claims on the size normaliser and on the pipeline *)

Module PipelineClaims.
Import Json Value Bs4 Float FloatSpec Chandra PyFacts.

(** C4 (as the code behaves).  On a machine where PIL is installed, an
    image that cannot be opened makes [resize_image_if_needed] raise, and
    the exception leaves [run_inference], whose call of the normaliser
    stands before its [try] block. *)
Lemma undecodable_image_raises :
  pil_installed Examples.corrupt_image = true /\
  image_size Examples.corrupt_image Examples.page = Raise OSError /\
  resize_image_if_needed Examples.corrupt_image Examples.page
    default_max_pixels = Raise OSError /\
  run_inference Examples.corrupt_image Examples.page = Raise OSError.
Proof. repeat split. Qed.

(** C4 (amended).  When PIL cannot be imported, [resize_image_if_needed]
    returns the path it was given with the sentinel size [(0, 0)] for
    every image, also one that cannot be opened or decoded.
    [run_inference] then returns a result as soon as its existence
    checks return, and the only exceptions that leave it are those of
    [Path(image_path).exists()] and [MODEL_PATH.exists()]. *)
Theorem sentinel_when_pil_missing (w : world) (image_path : str) (max_pixels : Z) :
  pil_installed w = false ->
  resize_image_if_needed w image_path max_pixels = Ok (image_path, (0, 0)) /\
  (forall image_found,
     path_exists w image_path = Ok image_found ->
     (image_found = true ->
      exists model_found, model_exists w = Ok model_found) ->
     exists r, run_inference w image_path = Ok r) /\
  (forall e,
     run_inference w image_path = Raise e ->
     path_exists w image_path = Raise e \/
     (path_exists w image_path = Ok true /\ model_exists w = Raise e)).
Proof.
  intros Hpil.
  assert (Hr : forall m, resize_image_if_needed w image_path m
                         = Ok (image_path, (0, 0))).
  { intros m. unfold resize_image_if_needed. now rewrite Hpil. }
  assert (Htry : forall c : result Extraction.t,
            exists r, match c with
                      | Ok x => Ok (Success x)
                      | Raise e => Ok (Failure (Uncaught e))
                      end = Ok r)
    by (intros [x|e]; eauto).
  split; [apply Hr|]. unfold run_inference. rewrite Hr. split.
  - intros image_found Hpath Hmodel. rewrite Hpath. cbn [mbind result_bind].
    destruct image_found; cbn [negb]; [|eauto].
    destruct (Hmodel eq_refl) as [model_found ->]. cbn [mbind result_bind].
    destruct model_found; cbn [negb]; [|eauto]. apply Htry.
  - intros e E.
    destruct (path_exists w image_path) as [[|]|e'];
      cbn [mbind result_bind negb] in E; [|discriminate|left; congruence].
    destruct (model_exists w) as [[|]|e'];
      cbn [mbind result_bind negb] in E;
      [|discriminate|right; split; congruence].
    destruct (Htry (doc ← generate w image_path;
                    bounding_boxes ←
                      parse_layout_blocks (bs4_installed w) doc 0 0;
                    Ok (assemble (bs4_installed w) doc bounding_boxes 0 0)))
      as [r Hr']. rewrite Hr' in E. discriminate.
Qed.

Lemma sentinel_when_pil_missing_witness :
  pil_installed Examples.corrupt_image_without_pil = false /\
  image_size Examples.corrupt_image_without_pil Examples.page
    = Raise OSError /\
  path_exists Examples.corrupt_image_without_pil Examples.page = Ok true /\
  model_exists Examples.corrupt_image_without_pil = Ok true /\
  resize_image_if_needed Examples.corrupt_image_without_pil Examples.page
    default_max_pixels = Ok (Examples.page, (0, 0)) /\
  exists r, run_inference Examples.corrupt_image_without_pil Examples.page
            = Ok r.
Proof.
  split; [reflexivity|]. split; [reflexivity|]. split; [reflexivity|].
  split; [reflexivity|].
  destruct (sentinel_when_pil_missing Examples.corrupt_image_without_pil
              Examples.page default_max_pixels eq_refl) as (Hr & Hrun & _).
  split; [exact Hr|]. apply (Hrun true eq_refl). intros _. now exists true.
Defined.

(** C5.  For an image of [width] by [height] pixels, both positive, with
    [width * height <= max_pixels], the normaliser returns the path it
    was given and the dimensions [(width, height)]: nothing is resized. *)
Theorem small_image_unchanged (w : world) (image_path : str)
    (width height max_pixels : Z) :
  pil_installed w = true ->
  image_size w image_path = Ok (width, height) ->
  0 < width -> 0 < height ->
  width * height <= max_pixels ->
  resize_image_if_needed w image_path max_pixels
    = Ok (image_path, (width, height)).
Proof.
  intros Hpil Hsize _ _ Hle. unfold resize_image_if_needed.
  rewrite Hpil, Hsize. simpl.
  destruct (Z.leb_spec (width * height) max_pixels); [reflexivity | lia].
Qed.

Lemma small_image_unchanged_witness :
  pil_installed Examples.small_image = true /\
  image_size Examples.small_image Examples.page = Ok (800, 600) /\
  0 < 800 /\ 0 < 600 /\ 800 * 600 <= default_max_pixels /\
  resize_image_if_needed Examples.small_image Examples.page default_max_pixels
    = Ok (Examples.page, (800, 600)).
Proof.
  repeat (split; [reflexivity || (unfold default_max_pixels; lia)|]).
  apply (small_image_unchanged Examples.small_image
           Examples.page 800 600 default_max_pixels eq_refl eq_refl);
    unfold default_max_pixels; lia.
Defined.

(** C6 (as the code behaves).  The scale is computed in floating
    point, with the power [0.5] of the C library, and the result can be
    one less than the specification's
    [floor(side * sqrt(max_pixels / (width * height)))].  For a square
    image of 8575 pixels a side and the default budget the exact scale is
    [2048 / 8575] and the exact new side is 2048; the C library returns
    the power to within one unit in the last place, and the normaliser
    returns 2047 by 2047.  With the correctly rounded square root of the
    floating-point ratio the new side would be 2048 as well. *)
Lemma downscale_misses_exact_side :
  image_size Examples.square_8575 Examples.page = Ok (8575, 8575) /\
  0 < default_max_pixels < 8575 * 8575 /\ 8575 * 8575 < 2 ^ 50 /\
  int_truediv default_max_pixels (8575 * 8575) = Ok Examples.ratio_8575 /\
  pow_half_accurate Examples.ratio_8575
    (libm_pow_half Examples.square_8575 Examples.ratio_8575) /\
  resize_image_if_needed Examples.square_8575 Examples.page default_max_pixels
    = Ok (py "resized_page.png", (2047, 2047)) /\
  2048 * 2048 * (8575 * 8575) = default_max_pixels * (8575 * 8575) /\
  exact_side 8575 8575 default_max_pixels = 2048 /\
  int_scaled 8575 (NFloat (SFsqrt prec emax Examples.ratio_8575)) = Ok 2048.
Proof.
  split; [reflexivity|]. split; [split; reflexivity|]. split; [reflexivity|].
  split; [vm_compute; reflexivity|].
  split; [vm_compute; split; discriminate|].
  split; [vm_compute; reflexivity|]. split; [reflexivity|].
  split; [reflexivity|]. vm_compute. reflexivity.
Qed.

(** C6 (amended).  For an image of [width] by [height] pixels, both
    positive, and a budget with [0 < max_pixels < width * height <
    2 ^ 50], the normaliser divides [max_pixels] by [width * height],
    takes the power [0.5] of the ratio as its single scale, all in
    floating point, and, where the C library returns that power to
    within one unit in the last place, returns the dimensions
    [int(width * scale)] and [int(height * scale)] with the path of the
    saved copy; the product of these dimensions is at most
    [max_pixels].  In particular an image of 4000 by 4000 with the
    budget [2048 * 2048] is downscaled to a square of 2047 or 2048
    pixels a side, whatever the C library within that accuracy, and of
    2048 where the library returns the correctly rounded power. *)
Theorem downscale_fits_budget (w : world) (image_path : str)
    (width height max_pixels : Z) :
  pil_installed w = true ->
  image_size w image_path = Ok (width, height) ->
  0 < width -> 0 < height ->
  0 < max_pixels < width * height -> width * height < 2 ^ 50 ->
  exists ratio,
    int_truediv max_pixels (width * height) = Ok ratio /\
    (pow_half_accurate ratio (libm_pow_half w ratio) ->
     exists new_width new_height,
       int_scaled width (NFloat (libm_pow_half w ratio)) = Ok new_width /\
       int_scaled height (NFloat (libm_pow_half w ratio)) = Ok new_height /\
       resize_image_if_needed w image_path max_pixels
         = (temp_path ← save_resized w image_path new_width new_height;
            Ok (temp_path, (new_width, new_height))) /\
       0 <= new_width /\ 0 <= new_height /\
       new_width * new_height <= max_pixels /\
       (width = 4000 -> height = 4000 -> max_pixels = 2048 * 2048 ->
        new_width = new_height /\ 2047 <= new_width <= 2048 /\
        (libm_pow_half w ratio = SFsqrt prec emax ratio ->
         new_width = 2048))).
Proof.
  intros Hpil Hsize HW HH [HM0 HMT] HT50.
  set (T := width * height) in *.
  change (2 ^ 50) with 1125899906842624 in HT50.
  assert (HWT : width <= T) by (unfold T; nia).
  assert (HHT : height <= T) by (unfold T; nia).
  destruct (FloatFacts.div_round_value max_pixels T) as (mr & er & Hdiv & Hlo & Hhi).
  { change (2 ^ 64) with 18446744073709551616. lia. }
  { change (2 ^ 64) with 18446744073709551616. lia. }
  assert (Hratio : int_truediv max_pixels T = Ok (S754_finite false mr er)).
  { unfold int_truediv. destruct (Z.eqb_spec T 0); [lia|].
    destruct (Z.ltb_spec max_pixels 0); [lia|].
    destruct (Z.ltb_spec T 0); [lia|].
    rewrite !Z.abs_eq by lia. cbn [xorb]. now rewrite Hdiv. }
  exists (S754_finite false mr er). split; [exact Hratio|].
  intros Hacc. unfold pow_half_accurate in Hacc.
  destruct (libm_pow_half w (S754_finite false mr er))
    as [| | |[|] ms es] eqn:Elibm; try contradiction.
  destruct Hacc as [Hpl Hph].
  (* the rational quantities *)
  assert (HA : (1 <= inject_Z max_pixels)%Q) by now apply FloatFacts.inject_Z_pos.
  assert (HAB : (inject_Z max_pixels <= inject_Z T - 1)%Q).
  { change 1%Q with (inject_Z 1). unfold Qminus. rewrite <- inject_Z_opp, <- inject_Z_plus, <- Zle_Qle. lia. }
  assert (HB : (inject_Z T <= 1125899906842624 # 1)%Q).
  { change (1125899906842624 # 1)%Q with (inject_Z 1125899906842624).
    rewrite <- Zle_Qle. lia. }
  pose proof (FloatFacts.mag_pos mr er) as HR. pose proof (FloatFacts.mag_pos ms es) as HS.
  destruct (FloatFacts.scale_range (inject_Z max_pixels) (inject_Z T) (mag mr er)
              (mag ms es * mag ms es) (mag ms es))
    as (HR1 & HS26 & HS2); try assumption; try reflexivity.
  (* the scale is the value of the C library *)
  assert (Hscale : pow_half (libm_pow_half w) (S754_finite false mr er)
                   = NFloat (S754_finite false ms es)).
  { unfold pow_half.
    destruct (SFeqb (S754_finite false mr er) one) eqn:Eone.
    - apply FloatFacts.SFeqb_one in Eone. rewrite Eone in HR1. now apply Qlt_irrefl in HR1.
    - now rewrite Elibm. }
  destruct (FloatFacts.int_scaled_value width ms es) as (nw & Hnw & Hnw0 & Hnwv); try assumption.
  { change (2 ^ 50) with 1125899906842624. lia. }
  destruct (FloatFacts.int_scaled_value height ms es) as (nh & Hnh & Hnh0 & Hnhv); try assumption.
  { change (2 ^ 50) with 1125899906842624. lia. }
  exists nw, nh. split; [exact Hnw|]. split; [exact Hnh|]. split.
  { unfold resize_image_if_needed. rewrite Hpil, Hsize.
    cbn [negb mbind result_bind]. fold T.
    destruct (Z.leb_spec T max_pixels); [lia|].
    rewrite Hratio. cbn [mbind result_bind]. rewrite Hscale, Hnw.
    cbn [mbind result_bind]. rewrite Hnh. reflexivity. }
  split; [exact Hnw0|]. split; [exact Hnh0|].
  assert (Hfin : (inject_Z nw * inject_Z nh < inject_Z max_pixels + 1)%Q).
  { apply (FloatFacts.budget_arithmetic (inject_Z max_pixels) (inject_Z T) (mag mr er)
             (mag ms es * mag ms es) (inject_Z width) (inject_Z height)
             (mag ms es)); try assumption; try reflexivity.
    - now apply FloatFacts.inject_Z_pos.
    - now apply FloatFacts.inject_Z_pos.
    - change 0%Q with (inject_Z 0). now rewrite <- Zle_Qle.
    - change 0%Q with (inject_Z 0). now rewrite <- Zle_Qle. }
  split.
  { change 1%Q with (inject_Z 1) in Hfin.
    rewrite <- inject_Z_mult, <- inject_Z_plus, <- Zlt_Qlt in Hfin. lia. }
  clear Hfin. intros -> -> ->.
  assert (ratio0 : int_truediv (2048 * 2048) (4000 * 4000)
                   = Ok (S754_finite false 4722366482869645 (-54)))
    by (vm_compute; reflexivity).
  unfold T in Hratio. rewrite ratio0 in Hratio.
  assert (mr = 4722366482869645%positive /\ er = -54) as [-> ->]
    by (split; congruence).
  destruct (ScaleFacts.scenario_d_side ms es (conj Hpl Hph))
    as (n & Hn & Hband).
  assert (nw = n) as -> by congruence.
  assert (nh = n) as -> by congruence.
  split; [reflexivity|]. split; [exact Hband|].
  intros Hexact. rewrite Hexact in Hn. vm_compute in Hn. congruence.
Qed.


Lemma downscale_fits_budget_witness :
  pil_installed Examples.large_image = true /\
  image_size Examples.large_image Examples.page = Ok (4000, 4000) /\
  0 < 4000 /\ 0 < default_max_pixels < 4000 * 4000 /\
  4000 * 4000 < 2 ^ 50 /\
  exists ratio,
    int_truediv default_max_pixels (4000 * 4000) = Ok ratio /\
    pow_half_accurate ratio (libm_pow_half Examples.large_image ratio) /\
    libm_pow_half Examples.large_image ratio = SFsqrt prec emax ratio /\
    exists new_width new_height,
      resize_image_if_needed Examples.large_image Examples.page
        default_max_pixels
        = (temp_path ← save_resized Examples.large_image Examples.page
                         new_width new_height;
           Ok (temp_path, (new_width, new_height))) /\
      0 <= new_width /\ 0 <= new_height /\
      new_width * new_height <= default_max_pixels /\
      new_width = new_height /\ new_width = 2048.
Proof.
  assert (H0 : 0 < 4000) by reflexivity.
  assert (H1 : 0 < default_max_pixels < 4000 * 4000) by (split; reflexivity).
  assert (H2 : 4000 * 4000 < 2 ^ 50) by reflexivity.
  split; [reflexivity|]. split; [reflexivity|]. split; [exact H0|].
  split; [exact H1|]. split; [exact H2|].
  destruct (downscale_fits_budget Examples.large_image Examples.page
              4000 4000 default_max_pixels eq_refl eq_refl H0 H0 H1 H2)
    as (ratio & Hr & Himp).
  exists ratio. split; [exact Hr|].
  assert (Hacc : pow_half_accurate ratio
                   (libm_pow_half Examples.large_image ratio)).
  { vm_compute in Hr. injection Hr as <-. vm_compute. split; discriminate. }
  split; [exact Hacc|]. split; [reflexivity|].
  destruct (Himp Hacc)
    as (nw & nh & _ & _ & Hres & Hnw & Hnh & Hprod & Hscen).
  destruct (Hscen eq_refl eq_refl eq_refl) as (Hsq & _ & Hexact).
  exists nw, nh. split; [exact Hres|]. split; [exact Hnw|].
  split; [exact Hnh|]. split; [exact Hprod|]. split; [exact Hsq|].
  exact (Hexact eq_refl).
Defined.

(** The two fixed confidence values are the floats nearest to 0.95 and
    to 0.7, and the second is the smaller. *)
Lemma confidence_values :
  high_confidence = S754_finite false 8556839292003942 (-53) /\
  low_confidence = S754_finite false 6305039478318694 (-53) /\
  SFltb low_confidence high_confidence = true.
Proof. repeat split; vm_compute; reflexivity. Qed.



(** The run of [Examples.no_box_run], in which no block has a readable
    box: the text comes from the fallback and the confidence is the low
    one. *)
Lemma no_box_run_falls_back :
  exists r,
    run_inference Examples.no_box_run Examples.page = Ok (Success r) /\
    Extraction.bounding_boxes r = [] /\
    Extraction.text r = py "x" ++ [10%N] ++ py "y" /\
    Extraction.lines r = [py "x"; py "y"] /\
    Extraction.confidence r = low_confidence.
Proof. eexists. split; [vm_compute; reflexivity|]. repeat split. Qed.

End PipelineClaims.

(** * Further properties *)

(** ** Further properties of the layout block parser *)

Module ParserProps.
Import Json Value Bs4 Float Chandra PyFacts StrFacts Bs4Facts ParserFacts.

(** X1.  For an image without area (a width or a height that is zero or
    negative, as the sentinel size [(0, 0)] of a machine without PIL),
    a parse that returns gives no block at all. *)
Theorem no_block_without_area bs4 doc image_width image_height blocks :
  image_width <= 0 \/ image_height <= 0 ->
  parse_layout_blocks bs4 doc image_width image_height = Ok blocks ->
  blocks = [].
Proof.
  intros Hsize E.
  destruct (parse_layout_blocks_ok _ _ _ _ _ E)
    as (ws & hs & kept & _ & _ & _ & _ & Hk).
  destruct Hk as [|div b kept blocks Hb _]; [reflexivity|].
  destruct (layout_block_emits _ _ _ _ _ _ Hb) as (Hok & _).
  unfold block_ok in Hok. lia.
Qed.

Lemma no_block_without_area_witness :
  exists blocks,
    parse_layout_blocks true Examples.scenario_a 0 0 = Ok blocks /\
    blocks = [].
Proof.
  exists []. split; [vm_compute; reflexivity|].
  apply (no_block_without_area true Examples.scenario_a 0 0 []).
  - left. lia.
  - vm_compute. reflexivity.
Defined.

(** A node that is no [div] with a non-empty [data-bbox] attribute is
    passed over by the loop. *)
Lemma layout_blocks_has_bbox ws hs W H (nodes : list node) (acc : list Block.t) :
  layout_blocks ws hs W H (find_all (py "div") (List.filter has_bbox nodes)) acc
  = layout_blocks ws hs W H (find_all (py "div") nodes) acc.
Proof.
  revert acc. induction nodes as [|n nodes IH]; intros acc; [reflexivity|].
  unfold find_all in *. cbn [List.filter]. unfold has_bbox at 1.
  destruct (is_tag (py "div") n) eqn:Hdiv; cbn [andb]; [|apply IH].
  destruct (get n (py "data-bbox")) as [[|c s]|] eqn:Hget.
  - cbn [layout_blocks]. unfold layout_block. rewrite Hget.
    cbn [parse_bbox mbind result_bind truthy negb]. apply IH.
  - cbn [List.filter]. rewrite Hdiv. cbn [layout_blocks].
    destruct (layout_block ws hs W H n) as [b|e]; [|reflexivity].
    cbn [mbind result_bind]. apply IH.
  - cbn [layout_blocks]. unfold layout_block. rewrite Hget.
    cbn [parse_bbox mbind result_bind truthy negb]. apply IH.
Qed.

(** X2.  Only the top-level [div]s with a non-empty [data-bbox]
    attribute count: every other node of the document (text and other
    elements at the top level, [div]s without the attribute or with an
    empty one) can be removed without changing what the parser returns
    or raises. *)
Theorem only_divs_with_bbox_count bs4 doc image_width image_height :
  parse_layout_blocks bs4
    (Html (raw doc) (List.filter has_bbox (tree doc))) image_width image_height
  = parse_layout_blocks bs4 doc image_width image_height.
Proof.
  unfold parse_layout_blocks. destruct bs4; [|reflexivity].
  cbn [negb tree].
  destruct (int_truediv image_width BBOX_SCALE) as [ws|]; [|reflexivity].
  destruct (int_truediv image_height BBOX_SCALE) as [hs|]; [|reflexivity].
  cbn [mbind result_bind]. apply layout_blocks_has_bbox.
Qed.

(** The texts of the [div]s that gave a block are, in order, among the
    non-empty texts of all [div]s. *)
Lemma kept_texts_sublist (kept divs : list node) (blocks : list Block.t) :
  sublist kept divs ->
  Forall2 (fun div b => Block.text b = get_text (py " ") div /\
                        get_text (py " ") div <> []) kept blocks ->
  sublist (map Block.text blocks)
    (List.filter (fun t => negb (bool_decide (t = [])))
       (map (get_text (py " ")) divs)).
Proof.
  intros Hsub. revert blocks.
  induction Hsub as [|d kept divs _ IH|d kept divs _ IH]; intros blocks Hk.
  - inversion Hk. constructor.
  - inversion Hk as [|? b ? blocks' [Ht Hne] Hk']; subst.
    cbn [map List.filter]. rewrite bool_decide_eq_false_2 by exact Hne.
    cbn [negb]. rewrite Ht. constructor. now apply IH.
  - cbn [map List.filter].
    match goal with |- context [if ?c then _ else _] => destruct c end.
    + constructor. now apply IH.
    + now apply IH.
Qed.

(** X3.  The texts of the blocks that the parser returns are, in the
    same order, among the lines that [extract_text_from_html] returns
    for the same document: the boxes never carry a text that the plain
    extraction lacks. *)
Theorem block_texts_among_lines bs4 doc image_width image_height blocks :
  parse_layout_blocks bs4 doc image_width image_height = Ok blocks ->
  sublist (map Block.text blocks) (snd (extract_text_from_html bs4 doc)).
Proof.
  intros E.
  destruct (parse_layout_blocks_ok _ _ _ _ _ E)
    as (ws & hs & kept & -> & _ & _ & Hsub & Hk).
  unfold extract_text_from_html, extract_structured. cbn [snd].
  apply (kept_texts_sublist kept); [exact Hsub|].
  eapply Forall2_impl; [exact Hk|]. intros div b Hb.
  destruct (layout_block_emits _ _ _ _ _ _ Hb) as (Hok & Ht & _).
  split; [exact Ht|]. intros Hnil.
  destruct Hok as (_ & _ & _ & _ & _ & _ & Hne).
  apply Hne. now rewrite Ht, Hnil.
Qed.

Lemma block_texts_among_lines_witness :
  parse_layout_blocks true Examples.labelled 1000 500
    = Ok [Block.Make (py "a") 0 0 500 250 (py "Sidebar") false;
          Block.Make (py "b") 0 250 500 250 (py "Text") false] /\
  snd (extract_text_from_html true Examples.labelled) = [py "a"; py "b"] /\
  sublist [py "a"; py "b"] (snd (extract_text_from_html true Examples.labelled)).
Proof.
  assert (E : parse_layout_blocks true Examples.labelled 1000 500
              = Ok [Block.Make (py "a") 0 0 500 250 (py "Sidebar") false;
                    Block.Make (py "b") 0 250 500 250 (py "Text") false])
    by (vm_compute; reflexivity).
  split; [exact E|]. split; [vm_compute; reflexivity|].
  exact (block_texts_among_lines true Examples.labelled 1000 500 _ E).
Defined.

(** *** The exceptions of the parser *)

Lemma bind_raise {A B} (m : result A) (f : A -> result B) (e : exn) :
  m ≫= f = Raise e -> m = Raise e \/ exists a, m = Ok a /\ f a = Raise e.
Proof. destruct m as [a|e']; simpl; [eauto | intros [= ->]; now left]. Qed.

Lemma map_result_raises {A B} (f : A -> result B) (l : list A) (e : exn) :
  map_result f l = Raise e -> exists a, In a l /\ f a = Raise e.
Proof.
  induction l as [|a l IH]; simpl; [discriminate|]. intros E.
  apply bind_raise in E as [E|(b & _ & E)]; [exists a; auto|].
  apply bind_raise in E as [E|(bs & _ & E)]; [|discriminate].
  destruct (IH E) as (a' & Hin & Ha). exists a'. auto.
Qed.

Lemma map_result_length {A B} (f : A -> result B) (l : list A) (bs : list B) :
  map_result f l = Ok bs -> length bs = length l.
Proof.
  intros E. apply map_result_Forall2 in E.
  induction E; simpl; congruence.
Qed.

Lemma loads_raises (s : str) (e : exn) :
  Json.loads s = Raise e -> e = JSONDecodeError.
Proof.
  unfold Json.loads. intros E.
  repeat match type of E with
         | match ?x with _ => _ end = _ => destruct x
         end; congruence.
Qed.

Lemma int_of_str_raises (s : str) (e : exn) :
  int_of_str s = Raise e -> e = ValueError.
Proof.
  unfold int_of_str. intros E.
  repeat match type of E with
         | (let '(_, _) := ?x in _) = _ => destruct x
         | match ?x with _ => _ end = _ => destruct x
         end; congruence.
Qed.

(** The two attempts at reading the attribute let only a [TypeError]
    escape, and what they return is [None] or has four items. *)
Lemma parse_bbox_cases (bbox_str : option str) :
  parse_bbox bbox_str = Raise TypeError \/
  parse_bbox bbox_str = Ok JNone \/
  exists bbox, parse_bbox bbox_str = Ok bbox /\ len bbox = Ok 4.
Proof.
  destruct bbox_str as [[|c s]|]; [now right; left| |now right; left].
  unfold parse_bbox.
  assert (Hsecond :
    try_except
      (ints ← map_result int_of_str (split_ws (c :: s));
       _ ← assert (Z.of_nat (length ints) =? 4);
       Ok (JList (map JInt ints)))
      [ValueError; AssertionError] (Ok JNone) = Ok JNone \/
    exists bbox,
      try_except
        (ints ← map_result int_of_str (split_ws (c :: s));
         _ ← assert (Z.of_nat (length ints) =? 4);
         Ok (JList (map JInt ints)))
        [ValueError; AssertionError] (Ok JNone) = Ok bbox /\ len bbox = Ok 4).
  { destruct (map_result int_of_str (split_ws (c :: s))) as [ints|e] eqn:Em.
    - cbn [mbind result_bind].
      destruct (Z.eqb_spec (Z.of_nat (length ints)) 4) as [H4|]; [|now left].
      right. eexists. split; [reflexivity|].
      cbn [len]. now rewrite length_map, H4.
    - apply map_result_raises in Em as (a & _ & Ha).
      apply int_of_str_raises in Ha as ->. now left. }
  destruct (Json.loads (c :: s)) as [bbox|e] eqn:Ej.
  - cbn [mbind result_bind]. destruct (len bbox) as [n|e] eqn:El.
    + cbn [mbind result_bind].
      destruct (Z.eqb_spec n 4) as [->|]; cbn [assert mbind result_bind try_except].
      * right; right. eauto.
      * right. exact Hsecond.
    + left. destruct bbox; try discriminate El; injection El as <-; reflexivity.
  - apply loads_raises in Ej as ->. right. exact Hsecond.
Qed.

(** The items of a value of length four are four. *)
Lemma iter_four (bbox : value) (items : list value) :
  len bbox = Ok 4 -> iter bbox = Ok items -> length items = 4%nat.
Proof.
  destruct bbox; simpl; try discriminate; intros [= Hl] [= <-];
    rewrite ?length_map; lia.
Qed.

Lemma int_raises (v : value) (e : exn) : Value.int v = Raise e -> escapes e.
Proof.
  unfold escapes. destruct v as [| | |f| | |]; simpl; try discriminate;
    try (intros [= <-]; auto).
  - destruct f; simpl; try discriminate; intros [= <-]; auto.
  - intros E. apply int_of_str_raises in E. auto.
Qed.

Lemma scaled_raises (b : Z) (f : float) (e : exn) :
  scaled b f = Raise e -> escapes e.
Proof.
  unfold scaled, int_mul, of_int, escapes. intros E.
  destruct (binary_normalize prec emax b 0 false); cbn [mbind result_bind] in E;
    try (injection E as <-; auto);
    match type of E with
    | to_int ?x = _ => destruct x; simpl in E; try discriminate;
                       injection E as <-; auto
    end.
Qed.

Lemma rescale_raises ws hs W H b0 b1 b2 b3 e :
  rescale ws hs W H [b0; b1; b2; b3] = Raise e -> escapes e.
Proof.
  unfold rescale, index. cbn [lookup list_lookup mbind result_bind].
  intros E.
  repeat match type of E with
         | (?m ≫= _) = Raise _ =>
             let Hm := fresh "Hm" in
             destruct m eqn:Hm; cbn [mbind result_bind] in E;
             [|injection E as <-; now apply scaled_raises in Hm]
         end.
  discriminate.
Qed.

Lemma layout_block_raises ws hs W H div e :
  layout_block ws hs W H div = Raise e -> escapes e.
Proof.
  unfold layout_block. intros E.
  destruct (parse_bbox_cases (get div (py "data-bbox")))
    as [Hp|[Hp|(bbox & Hp & Hlen)]]; rewrite Hp in E;
    cbn [mbind result_bind truthy negb] in E.
  - injection E as <-. now left.
  - discriminate.
  - destruct (negb (truthy bbox)); [discriminate|].
    destruct (iter bbox) as [items|e'] eqn:Hit; cbn [mbind result_bind] in E.
    2:{ injection E as <-. left.
        destruct bbox; simpl in Hit; congruence. }
    pose proof (iter_four _ _ Hlen Hit) as H4.
    destruct (map_result Value.int items) as [ints|e'] eqn:Hm;
      cbn [mbind result_bind] in E.
    2:{ injection E as <-. apply map_result_raises in Hm as (v & _ & Hv).
        now apply int_raises in Hv. }
    apply map_result_length in Hm. rewrite H4 in Hm.
    destruct ints as [|b0 [|b1 [|b2 [|b3 [|]]]]]; try discriminate Hm.
    destruct (rescale ws hs W H [b0; b1; b2; b3]) as [[[[x1 y1] w] h]|e']
      eqn:Hr; cbn [mbind result_bind] in E.
    + destruct ((w <=? 0) || (h <=? 0)); [discriminate|].
      destruct (get_text (py " ") div); discriminate.
    + injection E as <-. now apply rescale_raises in Hr.
Qed.

Lemma layout_blocks_raises ws hs W H divs acc e :
  layout_blocks ws hs W H divs acc = Raise e -> escapes e.
Proof.
  revert acc. induction divs as [|d divs IH]; intros acc; simpl; [discriminate|].
  destruct (layout_block ws hs W H d) as [b|e'] eqn:Hb; cbn [mbind result_bind].
  - apply IH.
  - intros [= <-]. now apply layout_block_raises in Hb.
Qed.

(** The division by [BBOX_SCALE] raises nothing but an
    [OverflowError], and returns for a dividend of less than 53 bits. *)
Lemma truediv_scale_raises (n : Z) (e : exn) :
  int_truediv n BBOX_SCALE = Raise e -> e = OverflowError /\ 2 ^ 53 <= Z.abs n.
Proof.
  intros E. split.
  - unfold int_truediv in E. cbn [BBOX_SCALE Z.eqb] in E.
    destruct (div_round _ _ _); congruence.
  - destruct (Z.le_gt_cases (2 ^ 53) (Z.abs n)) as [|Hlt]; [assumption|exfalso].
    destruct (Z.abs n) as [|N|N] eqn:Hn; [| |lia].
    + assert (n = 0) as -> by lia. vm_compute in E. discriminate.
    + destruct (FloatFacts.truediv_scale_dyadic n N Hn Hlt) as (f & Hf & _).
      congruence.
Qed.

(** X4.  Of the exceptions raised while a document is parsed, no
    [JSONDecodeError], [AssertionError], [IndexError] or
    [ZeroDivisionError] ever leaves [parse_layout_blocks]: the decoding
    errors and the failed assertions of the two attempts at reading a
    box are handled, and whatever passes the length check has four
    items, so that [bbox[0]] to [bbox[3]] exist.  The division by
    [BBOX_SCALE] raises nothing but an [OverflowError], and that only
    for an image side of [2 ^ 53] or more in absolute value.
    [parse_layout_blocks] raises an [ImportError] exactly when [bs4] is
    missing. *)
Theorem parser_exceptions bs4 doc image_width image_height :
  (parse_layout_blocks bs4 doc image_width image_height = Raise ImportError
     <-> bs4 = false) /\
  (forall e,
     parse_layout_blocks bs4 doc image_width image_height = Raise e ->
     e <> JSONDecodeError /\ e <> AssertionError /\ e <> IndexError /\
     e <> ZeroDivisionError) /\
  (forall n e,
     int_truediv n BBOX_SCALE = Raise e ->
     e = OverflowError /\ 2 ^ 53 <= Z.abs n).
Proof.
  assert (Hesc : forall e,
            parse_layout_blocks true doc image_width image_height = Raise e ->
            escapes e).
  { intros e E. unfold parse_layout_blocks in E. cbn [negb] in E.
    destruct (int_truediv image_width BBOX_SCALE) as [ws|e1] eqn:Hw;
      cbn [mbind result_bind] in E.
    2:{ injection E as <-. apply truediv_scale_raises in Hw as [-> _].
        unfold escapes. auto. }
    destruct (int_truediv image_height BBOX_SCALE) as [hs|e1] eqn:Hh;
      cbn [mbind result_bind] in E.
    2:{ injection E as <-. apply truediv_scale_raises in Hh as [-> _].
        unfold escapes. auto. }
    exact (layout_blocks_raises _ _ _ _ _ _ _ E). }
  split; [|split; [|exact truediv_scale_raises]].
  - destruct bs4.
    + split; [|discriminate]. intros E.
      destruct (Hesc _ E) as [H|[H|H]]; discriminate H.
    + split; reflexivity.
  - intros e E. destruct bs4.
    + destruct (Hesc _ E) as [->|[->| ->]]; repeat split; discriminate.
    + injection E as <-. repeat split; discriminate.
Qed.

Lemma parser_exceptions_witness :
  parse_layout_blocks true Examples.scalar_bbox 800 600 = Raise TypeError /\
  parse_layout_blocks false Examples.scalar_bbox 800 600 = Raise ImportError /\
  parse_layout_blocks true Examples.scenario_a (2 ^ 1034) 600
    = Raise OverflowError /\
  TypeError <> JSONDecodeError /\ TypeError <> AssertionError /\
  TypeError <> IndexError /\ TypeError <> ZeroDivisionError.
Proof.
  split; [vm_compute; reflexivity|].
  split; [now apply (proj1 (parser_exceptions false Examples.scalar_bbox
                              800 600))|].
  split; [vm_compute; reflexivity|].
  apply (proj1 (proj2 (parser_exceptions true Examples.scalar_bbox 800 600))
           TypeError).
  vm_compute. reflexivity.
Defined.

(** *** Boxes within the grid *)

Lemma scaled_on_grid (b W : Z) (ws : float) :
  0 <= b <= 1024 -> 0 < W < 2 ^ 43 ->
  int_truediv W BBOX_SCALE = Ok ws ->
  scaled b ws = Ok (b * W / 1024) /\ 0 <= b * W / 1024 <= W.
Proof.
  intros Hb HW Hws.
  change (2 ^ 43) with 8796093022208 in HW.
  assert (Hp : 0 <= b * W < 9007199254740992) by nia.
  destruct (FloatFacts.scaled_exact b W) as (ws' & Hws' & Hs).
  { change (2 ^ 53) with 9007199254740992. lia. }
  { change (2 ^ 53) with 9007199254740992. lia. }
  { change (2 ^ 53) with 9007199254740992. lia. }
  assert (ws' = ws) as -> by congruence.
  rewrite Hs, Z.quot_div_nonneg by lia. split; [reflexivity|].
  split; [apply Z.div_pos; lia|].
  apply Z.div_le_upper_bound; nia.
Qed.

Lemma rescale_on_grid (W H : Z) (ws hs : float) (b0 b1 b2 b3 : Z) :
  0 < W < 2 ^ 43 -> 0 < H < 2 ^ 43 ->
  0 <= b0 <= 1024 -> 0 <= b1 <= 1024 -> 0 <= b2 <= 1024 -> 0 <= b3 <= 1024 ->
  int_truediv W BBOX_SCALE = Ok ws -> int_truediv H BBOX_SCALE = Ok hs ->
  rescale ws hs W H [b0; b1; b2; b3] = Ok (grid_box W H b0 b1 b2 b3).
Proof.
  intros HW HH H0 H1 H2 H3 Hws Hhs.
  destruct (scaled_on_grid b0 W _ H0 HW Hws) as [E0 B0].
  destruct (scaled_on_grid b1 H _ H1 HH Hhs) as [E1 B1].
  destruct (scaled_on_grid b2 W _ H2 HW Hws) as [E2 B2].
  destruct (scaled_on_grid b3 H _ H3 HH Hhs) as [E3 B3].
  unfold rescale, index, grid_box. cbn [lookup list_lookup mbind result_bind].
  rewrite E0. cbn [mbind result_bind]. rewrite E1. cbn [mbind result_bind].
  rewrite E2. cbn [mbind result_bind]. rewrite E3. cbn [mbind result_bind].
  rewrite !Z.max_r, !Z.min_l by lia. reflexivity.
Qed.

(** X5.  For an image of less than [2 ^ 43] pixels a side, a box whose
    coordinates lie on the grid ([0 <= b0 <= b2 <= 1024] and
    [0 <= b1 <= b3 <= 1024]) is scaled without rounding and is never
    clamped: its pixel box runs from [b0 * width // 1024] to
    [b2 * width // 1024] and from [b1 * height // 1024] to
    [b3 * height // 1024], with a width and a height that are not
    negative.  The box of the whole grid is the whole image. *)
Theorem grid_box_is_not_clamped (image_width image_height : Z)
    (width_scaler height_scaler : float) (b0 b1 b2 b3 : Z) :
  0 < image_width < 2 ^ 43 -> 0 < image_height < 2 ^ 43 ->
  on_grid b0 b1 b2 b3 ->
  int_truediv image_width BBOX_SCALE = Ok width_scaler ->
  int_truediv image_height BBOX_SCALE = Ok height_scaler ->
  rescale width_scaler height_scaler image_width image_height [b0; b1; b2; b3]
    = Ok (b0 * image_width / 1024, b1 * image_height / 1024,
          b2 * image_width / 1024 - b0 * image_width / 1024,
          b3 * image_height / 1024 - b1 * image_height / 1024) /\
  0 <= b2 * image_width / 1024 - b0 * image_width / 1024 /\
  0 <= b3 * image_height / 1024 - b1 * image_height / 1024 /\
  rescale width_scaler height_scaler image_width image_height
    [0; 0; 1024; 1024] = Ok (0, 0, image_width, image_height).
Proof.
  intros HW HH (H02 & H2 & H13 & H3) Hws Hhs.
  split; [apply (rescale_on_grid _ _ _ _ b0 b1 b2 b3); (assumption || lia)|].
  split; [apply Z.le_0_sub, Z.div_le_mono; nia|].
  split; [apply Z.le_0_sub, Z.div_le_mono; nia|].
  rewrite (rescale_on_grid _ _ _ _ 0 0 1024 1024) by (assumption || lia).
  unfold grid_box. rewrite !Z.mul_0_l, !Z.sub_0_r.
  change (0 / 1024) with 0.
  now rewrite !(Z.mul_comm 1024), !Z.div_mul by lia.
Qed.

Lemma grid_box_is_not_clamped_witness :
  exists width_scaler height_scaler,
    int_truediv 1000 BBOX_SCALE = Ok width_scaler /\
    int_truediv 500 BBOX_SCALE = Ok height_scaler /\
    rescale width_scaler height_scaler 1000 500 [100; 200; 300; 1000]
      = Ok (97, 97, 195, 391) /\
    rescale width_scaler height_scaler 1000 500 [0; 0; 1024; 1024]
      = Ok (0, 0, 1000, 500).
Proof.
  exists (S754_finite false 8796093022208000 (-53)),
         (S754_finite false 8796093022208000 (-54)).
  assert (Hw : int_truediv 1000 BBOX_SCALE
               = Ok (S754_finite false 8796093022208000 (-53)))
    by (vm_compute; reflexivity).
  assert (Hh : int_truediv 500 BBOX_SCALE
               = Ok (S754_finite false 8796093022208000 (-54)))
    by (vm_compute; reflexivity).
  split; [exact Hw|]. split; [exact Hh|].
  destruct (grid_box_is_not_clamped 1000 500 _ _ 100 200 300 1000
              ltac:(split; reflexivity) ltac:(split; reflexivity)
              ltac:(unfold on_grid; lia) Hw Hh)
    as (Hbox & _ & _ & Hfull).
  split; [exact Hbox | exact Hfull].
Defined.

End ParserProps.

(** ** The two notations of a box *)

Module BboxFacts.
Import Json Value Bs4 Float Chandra PyFacts StrFacts.

(** *** Decimal digits *)

Lemma uint_chars_digits (d : Decimal.uint) : Forall digit (uint_chars d).
Proof.
  induction d; cbn [uint_chars]; constructor; try assumption;
    unfold digit; lia.
Qed.

Lemma is_digit_true (c : char) : digit c -> is_digit c = true.
Proof.
  unfold digit, is_digit. intros [H1 H2].
  apply andb_true_iff. split; apply N.leb_le; assumption.
Qed.

Lemma is_digit_false (c : char) : ~ digit c -> is_digit c = false.
Proof.
  unfold digit, is_digit. intros H.
  destruct (N.leb_spec 48 c), (N.leb_spec c 57); try reflexivity. lia.
Qed.

(** The value of the digits of a number, as the decoders compute it. *)
Lemma fold_uint_acc (d : Decimal.uint) (acc : positive) :
  fold_left (fun a c => 10 * a + Z.of_N (c - 48)) (uint_chars d) (Zpos acc)
  = Zpos (Pos.of_uint_acc d acc).
Proof.
  revert acc. induction d; intros acc; cbn [uint_chars fold_left Pos.of_uint_acc];
    [reflexivity|..];
    match goal with
    | |- fold_left _ _ ?x = Zpos (Pos.of_uint_acc _ ?a) =>
        replace x with (Zpos a) by (cbn [N.sub]; lia); apply IHd
    end.
Qed.

Lemma fold_uint (d : Decimal.uint) :
  fold_left (fun a c => 10 * a + Z.of_N (c - 48)) (uint_chars d) 0
  = Z.of_N (Pos.of_uint d).
Proof.
  induction d; cbn [uint_chars fold_left Pos.of_uint]; [reflexivity|exact IHd|..];
    match goal with
    | |- fold_left _ _ ?x = Z.of_N (N.pos (Pos.of_uint_acc _ ?a)) =>
        change x with (Zpos a); apply fold_uint_acc
    end.
Qed.

Lemma digits_value_uint (d : Decimal.uint) :
  digits_value (uint_chars d) = Z.of_N (Pos.of_uint d).
Proof. apply fold_uint. Qed.

(** The digits of a positive number do not start with a zero. *)
Lemma to_uint_head (p : positive) :
  match Pos.to_uint p with
  | Decimal.Nil | Decimal.D0 _ => False
  | _ => True
  end.
Proof.
  pose proof (DecimalPos.Unsigned.to_of (Pos.to_uint p)) as H.
  rewrite DecimalPos.Unsigned.of_to in H. cbn [N.to_uint] in H.
  pose proof (Unsigned.to_uint_nonnil p) as Hnil.
  pose proof (Unsigned.to_uint_nonzero p) as Hzero.
  destruct (Pos.to_uint p) as [|u| | | | | | | | |]; try exact I;
    [congruence|].
  rewrite unorm_D0 in H.
  destruct u as [|u'|u'|u'|u'|u'|u'|u'|u'|u'|u']; [congruence|..];
    match type of H with
    | _ = Decimal.unorm ?x =>
        pose proof (nb_digits_unorm x ltac:(discriminate)) as Hn
    end;
    rewrite <- H in Hn; cbn [Decimal.nb_digits] in Hn; lia.
Qed.

Lemma str_of_int_shape (z : Z) :
  exists neg c ds,
    str_of_int z = sign neg ++ c :: ds /\ literal c ds /\
    z = signed neg (digits_value (c :: ds)).
Proof.
  assert (Hpos : forall p,
            exists c ds, uint_chars (Pos.to_uint p) = c :: ds /\ literal c ds /\
                         Zpos p = digits_value (c :: ds)).
  { intros p. pose proof (to_uint_head p) as Hh.
    pose proof (digits_value_uint (Pos.to_uint p)) as Hv.
    rewrite DecimalPos.Unsigned.of_to in Hv. cbn [Z.of_N] in Hv.
    pose proof (uint_chars_digits (Pos.to_uint p)) as Hd.
    destruct (Pos.to_uint p) as [|u|u|u|u|u|u|u|u|u|u]; try contradiction;
      cbn [uint_chars] in *; inversion Hd as [|? ? Hc Hds]; subst;
      do 2 eexists; (split; [reflexivity|]);
      (split; [split; [exact Hc|split; [exact Hds|discriminate]]|]);
      symmetry; exact Hv. }
  destruct z as [|p|p]; unfold str_of_int; cbn [Z.to_int].
  - exists false, 48%N, []. split; [reflexivity|]. split; [|reflexivity].
    split; [unfold digit; lia|]. split; [constructor | reflexivity].
  - destruct (Hpos p) as (c & ds & Hc & Hl & Hv).
    exists false, c, ds. rewrite Hc. auto.
  - destruct (Hpos p) as (c & ds & Hc & Hl & Hv).
    exists true, c, ds. rewrite Hc. split; [reflexivity|]. split; [exact Hl|].
    cbn [signed]. rewrite <- Hv. reflexivity.
Qed.

(** *** The JSON scanner on a literal *)

Lemma span_digits_app (ds rest : str) :
  Forall digit ds -> stops rest -> span_digits (ds ++ rest) = (ds, rest).
Proof.
  intros Hds Hrest. induction Hds as [|c ds Hc _ IH]; cbn [app span_digits].
  - destruct rest as [|c r]; [reflexivity|]. cbn [span_digits].
    destruct Hrest as [Hc _]. now rewrite (is_digit_false c Hc).
  - now rewrite (is_digit_true c Hc), IH.
Qed.

Lemma match_number_literal (neg : bool) (c : char) (ds rest : str) :
  literal c ds -> stops rest ->
  match_number (sign neg ++ c :: ds ++ rest)
  = Some (JInt (signed neg (digits_value (c :: ds))), rest).
Proof.
  intros (Hc & Hds & Hzero) Hrest.
  assert (Htail : forall ipart,
    (let '(fpart, s3) :=
       match rest with
       | p :: d :: r =>
           if (p =? 46)%N && is_digit d
           then let '(ds, t) := span_digits r in (Some (d :: ds), t)
           else (None, rest)
       | _ => (None, rest)
       end in
     let '(epart, s4) :=
       match s3 with
       | e :: r =>
           if (e =? 101)%N || (e =? 69)%N then
             let '(eneg, r1) :=
               match r with
               | sg :: t => if (sg =? 45)%N then (true, t)
                            else if (sg =? 43)%N then (false, t) else (false, r)
               | [] => (false, r)
               end in
             match span_digits r1 with
             | ([], _) => (None, s3)
             | (ds, t) =>
                 (Some (if eneg then (- digits_value ds)%Z else digits_value ds), t)
             end
           else (None, s3)
       | [] => (None, s3)
       end in
     match fpart, epart with
     | None, None =>
         Some (JInt (if neg then (- digits_value ipart)%Z else digits_value ipart), s4)
     | _, _ =>
         let fd := default [] fpart in
         let e10 := (default 0 epart - Z.of_nat (length fd))%Z in
         Some (JFloat (Float.of_decimal neg (digits_value (ipart ++ fd)) e10), s4)
     end) = Some (JInt (signed neg (digits_value ipart)), rest)).
  { intros ipart. destruct rest as [|p [|d r]]; [reflexivity| |].
    - destruct Hrest as (_ & _ & H101 & H69).
      destruct (N.eqb_spec p 101); [contradiction|].
      destruct (N.eqb_spec p 69); [contradiction|]. reflexivity.
    - destruct Hrest as (_ & H46 & H101 & H69).
      destruct (N.eqb_spec p 46); [contradiction|]. cbn [andb].
      destruct (N.eqb_spec p 101); [contradiction|].
      destruct (N.eqb_spec p 69); [contradiction|]. reflexivity. }
  assert (Hc45 : (c =? 45)%N = false) by (apply N.eqb_neq; unfold digit in Hc; lia).
  assert (H48 : c = 48%N /\ ds = [] \/
                (49 <=? c)%N = true /\ (c <=? 57)%N = true).
  { destruct (N.eq_dec c 48%N) as [E|E]; [left; auto|right].
    split; apply N.leb_le; unfold digit in Hc; lia. }
  unfold match_number. destruct neg; cbn [sign app].
  - change (45 =? 45)%N with true. cbv iota beta.
    destruct H48 as [[-> ->]|[H49 H57]].
    + exact (Htail [48%N]).
    + rewrite H49, H57, span_digits_app by assumption.
      cbn [andb mbind option_bind]. apply Htail.
  - rewrite Hc45. cbv iota beta.
    destruct H48 as [[-> ->]|[H49 H57]].
    + exact (Htail [48%N]).
    + rewrite H49, H57, span_digits_app by assumption.
      cbn [andb mbind option_bind]. apply Htail.
Qed.

Lemma scan_once_literal (n : nat) (neg : bool) (c : char) (ds rest : str) :
  literal c ds -> stops rest ->
  scan_once (S n) (sign neg ++ c :: ds ++ rest)
  = Some (JInt (signed neg (digits_value (c :: ds))), rest).
Proof.
  intros Hl Hrest. pose proof (match_number_literal neg c ds rest Hl Hrest) as Hm.
  destruct Hl as (Hc & _). unfold digit in Hc.
  destruct neg; cbn [sign app] in *; cbn [scan_once].
  - change (45 =? 34)%N with false. change (45 =? 123)%N with false.
    change (45 =? 91)%N with false. change (45 =? 110)%N with false.
    change (45 =? 116)%N with false. change (45 =? 102)%N with false.
    change (45 =? 78)%N with false. change (45 =? 73)%N with false.
    change (45 =? 45)%N with true. cbv iota.
    unfold constant.
    change (py "-Infinity")
      with [45; 73; 110; 102; 105; 110; 105; 116; 121]%N.
    cbn [strip_prefix]. change (45 =? 45)%N with true. cbv iota.
    destruct (N.eqb_spec 73 c) as [E|_]; [lia|]. exact Hm.
  - repeat match goal with
           | |- context [(c =? ?k)%N] =>
               destruct (N.eqb_spec c k) as [E|_]; [lia|]
           end.
    exact Hm.
Qed.

Lemma scan_once_int (n : nat) (z : Z) (rest : str) :
  stops rest -> scan_once (S n) (str_of_int z ++ rest) = Some (JInt z, rest).
Proof.
  intros Hrest. destruct (str_of_int_shape z) as (neg & c & ds & -> & Hl & Hz).
  rewrite <- app_assoc. cbn [app]. rewrite scan_once_literal by assumption.
  now rewrite <- Hz.
Qed.

(** A literal starts with a character that is no white space, for the
    JSON grammar and for [str.split]. *)
Lemma literal_head (z : Z) (rest : str) :
  exists c r, str_of_int z ++ rest = c :: r /\
              (c = 45%N \/ digit c).
Proof.
  destruct (str_of_int_shape z) as (neg & c & ds & -> & (Hc & _) & _).
  destruct neg; cbn [sign app]; eauto.
Qed.

Lemma skip_ws_literal (z : Z) (rest : str) :
  skip_ws (str_of_int z ++ rest) = str_of_int z ++ rest.
Proof.
  destruct (literal_head z rest) as (c & r & -> & Hc).
  unfold skip_ws. cbn [dropwhile].
  assert (is_ws c = false) as ->; [|reflexivity].
  unfold is_ws, digit in *.
  destruct (N.eqb_spec c 32), (N.eqb_spec c 9), (N.eqb_spec c 10),
    (N.eqb_spec c 13); try reflexivity; lia.
Qed.

Lemma stops_separator (spaced : bool) (rest : str) :
  stops (separator spaced ++ rest).
Proof.
  destruct spaced; cbn; unfold digit; repeat split; try lia; discriminate.
Qed.

Lemma skip_ws_separator (spaced : bool) (rest : str) :
  exists r', skip_ws (separator spaced ++ rest) = 44%N :: r' /\
             skip_ws r' = skip_ws rest.
Proof.
  destruct spaced.
  - exists (32%N :: rest). split; reflexivity.
  - exists rest. split; reflexivity.
Qed.

Lemma array_items_more (n : nat) (spaced : bool) (z : Z) (rest : str) :
  skip_ws rest = rest ->
  array_items (S (S n)) (str_of_int z ++ separator spaced ++ rest)
  = '(vs, t) ← array_items (S n) rest; Some (JInt z :: vs, t).
Proof.
  intros Hrest.
  pose proof (scan_once_int n z _ (stops_separator spaced rest)) as Hscan.
  destruct (skip_ws_separator spaced rest) as (r' & Hsep & Hr').
  remember (S n) as m eqn:Hm. cbn [array_items].
  rewrite Hscan. cbn [mbind option_bind]. rewrite Hsep.
  change (44 =? 93)%N with false. change (44 =? 44)%N with true. cbv iota.
  now rewrite Hr', Hrest.
Qed.

Lemma array_items_last (n : nat) (z : Z) :
  array_items (S (S n)) (str_of_int z ++ py "]") = Some ([JInt z], []).
Proof.
  assert (Hstop : stops (py "]")).
  { cbn. unfold digit. repeat split; try lia; discriminate. }
  pose proof (scan_once_int n z _ Hstop) as Hscan.
  remember (S n) as m eqn:Hm. cbn [array_items].
  rewrite Hscan. reflexivity.
Qed.

(** The JSON notation decodes to the four integers. *)
Lemma loads_bbox_json (spaced : bool) (b0 b1 b2 b3 : Z) :
  Json.loads (bbox_json spaced b0 b1 b2 b3)
  = Ok (JList [JInt b0; JInt b1; JInt b2; JInt b3]).
Proof.
  unfold Json.loads, bbox_json. fold (separator spaced).
  change (py "[") with [91%N]. cbn [app].
  destruct (literal_head b0 (separator spaced ++ str_of_int b1 ++
              separator spaced ++ str_of_int b2 ++ separator spaced ++
              str_of_int b3 ++ py "]")) as (c & r & Hcr & Hc).
  pose proof (skip_ws_literal b0 (separator spaced ++ str_of_int b1 ++
              separator spaced ++ str_of_int b2 ++ separator spaced ++
              str_of_int b3 ++ py "]")) as Hskip.
  remember (str_of_int b0 ++ separator spaced ++ str_of_int b1 ++
              separator spaced ++ str_of_int b2 ++ separator spaced ++
              str_of_int b3 ++ py "]") as t eqn:Ht.
  assert (Hfuel : exists k, (2 * length (91%N :: t) + 2 = 6 + k)%nat).
  { exists (2 * length t - 2)%nat. rewrite Hcr. cbn [length]. unfold char. lia. }
  destruct Hfuel as [k Hk].
  change (skip_ws (91%N :: t)) with (91%N :: t).
  match goal with
  | |- context [scan_once ?f _] =>
      replace f with (S (5 + k)) by (symmetry; exact Hk)
  end.
  remember (5 + k)%nat as m eqn:Hm. cbn [scan_once].
  change (91 =? 34)%N with false. change (91 =? 123)%N with false.
  change (91 =? 91)%N with true. cbv iota.
  rewrite Hskip, Hcr.
  assert (H93 : (c =? 93)%N = false).
  { apply N.eqb_neq. unfold digit in Hc. lia. }
  rewrite H93. rewrite <- Hcr. subst m t.
  change (5 + k)%nat with (S (S (3 + k))).
  rewrite array_items_more by apply skip_ws_literal.
  change (S (3 + k)) with (S (S (2 + k))).
  rewrite array_items_more by apply skip_ws_literal.
  change (S (2 + k)) with (S (S (1 + k))).
  rewrite array_items_more by apply skip_ws_literal.
  change (S (1 + k)) with (S (S k)).
  rewrite array_items_last. reflexivity.
Qed.

(** *** The notation with spaces *)

(** A text with something after its first JSON value is no JSON text. *)
Lemma loads_extra_data (s : str) (v : value) (rest : str) (c : char) (r : str) :
  scan_once (2 * length s + 2) (skip_ws s) = Some (v, rest) ->
  skip_ws rest = c :: r ->
  Json.loads s = Raise JSONDecodeError.
Proof.
  intros Hscan Hrest. destruct (Json.loads s) as [v'|e] eqn:E.
  - exfalso. unfold Json.loads in E. rewrite Hscan, Hrest in E.
    repeat match type of E with
           | match ?x with _ => _ end = _ => destruct x
           end; discriminate.
  - f_equal. unfold Json.loads in E. rewrite Hscan, Hrest in E.
    repeat match type of E with
           | match ?x with _ => _ end = _ => destruct x
           end; congruence.
Qed.

Lemma not_space (c : char) : c = 45%N \/ digit c -> isspace c = false.
Proof.
  unfold digit, isspace. intros Hc.
  repeat match goal with
         | |- context [(?a <=? ?b)%N] => destruct (N.leb_spec a b); try lia
         | |- context [(?a =? ?b)%N] => destruct (N.eqb_spec a b); try lia
         end; reflexivity.
Qed.

Lemma str_of_int_chars (z : Z) :
  Forall (fun c => c = 45%N \/ digit c) (str_of_int z) /\ str_of_int z <> [].
Proof.
  destruct (str_of_int_shape z) as (neg & c & ds & -> & (Hc & Hds & _) & _).
  split; [|destruct neg; discriminate].
  assert (Hrest : Forall (fun c => c = 45%N \/ digit c) (c :: ds)).
  { constructor; [now right|]. eapply Forall_impl; [exact Hds|]. now right. }
  destruct neg; cbn [sign app]; [constructor; [now left|]|]; exact Hrest.
Qed.

Lemma split_ws_aux_token (cur tok rest : str) :
  Forall (fun c => isspace c = false) tok ->
  split_ws_aux cur (tok ++ rest) = split_ws_aux (rev tok ++ cur) rest.
Proof.
  intros H. revert cur. induction H as [|c tok Hc _ IH]; intros cur;
    [reflexivity|].
  cbn [app split_ws_aux rev]. rewrite Hc, IH, <- app_assoc. reflexivity.
Qed.

Lemma split_ws_literal (z : Z) (rest : str) :
  split_ws (str_of_int z ++ py " " ++ rest) = str_of_int z :: split_ws rest.
Proof.
  destruct (str_of_int_chars z) as [Hch Hne].
  unfold split_ws. rewrite split_ws_aux_token.
  2:{ eapply Forall_impl; [exact Hch|]. apply not_space. }
  rewrite app_nil_r. change (py " " ++ rest) with (32%N :: rest).
  cbn [split_ws_aux]. change (isspace 32%N) with true. cbv iota.
  destruct (rev (str_of_int z)) as [|c r] eqn:E.
  - apply (f_equal (@rev _)) in E. rewrite rev_involutive in E. contradiction.
  - rewrite <- E, rev_involutive. reflexivity.
Qed.

Lemma split_ws_last (z : Z) : split_ws (str_of_int z) = [str_of_int z].
Proof.
  destruct (str_of_int_chars z) as [Hch Hne].
  unfold split_ws. rewrite <- (app_nil_r (str_of_int z)) at 1.
  rewrite split_ws_aux_token.
  2:{ eapply Forall_impl; [exact Hch|]. apply not_space. }
  rewrite app_nil_r. cbn [split_ws_aux].
  destruct (rev (str_of_int z)) as [|c r] eqn:E.
  - apply (f_equal (@rev _)) in E. rewrite rev_involutive in E. contradiction.
  - rewrite <- E, rev_involutive. reflexivity.
Qed.

(** *** [int] on a literal *)

Lemma dropwhile_none {A : Type} (p : A -> bool) (s : list A) :
  Forall (fun c => p c = false) s -> dropwhile p s = s.
Proof. intros [|c r Hc _]; [reflexivity|]. cbn [dropwhile]. now rewrite Hc. Qed.

Lemma digit_value_digit (c : char) :
  digit c -> digit_value c = Some (Z.of_N (c - 48)).
Proof.
  unfold digit. intros [H1 H2]. unfold digit_value, digit_zeros.
  cbn [List.find]. change (48 + 9)%N with 57%N.
  apply N.leb_le in H1, H2. now rewrite H1, H2.
Qed.

Lemma int_digits_digits (ds : str) (acc : Z) (prev : bool) :
  Forall digit ds -> ds <> [] \/ prev = true ->
  int_digits acc prev ds
  = Some (fold_left (fun a c => 10 * a + Z.of_N (c - 48)) ds acc).
Proof.
  intros Hds. revert acc prev.
  induction Hds as [|c ds Hc _ IH]; intros acc prev Hne.
  - destruct Hne as [Hne| ->]; [congruence | reflexivity].
  - cbn [int_digits fold_left].
    assert (H95 : (c =? 95)%N = false)
      by (apply N.eqb_neq; unfold digit in Hc; lia).
    rewrite H95, (digit_value_digit c Hc). apply IH. now right.
Qed.

Lemma int_of_str_literal (z : Z) : int_of_str (str_of_int z) = Ok z.
Proof.
  destruct (str_of_int_chars z) as [Hch _].
  assert (Hsp : Forall (fun c => int_space c = false) (str_of_int z)).
  { eapply Forall_impl; [exact Hch|]. intros c Hc. unfold int_space.
    now rewrite (not_space c Hc). }
  unfold int_of_str.
  rewrite (dropwhile_none _ _ Hsp), dropwhile_none, rev_involutive
    by now apply List.Forall_rev.
  destruct (str_of_int_shape z) as (neg & c & ds & -> & (Hc & Hds & _) & Hz).
  assert (Hd : int_digits 0 false (c :: ds) = Some (digits_value (c :: ds))).
  { apply int_digits_digits; [now constructor | left; discriminate]. }
  destruct neg; cbn [sign app].
  - change (45 =? 45)%N with true. cbv iota. rewrite Hd. now rewrite Hz.
  - assert (H45 : (c =? 45)%N = false)
      by (apply N.eqb_neq; unfold digit in Hc; lia).
    assert (H43 : (c =? 43)%N = false)
      by (apply N.eqb_neq; unfold digit in Hc; lia).
    rewrite H45, H43. rewrite Hd. now rewrite Hz.
Qed.

(** The notation with spaces is no JSON text, and splits into the four
    literals. *)
Lemma loads_bbox_spaces (b0 b1 b2 b3 : Z) :
  Json.loads (bbox_spaces b0 b1 b2 b3) = Raise JSONDecodeError.
Proof.
  unfold bbox_spaces.
  destruct (literal_head b1 (py " " ++ str_of_int b2 ++ py " " ++ str_of_int b3))
    as (c & r & Hcr & _).
  apply (loads_extra_data _ (JInt b0)
           (py " " ++ str_of_int b1 ++ py " " ++ str_of_int b2 ++ py " "
              ++ str_of_int b3) c r).
  - rewrite skip_ws_literal.
    replace (2 * length _ + 2)%nat with (S (2 * length
      (str_of_int b0 ++ py " " ++ str_of_int b1 ++ py " " ++ str_of_int b2
         ++ py " " ++ str_of_int b3) + 1)) by (unfold char; lia).
    apply scan_once_int. cbn. unfold digit. repeat split; try lia; discriminate.
  - change (py " " ++ ?x) with (32%N :: x). cbn [skip_ws dropwhile].
    change (is_ws 32%N) with true. cbv iota. fold (skip_ws (str_of_int b1 ++
      py " " ++ str_of_int b2 ++ py " " ++ str_of_int b3)).
    rewrite skip_ws_literal. exact Hcr.
Qed.

Lemma split_bbox_spaces (b0 b1 b2 b3 : Z) :
  map_result int_of_str (split_ws (bbox_spaces b0 b1 b2 b3))
  = Ok [b0; b1; b2; b3].
Proof.
  unfold bbox_spaces.
  rewrite !split_ws_literal, split_ws_last. cbn [map_result].
  rewrite !int_of_str_literal. reflexivity.
Qed.

(** Both notations read as the list of the four integers. *)
Lemma parse_bbox_json (spaced : bool) (b0 b1 b2 b3 : Z) :
  parse_bbox (Some (bbox_json spaced b0 b1 b2 b3))
  = Ok (JList [JInt b0; JInt b1; JInt b2; JInt b3]).
Proof.
  pose proof (loads_bbox_json spaced b0 b1 b2 b3) as Hl.
  unfold parse_bbox.
  destruct (bbox_json spaced b0 b1 b2 b3) as [|c s] eqn:E; [discriminate|].
  rewrite Hl. reflexivity.
Qed.

Lemma parse_bbox_spaces (b0 b1 b2 b3 : Z) :
  parse_bbox (Some (bbox_spaces b0 b1 b2 b3))
  = Ok (JList [JInt b0; JInt b1; JInt b2; JInt b3]).
Proof.
  pose proof (loads_bbox_spaces b0 b1 b2 b3) as Hl.
  pose proof (split_bbox_spaces b0 b1 b2 b3) as Hs.
  unfold parse_bbox.
  destruct (bbox_spaces b0 b1 b2 b3) as [|c s] eqn:E.
  - discriminate.
  - rewrite Hl, Hs. reflexivity.
Qed.

(** A [div] whose attribute reads as four integers is processed as
    their box. *)
Lemma layout_block_of_box ws hs W H div (b0 b1 b2 b3 : Z) :
  parse_bbox (get div (py "data-bbox"))
    = Ok (JList [JInt b0; JInt b1; JInt b2; JInt b3]) ->
  layout_block ws hs W H div
  = (box ← rescale ws hs W H [b0; b1; b2; b3]; Ok (expected_block div box)).
Proof.
  intros Hp. unfold layout_block. rewrite Hp.
  cbn [mbind result_bind truthy negb iter map_result Value.int].
  destruct (rescale ws hs W H [b0; b1; b2; b3]) as [[[[x1 y1] w] h]|e];
    [|reflexivity].
  cbn [mbind result_bind]. unfold expected_block.
  destruct ((w <=? 0) || (h <=? 0)); [reflexivity|].
  now destruct (get_text (py " ") div).
Qed.

Lemma parse_bbox_denotes div (b0 b1 b2 b3 : Z) :
  denotes div b0 b1 b2 b3 ->
  parse_bbox (get div (py "data-bbox"))
    = Ok (JList [JInt b0; JInt b1; JInt b2; JInt b3]).
Proof.
  intros [[spaced ->] | ->]; [apply parse_bbox_json | apply parse_bbox_spaces].
Qed.

End BboxFacts.

Module BboxProps.
Import Json Value Bs4 Float Chandra PyFacts ParserFacts ParserProps BboxFacts.

(** X6.  The two notations of a box are read alike.  For all integers
    [b0], [b1], [b2], [b3] within the range of literals that the
    interpreter converts, the JSON array [[b0, b1, b2, b3]], with or
    without a space after the commas, and the text [b0 b1 b2 b3] with
    single spaces both give the list of these four integers, the second
    after the JSON attempt has failed with a decoding error; and a
    [div] whose [data-bbox] attribute is either text gives the block,
    if any, of the box rescaled from these integers. *)
Theorem bbox_notations_agree (spaced : bool) (b0 b1 b2 b3 : Z) :
  convertible b0 -> convertible b1 -> convertible b2 -> convertible b3 ->
  parse_bbox (Some (bbox_json spaced b0 b1 b2 b3))
    = Ok (JList [JInt b0; JInt b1; JInt b2; JInt b3]) /\
  Json.loads (bbox_spaces b0 b1 b2 b3) = Raise JSONDecodeError /\
  parse_bbox (Some (bbox_spaces b0 b1 b2 b3))
    = Ok (JList [JInt b0; JInt b1; JInt b2; JInt b3]) /\
  forall width_scaler height_scaler image_width image_height div,
    get div (py "data-bbox") = Some (bbox_json spaced b0 b1 b2 b3) \/
    get div (py "data-bbox") = Some (bbox_spaces b0 b1 b2 b3) ->
    layout_block width_scaler height_scaler image_width image_height div
    = (box ← rescale width_scaler height_scaler image_width image_height
               [b0; b1; b2; b3];
       Ok (expected_block div box)).
Proof.
  intros _ _ _ _.
  split; [apply parse_bbox_json|]. split; [apply loads_bbox_spaces|].
  split; [apply parse_bbox_spaces|].
  intros ws hs W H div Hget. apply layout_block_of_box.
  destruct Hget as [-> | ->]; [apply parse_bbox_json | apply parse_bbox_spaces].
Qed.

Lemma bbox_notations_agree_witness :
  bbox_json false 0 0 512 512 = py "[0,0,512,512]" /\
  bbox_json true 0 0 512 512 = py "[0, 0, 512, 512]" /\
  bbox_spaces 0 0 512 512 = py "0 0 512 512" /\
  parse_bbox (Some (py "[0, 0, 512, 512]"))
    = Ok (JList [JInt 0; JInt 0; JInt 512; JInt 512]) /\
  parse_bbox (Some (py "0 0 512 512"))
    = Ok (JList [JInt 0; JInt 0; JInt 512; JInt 512]).
Proof.
  split; [vm_compute; reflexivity|]. split; [vm_compute; reflexivity|].
  split; [vm_compute; reflexivity|].
  assert (H0 : convertible 0) by (vm_compute; reflexivity).
  assert (H512 : convertible 512) by (vm_compute; reflexivity).
  destruct (bbox_notations_agree true 0 0 512 512 H0 H0 H512 H512)
    as (Hjson & _ & Hspaces & _).
  split; [exact Hjson | exact Hspaces].
Defined.

Lemma find_all_has_bbox (nodes : list node) :
  find_all (py "div") (List.filter has_bbox nodes) = List.filter has_bbox nodes.
Proof.
  unfold find_all. induction nodes as [|n nodes IH]; [reflexivity|].
  cbn [List.filter]. destruct (has_bbox n) eqn:Hn; [|exact IH].
  cbn [List.filter]. unfold has_bbox in Hn. apply andb_true_iff in Hn as [-> _].
  now rewrite IH.
Qed.

Lemma map_result_all {A B} (f : A -> result B) (l : list A) (bs : list B) :
  Forall2 (fun a b => f a = Ok b) l bs -> map_result f l = Ok bs.
Proof.
  induction 1 as [|a b l bs Hab _ IH]; [reflexivity|].
  cbn [map_result]. now rewrite Hab, IH.
Qed.

(** X7.  Markup that follows the prompt is parsed without an exception,
    and the result is determined.  For an image of less than [2 ^ 43]
    pixels a side, when the [data-bbox] attribute of every top-level
    [div] that has one is a box on the grid in one of the two
    notations, [parse_layout_blocks] returns, in document order, the
    block of each such [div]: its box is the grid box scaled to the
    image and rounded down, and the [div]s whose box or text is empty
    give none. *)
Theorem well_formed_markup_parses (doc : html) (image_width image_height : Z)
    (found : list (option Block.t)) :
  0 < image_width < 2 ^ 43 -> 0 < image_height < 2 ^ 43 ->
  Forall2 (fun div ob =>
     exists b0 b1 b2 b3,
       denotes div b0 b1 b2 b3 /\ on_grid b0 b1 b2 b3 /\
       ob = expected_block div
              (grid_box image_width image_height b0 b1 b2 b3))
    (List.filter has_bbox (tree doc)) found ->
  parse_layout_blocks true doc image_width image_height = Ok (omap id found).
Proof.
  intros HW HH Hall.
  assert (H43 : 2 ^ 43 = 8796093022208) by reflexivity.
  destruct (FloatFacts.scaled_exact 0 image_width) as (ws & Hws & _).
  { reflexivity. }
  { change (2 ^ 53) with 9007199254740992. lia. }
  { rewrite Z.mul_0_l. reflexivity. }
  destruct (FloatFacts.scaled_exact 0 image_height) as (hs & Hhs & _).
  { reflexivity. }
  { change (2 ^ 53) with 9007199254740992. lia. }
  { rewrite Z.mul_0_l. reflexivity. }
  unfold parse_layout_blocks. cbn [negb]. rewrite Hws, Hhs.
  cbn [mbind result_bind].
  rewrite <- layout_blocks_has_bbox, find_all_has_bbox, layout_blocks_traverse.
  rewrite (map_result_all _ _ found); [reflexivity|].
  eapply Forall2_impl; [exact Hall|].
  intros div ob (b0 & b1 & b2 & b3 & Hden & (H02 & H2 & H13 & H3) & ->).
  rewrite (layout_block_of_box _ _ _ _ _ b0 b1 b2 b3)
    by now apply parse_bbox_denotes.
  rewrite (rescale_on_grid _ _ _ _ b0 b1 b2 b3) by (assumption || lia).
  reflexivity.
Qed.

Lemma well_formed_markup_parses_witness :
  List.filter has_bbox (tree Examples.scenario_a) = tree Examples.scenario_a /\
  parse_layout_blocks true Examples.scenario_a 1000 500
    = Ok [Block.Make (py "Hello") 0 0 500 250 (py "Text") false].
Proof.
  split; [vm_compute; reflexivity|].
  apply (well_formed_markup_parses Examples.scenario_a 1000 500
           [Some (Block.Make (py "Hello") 0 0 500 250 (py "Text") false)]).
  - split; reflexivity.
  - split; reflexivity.
  - constructor; [|constructor].
    exists 0, 0, 512, 512. split; [|split].
    + left. exists false. vm_compute. reflexivity.
    + unfold on_grid. lia.
    + vm_compute. reflexivity.
Defined.

End BboxProps.

(** ** Further properties of the plain extraction *)

Module FallbackProps.
Import Json Value Bs4 Float Chandra PyFacts StrFacts Bs4Facts.

(** *** The pattern of a tag *)

Lemma has_gt_split (r : str) :
  existsb (N.eqb 62) r = true ->
  exists body suf, r = body ++ 62%N :: suf /\ Forall (fun c => c <> 62%N) body.
Proof.
  induction r as [|c r IH]; cbn [existsb]; [discriminate|].
  destruct (N.eqb_spec 62 c) as [<-|Hc]; cbn [orb].
  - intros _. exists [], r. split; [reflexivity | constructor].
  - intros H. destruct (IH H) as (body & suf & -> & Hb).
    exists (c :: body), suf. split; [reflexivity|]. constructor; [congruence|exact Hb].
Qed.

Lemma has_gt_app (a b : str) :
  existsb (N.eqb 62) b = true -> existsb (N.eqb 62) (a ++ b) = true.
Proof.
  intros H. induction a as [|c a IH]; [exact H|].
  cbn [app existsb]. rewrite IH. apply orb_true_r.
Qed.

(** [tagged] computes [has_tag]. *)
Lemma tagged_has_tag (s : str) : tagged s = true <-> has_tag s.
Proof.
  split.
  - induction s as [|c s IH]; cbn [tagged]; [discriminate|].
    intros H. apply orb_true_iff in H as [H|H].
    + apply andb_true_iff in H as [Hc Ho]. apply N.eqb_eq in Hc as ->.
      destruct s as [|d s]; [discriminate|]. cbn [opens_tag] in Ho.
      apply andb_true_iff in Ho as [Hd Hgt].
      destruct (has_gt_split _ Hgt) as (body & suf & -> & Hb).
      exists [], (d :: body), suf. split; [reflexivity|]. split; [discriminate|].
      constructor; [|exact Hb].
      intros ->. discriminate.
    + destruct (IH H) as (pre & body & suf & -> & Hne & Hb).
      exists (c :: pre), body, suf. auto.
  - intros (pre & body & suf & -> & Hne & Hb).
    induction pre as [|c pre IH]; cbn [app tagged].
    + destruct body as [|d body]; [congruence|]. cbn [app opens_tag].
      inversion Hb as [|? ? Hd Hb']; subst.
      destruct (N.eqb_spec d 62) as [|_]; [contradiction|].
      rewrite has_gt_app; [reflexivity|]. reflexivity.
    + cbn [app] in IH. rewrite IH. apply orb_true_r.
Qed.

Lemma not_tagged (s : str) : tagged s = false -> ~ has_tag s.
Proof. intros H Ht. apply tagged_has_tag in Ht. congruence. Qed.

Lemma tagged_app (a b : str) :
  tagged (a ++ b) = false -> tagged a = false /\ tagged b = false.
Proof.
  intros H. split.
  - destruct (tagged a) eqn:Ha; [|reflexivity].
    apply tagged_has_tag in Ha as (pre & body & suf & -> & Hne & Hb).
    assert (Ht : has_tag ((pre ++ [60%N] ++ body ++ [62%N] ++ suf) ++ b)).
    { exists pre, body, (suf ++ b). split; [|auto].
      now rewrite <- !app_assoc. }
    apply tagged_has_tag in Ht. destruct (eq_true_false_abs _ Ht H).
  - induction a as [|c a IH]; [exact H|]. cbn [app tagged] in H.
    apply orb_false_iff in H as [_ H]. exact (IH H).
Qed.

(** *** The substitution of the tags *)

Lemma sub_tags_no_gt (inside : bool) (s : str) :
  existsb (N.eqb 62) s = false -> existsb (N.eqb 62) (sub_tags inside s) = false.
Proof.
  revert inside.
  induction s as [|c s IH]; intros inside; cbn [existsb sub_tags];
    [reflexivity|].
  intros H. apply orb_false_iff in H as [Hc Hs].
  rewrite N.eqb_sym in Hc. rewrite Hc. destruct inside; [now apply IH|].
  destruct ((c =? 60)%N && opens_tag s); cbn [existsb].
  - now apply IH.
  - rewrite N.eqb_sym, Hc. now apply IH.
Qed.

Lemma opens_tag_false (r : str) :
  opens_tag r = false ->
  match r with
  | [] => True
  | c :: r' => c = 62%N \/ existsb (N.eqb 62) r' = false
  end.
Proof.
  destruct r as [|c r']; [trivial|]. cbn [opens_tag]. intros H.
  apply andb_false_iff in H as [H|H]; [left|now right].
  apply negb_false_iff, N.eqb_eq in H. exact H.
Qed.

Lemma opens_tag_sub_tags (r : str) :
  opens_tag r = false -> opens_tag (sub_tags false r) = false.
Proof.
  intros H. pose proof (opens_tag_false r H) as Hr.
  destruct r as [|c r']; [reflexivity|]. destruct Hr as [->|Hgt].
  - reflexivity.
  - cbn [sub_tags].
    assert (Ho : opens_tag r' = false).
    { destruct r' as [|d r'']; [reflexivity|]. cbn [opens_tag existsb] in *.
      apply orb_false_iff in Hgt as [_ ->]. apply andb_false_r. }
    rewrite Ho, andb_false_r. cbn [opens_tag].
    rewrite (sub_tags_no_gt false r' Hgt). apply andb_false_r.
Qed.

Lemma tagged_sub_tags (inside : bool) (s : str) :
  tagged (sub_tags inside s) = false.
Proof.
  revert inside. induction s as [|c s IH]; intros inside; [reflexivity|].
  cbn [sub_tags]. destruct inside.
  - destruct (c =? 62)%N; apply IH.
  - destruct ((c =? 60)%N && opens_tag s) eqn:Hc; cbn [tagged].
    + rewrite IH. reflexivity.
    + rewrite IH, orb_false_r.
      apply andb_false_iff in Hc as [Hc|Hc]; [now rewrite Hc|].
      rewrite (opens_tag_sub_tags s Hc). apply andb_false_r.
Qed.

Lemma sub_tags_fixed (s : str) : tagged s = false -> sub_tags false s = s.
Proof.
  induction s as [|c s IH]; [reflexivity|]. cbn [tagged sub_tags].
  intros H. apply orb_false_iff in H as [Hc Hs]. now rewrite Hc, IH.
Qed.

(** *** The collapse of white space *)

Lemma gt_not_space (c : char) : isspace c = true -> (62 =? c)%N = false.
Proof. destruct (N.eqb_spec 62 c) as [<-|]; [discriminate | reflexivity]. Qed.

Lemma sub_spaces_no_gt (after_space : bool) (s : str) :
  existsb (N.eqb 62) s = false ->
  existsb (N.eqb 62) (sub_spaces after_space s) = false.
Proof.
  revert after_space.
  induction s as [|c s IH]; intros b; cbn [existsb sub_spaces]; [reflexivity|].
  intros H. apply orb_false_iff in H as [Hc Hs].
  destruct (isspace c); [destruct b|]; cbn [existsb]; rewrite ?Hc;
    now apply IH.
Qed.

Lemma opens_tag_sub_spaces (r : str) :
  opens_tag r = false -> opens_tag (sub_spaces false r) = false.
Proof.
  intros H. pose proof (opens_tag_false r H) as Hr.
  destruct r as [|c r']; [reflexivity|]. destruct Hr as [->|Hgt].
  - reflexivity.
  - cbn [sub_spaces]. destruct (isspace c); cbn [opens_tag];
      rewrite sub_spaces_no_gt by exact Hgt; apply andb_false_r.
Qed.

Lemma tagged_sub_spaces (after_space : bool) (s : str) :
  tagged s = false -> tagged (sub_spaces after_space s) = false.
Proof.
  revert after_space. induction s as [|c s IH]; intros b; [reflexivity|].
  cbn [tagged sub_spaces]. intros H. apply orb_false_iff in H as [Hc Hs].
  destruct (isspace c) eqn:Hsp.
  - destruct b; [now apply IH|]. cbn [tagged]. now rewrite IH.
  - cbn [tagged]. rewrite IH, orb_false_r by exact Hs.
    apply andb_false_iff in Hc as [Hc|Hc]; [now rewrite Hc|].
    rewrite (opens_tag_sub_spaces s Hc). apply andb_false_r.
Qed.

(** A string is single spaced when a white space character at its head
    is followed by a word, and so on. *)
Lemma single_spaced_cons (c : char) (r : str) :
  single_spaced (c :: r) <->
  (isspace c = true -> word_next r) /\ single_spaced r.
Proof.
  unfold single_spaced. split.
  - intros H. split.
    + intros Hc. destruct r as [|d r]; [exact I|]. exact (H [] c d r eq_refl Hc).
    + intros pre x y suf ->. exact (H (c :: pre) x y suf eq_refl).
  - intros [Hh Hr] pre x y suf E Hx.
    destruct pre as [|p pre]; injection E as -> ->.
    + exact (Hh Hx).
    + exact (Hr pre x y suf eq_refl Hx).
Qed.

Lemma single_spaced_nil : single_spaced [].
Proof. intros [|p pre] c d suf E; discriminate. Qed.

Lemma single_spaced_app (a s b : str) :
  single_spaced (a ++ s ++ b) -> single_spaced s.
Proof.
  intros H pre c d suf ->. apply (H (a ++ pre) c d (suf ++ b)).
  now rewrite <- !app_assoc.
Qed.

Lemma sub_spaces_single (after_space : bool) (s : str) :
  single_spaced (sub_spaces after_space s) /\
  (after_space = true -> word_next (sub_spaces after_space s)).
Proof.
  revert after_space. induction s as [|c s IH]; intros b.
  - split; [apply single_spaced_nil | now intros _].
  - cbn [sub_spaces]. destruct (isspace c) eqn:Hc.
    + destruct b; [apply IH|]. split; [|discriminate].
      apply single_spaced_cons. split; [intros _|]; now apply IH.
    + split; [|intros _; exact Hc].
      apply single_spaced_cons. split; [congruence | apply IH].
Qed.

Lemma sub_spaces_fixed (after_space : bool) (s : str) :
  (after_space = true -> word_next s) ->
  Forall (fun c => isspace c = true -> c = 32%N) s -> single_spaced s ->
  sub_spaces after_space s = s.
Proof.
  revert after_space. induction s as [|c s IH]; intros b Hb Hall Hs;
    [reflexivity|].
  inversion Hall as [|? ? Hc Hall']; subst.
  apply single_spaced_cons in Hs as [Hh Hs]. cbn [sub_spaces].
  destruct (isspace c) eqn:Hsp.
  - destruct b; [specialize (Hb eq_refl); cbn [word_next] in Hb; congruence|].
    rewrite (Hc eq_refl). f_equal. apply IH; auto.
  - f_equal. apply IH; [discriminate | exact Hall' | exact Hs].
Qed.

Lemma strip_infix (s : str) : exists a b, s = a ++ strip s ++ b.
Proof.
  destruct (dropwhile_suffix isspace s) as [a Ha].
  destruct (rstrip_prefix (lstrip s)) as [b Hb].
  exists a, b. unfold strip. fold (lstrip s) in Ha. now rewrite <- Hb.
Qed.

(** The text of the degraded strategy holds no tag and its white space
    is normalised. *)
Lemma extract_degraded_clean (raw_html : str) :
  ~ has_tag (fst (extract_degraded raw_html)) /\
  normalised (fst (extract_degraded raw_html)).
Proof.
  unfold extract_degraded. cbn [fst].
  set (t := sub_spaces false (sub_tags false raw_html)).
  destruct (strip_infix t) as (a & b & Ht).
  split.
  - apply not_tagged.
    assert (H : tagged t = false) by apply tagged_sub_spaces, tagged_sub_tags.
    rewrite Ht in H. apply tagged_app in H as [_ H].
    now apply tagged_app in H as [H _].
  - split; [apply strip_trimmed|]. split.
    + apply strip_Forall, FallbackClaims.sub_spaces_only_space.
    + apply (single_spaced_app a _ b). rewrite <- Ht. apply sub_spaces_single.
Qed.

(** A clean text is returned as it is. *)
Lemma extract_degraded_fixed (s : str) :
  ~ has_tag s -> normalised s ->
  extract_degraded s = (s, match s with [] => [] | _ :: _ => [s] end).
Proof.
  intros Htag (Htrim & Hall & Hsingle).
  rewrite FallbackClaims.extract_degraded_lines. cbv zeta.
  assert (Ht : tagged s = false).
  { destruct (tagged s) eqn:E; [|reflexivity].
    apply tagged_has_tag in E. contradiction. }
  rewrite (sub_tags_fixed s Ht), (sub_spaces_fixed false s); try assumption;
    [|discriminate].
  now rewrite (trimmed_strip s Htrim).
Qed.

(** X8.  The text that the fallback without [bs4] returns holds no tag
    any more (no part of it matches the pattern of a tag: a [<], one
    character or more other than [>], and a [>]), and its white space is
    normalised: none at either end, no white space character other than
    the space, and never two in a row. *)
Theorem degraded_text_is_clean (doc : html) :
  ~ has_tag (fst (extract_text_from_html false doc)) /\
  normalised (fst (extract_text_from_html false doc)).
Proof. apply extract_degraded_clean. Qed.

(** X9.  A text without a tag whose white space is normalised is a
    fixed point of the fallback without [bs4]: it is returned as it is,
    as the only line when it is not empty.  So the fallback is
    idempotent: applied to its own text it returns the same text and
    lines. *)
Theorem degraded_fixed_point (doc : html) :
  (~ has_tag (raw doc) -> normalised (raw doc) ->
   extract_text_from_html false doc
     = (raw doc, match raw doc with [] => [] | _ :: _ => [raw doc] end)) /\
  (forall tree,
     extract_text_from_html false
       (Html (fst (extract_text_from_html false doc)) tree)
     = extract_text_from_html false doc).
Proof.
  split.
  - intros Htag Hnorm. unfold extract_text_from_html.
    now apply extract_degraded_fixed.
  - intros tree. destruct (extract_degraded_clean (raw doc)) as [Htag Hnorm].
    unfold extract_text_from_html in *. cbn [raw].
    rewrite (extract_degraded_fixed _ Htag Hnorm).
    rewrite (FallbackClaims.extract_degraded_lines (raw doc)). reflexivity.
Qed.

Lemma degraded_fixed_point_witness :
  extract_text_from_html false (Html Cases.untidy [])
    = (py "Hello big world a < b", [py "Hello big world a < b"]) /\
  extract_text_from_html false (Html (py "Hello big world a < b") [])
    = (py "Hello big world a < b", [py "Hello big world a < b"]).
Proof.
  split; [vm_compute; reflexivity|].
  assert (E : fst (extract_text_from_html false (Html Cases.untidy []))
              = py "Hello big world a < b") by (vm_compute; reflexivity).
  rewrite <- E at 1.
  rewrite (proj2 (degraded_fixed_point (Html Cases.untidy [])) []).
  vm_compute. reflexivity.
Defined.

End FallbackProps.

(** ** Further properties of the size normaliser *)

Module NormaliserFacts.
Import Json Value Bs4 Float FloatSpec Chandra PyFacts FloatFacts ScaleFacts.

(** The scale of a downscale is below one. *)
Lemma scale_below_one (A B R SS S : Q) :
  (1 <= A)%Q -> (A <= B - 1)%Q -> (B <= 1125899906842624 # 1)%Q ->
  (0 < S)%Q -> (SS == S * S)%Q -> (0 < R)%Q ->
  (R * B <= A * ((1 + bpow (-56)) * (1 + roundoff)))%Q ->
  (SS <= R * ((1 + bpow (-52)) * (1 + bpow (-52))))%Q ->
  (S < 1)%Q.
Proof.
  intros HA HAB HB HS HSS HR Hhi Hph.
  change roundoff with (1 # 9007199254740992)%Q in *.
  change (bpow (-56)) with (1 # 72057594037927936)%Q in *.
  change (bpow (-52)) with (1 # 4503599627370496)%Q in *.
  set (c1 := ((1 + (1 # 72057594037927936)) * (1 + (1 # 9007199254740992)))%Q) in *.
  set (h := ((1 + (1 # 4503599627370496)) * (1 + (1 # 4503599627370496)))%Q) in *.
  assert (Hk : (c1 * h <= 1 + (3 # 4503599627370496))%Q) by (vm_compute; discriminate).
  assert (Hk1 : (1 <= c1 * h)%Q) by (vm_compute; discriminate).
  assert (Hh0 : (0 < h)%Q) by reflexivity.
  assert (Hc0 : (0 < c1)%Q) by reflexivity.
  destruct (Qlt_le_dec S 1) as [|Hge]; [assumption|exfalso].
  assert (H1 : (1 * 1 <= S * S)%Q)
    by (apply Qmult_le_compat_nonneg; split; lra).
  assert (H2 : (1 * B <= SS * B)%Q) by (apply Qmult_le_compat_r; lra).
  assert (H3 : (SS * B <= (R * h) * B)%Q) by (apply Qmult_le_compat_r; lra).
  assert (H4 : ((R * B) * h <= (A * c1) * h)%Q) by (apply Qmult_le_compat_r; lra).
  assert (H5 : (A * (c1 * h) <= (B - 1) * (c1 * h))%Q)
    by (apply Qmult_le_compat_r; lra).
  assert (H6 : ((B - 1) * (c1 * h) <= (B - 1) * (1 + (3 # 4503599627370496)))%Q)
    by (apply Qmult_le_l; lra).
  assert (H7 : (B * (3 # 4503599627370496)
                <= (1125899906842624 # 1) * (3 # 4503599627370496))%Q)
    by (apply Qmult_le_compat_r; [exact HB | discriminate]).
  assert (H8 : ((1125899906842624 # 1) * (3 # 4503599627370496) == 3 # 4)%Q)
    by reflexivity.
  assert (H9 : ((R * h) * B == (R * B) * h)%Q) by ring.
  assert (H10 : ((A * c1) * h == A * (c1 * h))%Q) by ring.
  lra.
Qed.

(** A side scaled by less than one and then truncated does not grow. *)
Lemma side_not_larger (Wq S nw : Q) :
  (1 <= Wq)%Q -> (Wq <= 1125899906842624 # 1)%Q -> (0 < S)%Q -> (S < 1)%Q ->
  (nw <= Wq * S * (1 + roundoff))%Q -> (nw < Wq + 1)%Q.
Proof.
  intros HW HW50 HS HS1 Hnw.
  change roundoff with (1 # 9007199254740992)%Q in *.
  assert (H1 : (Wq * S <= Wq * 1)%Q) by (apply Qmult_le_l; lra).
  assert (H2 : ((Wq * S) * (1 + (1 # 9007199254740992))
                <= (Wq * 1) * (1 + (1 # 9007199254740992)))%Q)
    by (apply Qmult_le_compat_r; [exact H1 | discriminate]).
  assert (H3 : (Wq * (1 # 9007199254740992)
                <= (1125899906842624 # 1) * (1 # 9007199254740992))%Q)
    by (apply Qmult_le_compat_r; [exact HW50 | discriminate]).
  assert (H4 : ((1125899906842624 # 1) * (1 # 9007199254740992) == 1 # 8)%Q)
    by reflexivity.
  lra.
Qed.

(** The two new sides are in the ratio of the old ones, to within the
    truncation of one of them. *)
Lemma aspect_arithmetic (Wq Hq B S nw nh : Q) :
  (1 <= Wq)%Q -> (1 <= Hq)%Q -> (Wq * Hq == B)%Q ->
  (B <= 1125899906842624 # 1)%Q -> (0 < S)%Q -> (S < 1)%Q ->
  (nw <= Wq * S * (1 + roundoff))%Q ->
  (Hq * S * (1 - roundoff) < nh + 1)%Q ->
  (nw * Hq - nh * Wq < Wq + 1)%Q.
Proof.
  intros HW HH HWH HB HS HS1 Hnw Hnh.
  change roundoff with (1 # 9007199254740992)%Q in *.
  set (u := (1 # 9007199254740992)%Q) in *.
  assert (H1 : (nw * Hq <= (Wq * S * (1 + u)) * Hq)%Q)
    by (apply Qmult_le_compat_r; lra).
  assert (H2 : ((Hq * S * (1 - u)) * Wq < (nh + 1) * Wq)%Q)
    by (apply Qmult_lt_compat_r; lra).
  assert (H3 : ((Wq * S * (1 + u)) * Hq - (Hq * S * (1 - u)) * Wq
                == (2 # 1) * u * (B * S))%Q).
  { rewrite <- HWH. ring. }
  assert (HB0 : (0 < B)%Q)
    by (rewrite <- HWH; apply Qmult_lt_0_compat; lra).
  assert (H4 : (B * S <= B * 1)%Q) by (apply Qmult_le_l; lra).
  assert (H5 : ((2 # 1) * u * (B * S) <= (2 # 1) * u * (B * 1))%Q)
    by (apply Qmult_le_l; [reflexivity | exact H4]).
  assert (H6 : ((2 # 1) * u * (B * 1)
                <= (2 # 1) * u * ((1125899906842624 # 1) * 1))%Q).
  { apply Qmult_le_l; [reflexivity|]. apply Qmult_le_compat_r; [exact HB|discriminate]. }
  assert (H7 : ((2 # 1) * u * ((1125899906842624 # 1) * 1) == 1 # 4)%Q)
    by reflexivity.
  lra.
Qed.

(** The new sides of a downscale, with all that the error bounds
    give. *)
Lemma downscale_dims (w : world) (image_path : str)
    (width height max_pixels : Z) (ratio : float) :
  pil_installed w = true ->
  image_size w image_path = Ok (width, height) ->
  0 < width -> 0 < height ->
  0 < max_pixels < width * height -> width * height < 2 ^ 50 ->
  int_truediv max_pixels (width * height) = Ok ratio ->
  pow_half_accurate ratio (libm_pow_half w ratio) ->
  exists nw nh,
    resize_image_if_needed w image_path max_pixels
      = (temp_path ← save_resized w image_path nw nh;
         Ok (temp_path, (nw, nh))) /\
    0 <= nw <= width /\ 0 <= nh <= height /\ nw * nh <= max_pixels /\
    nw * height - nh * width <= width /\ nh * width - nw * height <= height.
Proof.
  intros Hpil Hsize HW HH [HM0 HMT] HT50 Hratio Hacc.
  set (T := width * height) in *.
  change (2 ^ 50) with 1125899906842624 in HT50.
  assert (HWT : width <= T) by (unfold T; nia).
  assert (HHT : height <= T) by (unfold T; nia).
  destruct (div_round_value max_pixels T) as (mr & er & Hdiv & Hlo & Hhi).
  { change (2 ^ 64) with 18446744073709551616. lia. }
  { change (2 ^ 64) with 18446744073709551616. lia. }
  assert (ratio = S754_finite false mr er) as ->.
  { unfold int_truediv in Hratio. destruct (Z.eqb_spec T 0); [lia|].
    destruct (Z.ltb_spec max_pixels 0); [lia|].
    destruct (Z.ltb_spec T 0); [lia|].
    rewrite !Z.abs_eq in Hratio by lia. cbn [xorb] in Hratio.
    rewrite Hdiv in Hratio. congruence. }
  unfold pow_half_accurate in Hacc.
  destruct (libm_pow_half w (S754_finite false mr er))
    as [| | |[|] ms es] eqn:Elibm; try contradiction.
  destruct Hacc as [Hpl Hph].
  assert (HA : (1 <= inject_Z max_pixels)%Q) by now apply inject_Z_pos.
  assert (HAB : (inject_Z max_pixels <= inject_Z T - 1)%Q).
  { change 1%Q with (inject_Z 1). unfold Qminus.
    rewrite <- inject_Z_opp, <- inject_Z_plus, <- Zle_Qle. lia. }
  assert (HB : (inject_Z T <= 1125899906842624 # 1)%Q).
  { change (1125899906842624 # 1)%Q with (inject_Z 1125899906842624).
    rewrite <- Zle_Qle. lia. }
  assert (HWq : (1 <= inject_Z width)%Q) by now apply inject_Z_pos.
  assert (HHq : (1 <= inject_Z height)%Q) by now apply inject_Z_pos.
  assert (HWB : (inject_Z width <= 1125899906842624 # 1)%Q).
  { change (1125899906842624 # 1)%Q with (inject_Z 1125899906842624).
    rewrite <- Zle_Qle. lia. }
  assert (HHB : (inject_Z height <= 1125899906842624 # 1)%Q).
  { change (1125899906842624 # 1)%Q with (inject_Z 1125899906842624).
    rewrite <- Zle_Qle. lia. }
  assert (HWH : (inject_Z width * inject_Z height == inject_Z T)%Q)
    by (unfold T; now rewrite inject_Z_mult).
  assert (HHW : (inject_Z height * inject_Z width == inject_Z T)%Q)
    by (unfold T; rewrite inject_Z_mult; ring).
  pose proof (mag_pos mr er) as HR. pose proof (mag_pos ms es) as HS.
  destruct (scale_range (inject_Z max_pixels) (inject_Z T) (mag mr er)
              (mag ms es * mag ms es) (mag ms es))
    as (HR1 & HS26 & HS2); try assumption; try reflexivity.
  assert (HS1 : (mag ms es < 1)%Q).
  { apply (scale_below_one (inject_Z max_pixels) (inject_Z T) (mag mr er)
             (mag ms es * mag ms es)); try assumption; reflexivity. }
  assert (Hscale : pow_half (libm_pow_half w) (S754_finite false mr er)
                   = NFloat (S754_finite false ms es)).
  { unfold pow_half.
    destruct (SFeqb (S754_finite false mr er) one) eqn:Eone.
    - apply SFeqb_one in Eone. rewrite Eone in HR1. now apply Qlt_irrefl in HR1.
    - now rewrite Elibm. }
  destruct (int_scaled_bounds width ms es)
    as (nw & Hnw & Hnw0 & Hnwle & Hnwlt); try assumption.
  { change (2 ^ 50) with 1125899906842624. lia. }
  destruct (int_scaled_bounds height ms es)
    as (nh & Hnh & Hnh0 & Hnhle & Hnhlt); try assumption.
  { change (2 ^ 50) with 1125899906842624. lia. }
  exists nw, nh. split.
  { unfold resize_image_if_needed. rewrite Hpil, Hsize.
    cbn [negb mbind result_bind]. fold T.
    destruct (Z.leb_spec T max_pixels); [lia|].
    rewrite Hratio. cbn [mbind result_bind]. rewrite Hscale, Hnw.
    cbn [mbind result_bind]. rewrite Hnh. reflexivity. }
  assert (Hnwq : (0 <= inject_Z nw)%Q)
    by (change 0%Q with (inject_Z 0); now rewrite <- Zle_Qle).
  assert (Hnhq : (0 <= inject_Z nh)%Q)
    by (change 0%Q with (inject_Z 0); now rewrite <- Zle_Qle).
  split; [split; [exact Hnw0|]|split; [split; [exact Hnh0|]|split; [|split]]].
  - pose proof (side_not_larger _ _ _ HWq HWB HS HS1 Hnwle) as Hlt.
    change 1%Q with (inject_Z 1) in Hlt.
    rewrite <- inject_Z_plus, <- Zlt_Qlt in Hlt. lia.
  - pose proof (side_not_larger _ _ _ HHq HHB HS HS1 Hnhle) as Hlt.
    change 1%Q with (inject_Z 1) in Hlt.
    rewrite <- inject_Z_plus, <- Zlt_Qlt in Hlt. lia.
  - assert (Hfin : (inject_Z nw * inject_Z nh < inject_Z max_pixels + 1)%Q).
    { apply (budget_arithmetic (inject_Z max_pixels) (inject_Z T) (mag mr er)
               (mag ms es * mag ms es) (inject_Z width) (inject_Z height)
               (mag ms es)); try assumption; reflexivity. }
    change 1%Q with (inject_Z 1) in Hfin.
    rewrite <- inject_Z_mult, <- inject_Z_plus, <- Zlt_Qlt in Hfin. lia.
  - pose proof (aspect_arithmetic _ _ _ _ _ _ HWq HHq HWH HB HS HS1 Hnwle Hnhlt)
      as Hlt.
    change 1%Q with (inject_Z 1) in Hlt. unfold Qminus in Hlt.
    rewrite <- !inject_Z_mult, <- inject_Z_opp, <- !inject_Z_plus,
      <- Zlt_Qlt in Hlt. lia.
  - pose proof (aspect_arithmetic _ _ _ _ _ _ HHq HWq HHW HB HS HS1 Hnhle Hnwlt)
      as Hlt.
    change 1%Q with (inject_Z 1) in Hlt. unfold Qminus in Hlt.
    rewrite <- !inject_Z_mult, <- inject_Z_opp, <- !inject_Z_plus,
      <- Zlt_Qlt in Hlt. lia.
Qed.

End NormaliserFacts.

Module NormaliserProps.
Import Json Value Bs4 Float FloatSpec Chandra PyFacts NormaliserFacts.

(** X10.  A downscale never enlarges: for an image of [width] by
    [height] pixels with [0 < max_pixels < width * height < 2 ^ 50],
    where the C library returns the power [0.5] to within one unit in
    the last place, the dimensions that the normaliser returns are at
    most the original ones, side by side, and at least one of them is
    smaller. *)
Theorem downscale_never_enlarges (w : world) (image_path processed : str)
    (width height max_pixels new_width new_height : Z) (ratio : float) :
  pil_installed w = true ->
  image_size w image_path = Ok (width, height) ->
  0 < width -> 0 < height ->
  0 < max_pixels < width * height -> width * height < 2 ^ 50 ->
  int_truediv max_pixels (width * height) = Ok ratio ->
  pow_half_accurate ratio (libm_pow_half w ratio) ->
  resize_image_if_needed w image_path max_pixels
    = Ok (processed, (new_width, new_height)) ->
  0 <= new_width <= width /\ 0 <= new_height <= height /\
  (new_width < width \/ new_height < height) /\
  save_resized w image_path new_width new_height = Ok processed.
Proof.
  intros Hpil Hsize HW HH HM HT Hratio Hacc E.
  destruct (downscale_dims w image_path width height max_pixels ratio
              Hpil Hsize HW HH HM HT Hratio Hacc)
    as (nw & nh & Hr & Hnw & Hnh & Hprod & _).
  rewrite Hr in E.
  destruct (save_resized w image_path nw nh) as [temp|e] eqn:Hsave;
    [|discriminate].
  injection E as <- <- <-.
  split; [exact Hnw|]. split; [exact Hnh|]. split; [nia | exact Hsave].
Qed.

Lemma downscale_never_enlarges_witness :
  resize_image_if_needed Cases.landscape Examples.page default_max_pixels
    = Ok (py "resized_page.png", (2364, 1773)) /\
  0 <= 2364 <= 4000 /\ 0 <= 1773 <= 3000 /\
  (2364 < 4000 \/ 1773 < 3000) /\
  save_resized Cases.landscape Examples.page 2364 1773
    = Ok (py "resized_page.png").
Proof.
  assert (E : resize_image_if_needed Cases.landscape Examples.page
                default_max_pixels
              = Ok (py "resized_page.png", (2364, 1773)))
    by (vm_compute; reflexivity).
  split; [exact E|].
  apply (downscale_never_enlarges Cases.landscape Examples.page _
           4000 3000 default_max_pixels 2364 1773
           (S754_finite false 6296488643826194 (-54)));
    try reflexivity; try exact E.
  - split; reflexivity.
  - vm_compute. split; discriminate.
Defined.

(** X11.  A downscale keeps the aspect ratio to within the truncation
    of one side: under the same conditions the new dimensions satisfy
    [new_width * height - new_height * width <= width] and
    [new_height * width - new_width * height <= height], that is, each
    new side differs by less than one pixel, plus the ratio of the
    sides, from the other new side scaled by the original ratio. *)
Theorem downscale_keeps_aspect (w : world) (image_path processed : str)
    (width height max_pixels new_width new_height : Z) (ratio : float) :
  pil_installed w = true ->
  image_size w image_path = Ok (width, height) ->
  0 < width -> 0 < height ->
  0 < max_pixels < width * height -> width * height < 2 ^ 50 ->
  int_truediv max_pixels (width * height) = Ok ratio ->
  pow_half_accurate ratio (libm_pow_half w ratio) ->
  resize_image_if_needed w image_path max_pixels
    = Ok (processed, (new_width, new_height)) ->
  new_width * height - new_height * width <= width /\
  new_height * width - new_width * height <= height.
Proof.
  intros Hpil Hsize HW HH HM HT Hratio Hacc E.
  destruct (downscale_dims w image_path width height max_pixels ratio
              Hpil Hsize HW HH HM HT Hratio Hacc)
    as (nw & nh & Hr & _ & _ & _ & Ha & Hb).
  rewrite Hr in E.
  destruct (save_resized w image_path nw nh) as [temp|e]; [|discriminate].
  injection E as <- <- <-. split; assumption.
Qed.

Lemma downscale_keeps_aspect_witness :
  resize_image_if_needed Cases.landscape Examples.page default_max_pixels
    = Ok (py "resized_page.png", (2364, 1773)) /\
  2364 * 3000 - 1773 * 4000 <= 4000 /\
  1773 * 4000 - 2364 * 3000 <= 3000.
Proof.
  assert (E : resize_image_if_needed Cases.landscape Examples.page
                default_max_pixels
              = Ok (py "resized_page.png", (2364, 1773)))
    by (vm_compute; reflexivity).
  split; [exact E|].
  apply (downscale_keeps_aspect Cases.landscape Examples.page
           (py "resized_page.png") 4000 3000 default_max_pixels 2364 1773
           (S754_finite false 6296488643826194 (-54)));
    try reflexivity; try exact E.
  - split; reflexivity.
  - vm_compute. split; discriminate.
Defined.

End NormaliserProps.

(** ** Further properties of the pipeline *)

Module PipelineProps.
Import Json Value Bs4 Float FloatSpec Chandra PyFacts StrFacts Bs4Facts ParserFacts.

(** The steps of [run_inference] after the two checks, with the outcome
    of the size normaliser at hand. *)
Lemma run_inference_steps (w : world) (image_path processed : str)
    (image_width image_height : Z) :
  path_exists w image_path = Ok true -> model_exists w = Ok true ->
  resize_image_if_needed w image_path default_max_pixels
    = Ok (processed, (image_width, image_height)) ->
  run_inference w image_path =
  match
    doc ← generate w processed;
    bounding_boxes ←
      parse_layout_blocks (bs4_installed w) doc image_width image_height;
    Ok (assemble (bs4_installed w) doc bounding_boxes image_width image_height)
  with
  | Ok r => Ok (Success r)
  | Raise e => Ok (Failure (Uncaught e))
  end.
Proof.
  intros Hpath Hmodel Hresize. unfold run_inference.
  rewrite Hpath, Hmodel, Hresize. reflexivity.
Qed.

(** What a successful run went through. *)
Lemma run_inference_success (w : world) (image_path : str) (r : Extraction.t) :
  run_inference w image_path = Ok (Success r) ->
  exists processed image_width image_height doc blocks,
    path_exists w image_path = Ok true /\ model_exists w = Ok true /\
    resize_image_if_needed w image_path default_max_pixels
      = Ok (processed, (image_width, image_height)) /\
    generate w processed = Ok doc /\
    parse_layout_blocks (bs4_installed w) doc image_width image_height
      = Ok blocks /\
    r = assemble (bs4_installed w) doc blocks image_width image_height.
Proof.
  intros E. unfold run_inference in E.
  destruct (path_exists w image_path) as [[|]|e] eqn:Hpath;
    cbn [mbind result_bind negb] in E; try discriminate.
  destruct (model_exists w) as [[|]|e] eqn:Hmodel;
    cbn [mbind result_bind negb] in E; try discriminate.
  destruct (resize_image_if_needed w image_path default_max_pixels)
    as [[processed [W H]]|e] eqn:Hresize; [|discriminate].
  cbn [mbind result_bind] in E.
  destruct (generate w processed) as [doc|e] eqn:Hgen; [|discriminate].
  cbn [mbind result_bind] in E.
  destruct (parse_layout_blocks (bs4_installed w) doc W H) as [blocks|e]
    eqn:Hparse; [|discriminate].
  cbn [mbind result_bind] in E. injection E as <-.
  exists processed, W, H, doc, blocks. auto 10.
Qed.

(** The shape of the text and lines of the structured extraction. *)
Lemma extract_structured_shape (doc : html) :
  text_lines_shape (extract_structured doc).
Proof.
  unfold text_lines_shape, extract_structured. cbn [fst snd].
  split; [reflexivity|].
  apply List.Forall_forall. intros t Ht.
  apply List.filter_In in Ht as [Hin Hne].
  apply List.in_map_iff in Hin as (div & <- & _).
  rewrite strip_get_text.
  now apply negb_true_iff, bool_decide_eq_false in Hne.
Qed.

(** The blocks of a returned parse satisfy the invariant of a block. *)
Lemma parse_blocks_ok bs4 doc W H blocks :
  parse_layout_blocks bs4 doc W H = Ok blocks -> Forall (block_ok W H) blocks.
Proof.
  intros E.
  destruct (parse_layout_blocks_ok _ _ _ _ _ E)
    as (ws & hs & kept & _ & _ & _ & _ & Hk).
  clear E. induction Hk as [|div b kept blocks Hb _ IH]; [constructor|].
  constructor; [|exact IH].
  now destruct (layout_block_emits _ _ _ _ _ _ Hb) as (Hok & _).
Qed.

(** X12.  Every outcome of [run_inference] other than a success has
    its cause.  It reports a missing image exactly when
    [Path(image_path).exists()] returns false, and a missing model
    exactly when that check returns true and [MODEL_PATH.exists()]
    returns false.  It reports an exception as a failure exactly when
    both checks returned true, the size normaliser returned, and the
    exception was raised by the generation or by the parsing of its
    output.  And an exception leaves [run_inference] itself exactly when
    it was raised before the [try] block: by the check of the image
    path, by the check of the model directory, or by the size
    normaliser. *)
Theorem run_inference_outcomes (w : world) (image_path : str) :
  (run_inference w image_path = Ok (Failure ImageNotFound)
     <-> path_exists w image_path = Ok false) /\
  (run_inference w image_path = Ok (Failure ModelNotFound)
     <-> path_exists w image_path = Ok true /\ model_exists w = Ok false) /\
  (forall e,
     run_inference w image_path = Ok (Failure (Uncaught e))
     <-> path_exists w image_path = Ok true /\ model_exists w = Ok true /\
         exists processed image_width image_height,
           resize_image_if_needed w image_path default_max_pixels
             = Ok (processed, (image_width, image_height)) /\
           (generate w processed = Raise e \/
            exists doc,
              generate w processed = Ok doc /\
              parse_layout_blocks (bs4_installed w) doc
                image_width image_height = Raise e)) /\
  (forall e,
     run_inference w image_path = Raise e
     <-> path_exists w image_path = Raise e \/
         (path_exists w image_path = Ok true /\
          model_exists w = Raise e) \/
         (path_exists w image_path = Ok true /\
          model_exists w = Ok true /\
          resize_image_if_needed w image_path default_max_pixels
            = Raise e)).
Proof.
  unfold run_inference.
  destruct (path_exists w image_path) as [[|]|e0] eqn:Hpath;
    cbn [mbind result_bind negb].
  2:{ repeat split; try discriminate; try tauto; intros;
        intuition discriminate. }
  2:{ repeat split; try discriminate; try tauto; intros;
        intuition (try discriminate; try congruence). }
  destruct (model_exists w) as [[|]|e0] eqn:Hmodel;
    cbn [mbind result_bind negb].
  2:{ repeat split; try discriminate; try tauto; intros;
        intuition discriminate. }
  2:{ repeat split; try discriminate; try tauto; intros;
        intuition (try discriminate; try congruence). }
  destruct (resize_image_if_needed w image_path default_max_pixels)
    as [[processed [W H]]|e0] eqn:Hresize; cbn [mbind result_bind].
  2:{ split; [split; discriminate|].
      split; [split; [discriminate|intros [_ [=]]]|].
      split; intros e; split; try discriminate.
      - intros (_ & _ & p & W & H & [=] & _).
      - intros [= <-]. auto.
      - intros [[=]|[(_ & [=])|(_ & _ & [= <-])]]. reflexivity. }
  assert (Hno : forall e,
            ~ (@Ok bool true = Raise e \/
               (@Ok bool true = Ok true /\ @Ok bool true = Raise e) \/
               (@Ok bool true = Ok true /\ @Ok bool true = Ok true /\
                Ok (processed, (W, H)) = @Raise (str * (Z * Z)) e)))
    by (intros e [[=]|[(_ & [=])|(_ & _ & [=])]]).
  destruct (generate w processed) as [doc|e1] eqn:Hgen; cbn [mbind result_bind].
  2:{ split; [split; discriminate|].
      split; [split; [discriminate|intros [_ [=]]]|].
      split; intros e; split; try discriminate.
      - intros [= <-]. split; [reflexivity|]. split; [reflexivity|].
        exists processed, W, H. split; [reflexivity|]. left. exact Hgen.
      - intros (_ & _ & p & W' & H' & [= <- <- <-] & [Hg|(doc & Hg & _)]);
          congruence.
      - intros H0. now apply Hno in H0. }
  destruct (parse_layout_blocks (bs4_installed w) doc W H) as [blocks|e1]
    eqn:Hparse; cbn [mbind result_bind].
  - split; [split; discriminate|].
    split; [split; [discriminate|intros [_ [=]]]|].
    split; intros e; split; try discriminate.
    + intros (_ & _ & p & W' & H' & [= <- <- <-] & [Hg|(doc' & Hg & Hp)]);
        congruence.
    + intros H0. now apply Hno in H0.
  - split; [split; discriminate|].
    split; [split; [discriminate|intros [_ [=]]]|].
    split; intros e; split; try discriminate.
    + intros [= <-]. split; [reflexivity|]. split; [reflexivity|].
      exists processed, W, H. split; [reflexivity|]. right. eauto.
    + intros (_ & _ & p & W' & H' & [= <- <- <-] & [Hg|(doc' & Hg & Hp)]);
        congruence.
    + intros H0. now apply Hno in H0.
Qed.

(** X13.  A successful result is consistent: with [image_size] the size
    that the normaliser returned, every bounding box lies within it and
    has a positive width and height; [text] is [lines] joined by line
    feeds and no line is empty, whether they come from the boxes or from
    the plain extraction; with at least one box there is one line per
    box; and [raw_html] is the markup that the model generated for the
    processed image. *)
Theorem success_is_consistent (w : world) (image_path : str) (r : Extraction.t) :
  run_inference w image_path = Ok (Success r) ->
  Forall (block_ok (fst (Extraction.image_size r)) (snd (Extraction.image_size r)))
    (Extraction.bounding_boxes r) /\
  text_lines_shape (Extraction.text r, Extraction.lines r) /\
  (Extraction.bounding_boxes r <> [] ->
     length (Extraction.lines r) = length (Extraction.bounding_boxes r)) /\
  exists processed doc,
    resize_image_if_needed w image_path default_max_pixels
      = Ok (processed, Extraction.image_size r) /\
    generate w processed = Ok doc /\
    Extraction.raw_html r = raw doc.
Proof.
  intros E.
  destruct (run_inference_success _ _ _ E)
    as (processed & W & H & doc & blocks & _ & _ & Hresize & Hgen & Hparse & ->).
  pose proof (parse_blocks_ok _ _ _ _ _ Hparse) as Hok.
  assert (Hbs4 : bs4_installed w = true).
  { now destruct (parse_layout_blocks_ok _ _ _ _ _ Hparse) as (_ & _ & _ & ? & _). }
  unfold assemble. destruct blocks as [|b blocks].
  - rewrite Hbs4. cbn [extract_text_from_html].
    pose proof (extract_structured_shape doc) as Hshape.
    destruct (extract_structured doc) as [text lines].
    cbn [Extraction.image_size Extraction.bounding_boxes Extraction.text
         Extraction.lines Extraction.raw_html fst snd].
    split; [constructor|]. split; [exact Hshape|].
    split; [intros Hne; now destruct Hne|]. eauto.
  - cbn [Extraction.image_size Extraction.bounding_boxes Extraction.text
         Extraction.lines Extraction.raw_html fst snd].
    split; [exact Hok|]. split.
    { split; [reflexivity|]. cbn [snd].
      apply List.Forall_forall. intros t Ht.
      apply List.in_map_iff in Ht as (b' & <- & Hin).
      rewrite List.Forall_forall in Hok. apply Hok in Hin.
      now destruct Hin as (_ & _ & _ & _ & _ & _ & Hne). }
    split; [intros _; now rewrite length_map|]. eauto.
Qed.

Lemma success_is_consistent_witness :
  exists r,
    run_inference Examples.scenario_a_run Examples.page = Ok (Success r) /\
    Extraction.image_size r = (1000, 500) /\
    Extraction.bounding_boxes r
      = [Block.Make (py "Hello") 0 0 500 250 (py "Text") false] /\
    Forall (block_ok 1000 500) (Extraction.bounding_boxes r) /\
    text_lines_shape (Extraction.text r, Extraction.lines r).
Proof.
  eexists. split; [vm_compute; reflexivity|].
  split; [reflexivity|]. split; [reflexivity|].
  destruct (success_is_consistent Examples.scenario_a_run Examples.page _
              eq_refl) as (Hok & Hshape & _).
  split; [exact Hok | exact Hshape].
Defined.

(** X14.  Without [bs4] no run succeeds: the parser, which imports the
    package without a guard, is called before the plain extraction, so
    a run that reaches it is reported as the failure [ImportError], and
    the branch of [extract_text_from_html] that works without the
    package is never taken by [run_inference]. *)
Theorem no_success_without_bs4 (w : world) (image_path : str) :
  bs4_installed w = false ->
  (forall r, run_inference w image_path <> Ok (Success r)) /\
  (forall processed size doc,
     path_exists w image_path = Ok true -> model_exists w = Ok true ->
     resize_image_if_needed w image_path default_max_pixels
       = Ok (processed, size) ->
     generate w processed = Ok doc ->
     run_inference w image_path = Ok (Failure (Uncaught ImportError))).
Proof.
  intros Hbs4. split.
  - intros r E.
    destruct (run_inference_success _ _ _ E)
      as (processed & W & H & doc & blocks & _ & _ & _ & _ & Hparse & _).
    rewrite Hbs4 in Hparse. discriminate.
  - intros processed [W H] doc Hpath Hmodel Hresize Hgen.
    rewrite (run_inference_steps _ _ _ _ _ Hpath Hmodel Hresize), Hgen, Hbs4.
    reflexivity.
Qed.

Lemma no_success_without_bs4_witness :
  bs4_installed Cases.no_bs4_run = false /\
  run_inference Cases.no_bs4_run Examples.page
    = Ok (Failure (Uncaught ImportError)) /\
  forall r, run_inference Cases.no_bs4_run Examples.page <> Ok (Success r).
Proof.
  split; [reflexivity|]. split; [vm_compute; reflexivity|].
  exact (proj1 (no_success_without_bs4 Cases.no_bs4_run Examples.page eq_refl)).
Defined.

(** X15.  Without PIL a successful run has the sentinel size [(0, 0)],
    the model is run on the original image, no bounding box is
    returned whatever the markup holds, the confidence is the low one,
    and the text and the lines are those of the plain extraction. *)
Theorem no_boxes_without_pil (w : world) (image_path : str) (r : Extraction.t) :
  pil_installed w = false ->
  run_inference w image_path = Ok (Success r) ->
  Extraction.image_size r = (0, 0) /\
  Extraction.bounding_boxes r = [] /\
  Extraction.confidence r = low_confidence /\
  exists doc,
    generate w image_path = Ok doc /\
    Extraction.raw_html r = raw doc /\
    (Extraction.text r, Extraction.lines r) = extract_structured doc.
Proof.
  intros Hpil E.
  destruct (run_inference_success _ _ _ E)
    as (processed & W & H & doc & blocks & _ & _ & Hresize & Hgen & Hparse & ->).
  unfold resize_image_if_needed in Hresize. rewrite Hpil in Hresize.
  injection Hresize as <- <- <-.
  assert (Hbs4 : bs4_installed w = true).
  { now destruct (parse_layout_blocks_ok _ _ _ _ _ Hparse) as (_ & _ & _ & ? & _). }
  assert (blocks = []) as ->.
  { destruct (parse_layout_blocks_ok _ _ _ _ _ Hparse)
      as (ws & hs & kept & _ & _ & _ & _ & Hk).
    destruct Hk as [|div b kept blocks Hb _]; [reflexivity|].
    destruct (layout_block_emits _ _ _ _ _ _ Hb) as (Hok & _).
    unfold block_ok in Hok. lia. }
  unfold assemble. rewrite Hbs4. cbn [extract_text_from_html].
  destruct (extract_structured doc) as [text lines] eqn:Hplain.
  cbn [Extraction.image_size Extraction.bounding_boxes Extraction.text
       Extraction.lines Extraction.raw_html Extraction.confidence].
  split; [reflexivity|]. split; [reflexivity|]. split; [reflexivity|].
  exists doc. split; [exact Hgen|]. split; [reflexivity|]. now rewrite Hplain.
Qed.

Lemma no_boxes_without_pil_witness :
  pil_installed Cases.no_pil_run = false /\
  exists r,
    run_inference Cases.no_pil_run Examples.page = Ok (Success r) /\
    Extraction.image_size r = (0, 0) /\
    Extraction.bounding_boxes r = [] /\
    Extraction.confidence r = low_confidence /\
    Extraction.lines r = [py "Hello"].
Proof.
  split; [reflexivity|]. eexists. split; [vm_compute; reflexivity|].
  destruct (no_boxes_without_pil Cases.no_pil_run Examples.page _ eq_refl eq_refl)
    as (Hsize & Hboxes & Hconf & _).
  split; [exact Hsize|]. split; [exact Hboxes|]. split; [exact Hconf|].
  reflexivity.
Defined.

End PipelineProps.

(** ** The command line and the model cache *)

Module ToolProps.
Import Json Value Bs4 Float Chandra PyFacts.




(** *** The model cache *)

(** Once the cache holds a model, a series of calls returns it each
    time and leaves the state as it is. *)
Lemma warm_cache_calls {obj : Type}
    (load : nat -> result (Cache.ref obj * Cache.ref obj))
    (s : Cache.state obj) (m : obj) (n : nat) :
  Cache.model (Cache.cache s) = Some m ->
  load_model_calls load n s
  = (repeat (Ok (Some m, Cache.processor (Cache.cache s))) n, s).
Proof.
  intros Hm. induction n as [|n IH]; [reflexivity|].
  cbn [load_model_calls repeat]. unfold Cache.load_model at 1.
  rewrite Hm, IH. reflexivity.
Qed.

(** X17.  The cache of [load_model] works.  As soon as one call has
    returned a model, every later call returns the same model and
    processor without calling [mlx_vlm.load] again, whatever that call
    would now return, and that first call has called the loader at most
    once.  A call that raised had found the cache empty and has left it
    so, and the next call loads again. *)
Theorem model_is_loaded_once {obj : Type}
    (load : nat -> result (Cache.ref obj * Cache.ref obj))
    (s : Cache.state obj) :
  (forall m p s1,
     Cache.load_model load s = (Ok (Some m, p), s1) ->
     (Cache.loads s <= Cache.loads s1 <= Cache.loads s + 1)%nat /\
     forall load' n,
       load_model_calls load' n s1 = (repeat (Ok (Some m, p)) n, s1)) /\
  (forall e s1,
     Cache.load_model load s = (Raise e, s1) ->
     Cache.model (Cache.cache s) = None /\
     Cache.cache s1 = Cache.cache s /\ Cache.loads s1 = S (Cache.loads s) /\
     forall load',
       fst (Cache.load_model load' s1) = load' (S (Cache.loads s))).
Proof.
  split.
  - intros m p s1 E.
    assert (Hwarm : Cache.model (Cache.cache s1) = Some m /\
                    Cache.processor (Cache.cache s1) = p /\
                    (Cache.loads s <= Cache.loads s1 <= Cache.loads s + 1)%nat).
    { unfold Cache.load_model in E.
      destruct (Cache.model (Cache.cache s)) as [m0|] eqn:Hm.
      - injection E as -> <- <-. split; [exact Hm|]. split; [reflexivity|]. lia.
      - destruct (load (Cache.loads s)) as [[m1 p1]|e]; [|discriminate].
        injection E as -> -> <-. cbn. split; [reflexivity|].
        split; [reflexivity|]. lia. }
    destruct Hwarm as (Hm & Hp & Hloads). split; [exact Hloads|].
    intros load' n. rewrite (warm_cache_calls load' s1 m n Hm), Hp. reflexivity.
  - intros e s1 E. unfold Cache.load_model in E.
    destruct (Cache.model (Cache.cache s)) as [m0|] eqn:Hm; [discriminate|].
    destruct (load (Cache.loads s)) as [[m1 p1]|e'] eqn:Hl; [discriminate|].
    injection E as <- <-. cbn [Cache.cache Cache.loads].
    split; [reflexivity|]. split; [reflexivity|]. split; [reflexivity|].
    intros load'. unfold Cache.load_model. cbn [Cache.cache Cache.loads].
    rewrite Hm. now destruct (load' (S (Cache.loads s))) as [[m2 p2]|e2].
Qed.

Lemma model_is_loaded_once_witness :
  Cache.load_model Cases.flaky_load (Cache.State Cache.empty 0)
    = (Raise ImportError, Cache.State Cache.empty 1) /\
  Cache.load_model Cases.flaky_load (Cache.State Cache.empty 1)
    = (Ok (Some 1%nat, Some 2%nat),
       Cache.State (Cache.Make (Some 1%nat) (Some 2%nat)) 2) /\
  forall load' n,
    load_model_calls load' n
      (Cache.State (Cache.Make (Some 1%nat) (Some 2%nat)) 2)
    = (repeat (Ok (Some 1%nat, Some 2%nat)) n,
       Cache.State (Cache.Make (Some 1%nat) (Some 2%nat)) 2).
Proof.
  split; [reflexivity|]. split; [reflexivity|].
  exact (proj2 (proj1 (model_is_loaded_once Cases.flaky_load
                         (Cache.State Cache.empty 1))
                  1%nat (Some 2%nat) _ eq_refl)).
Defined.

End ToolProps.

(** ** The box viewer *)

Module ViewerProps.
Import Json Value Bs4 Float FloatSpec Chandra PyFacts.

Lemma Forall_imap_draw {A B : Type} (P : A -> Prop) (Q : B -> Prop)
    (f : nat -> A -> B) (l : list A) :
  (forall i a, P a -> Q (f i a)) -> Forall P l -> Forall Q (imap f l).
Proof.
  intros Hf Hl. revert f Hf.
  induction Hl as [|a l Ha Hl IH]; intros f Hf; cbn [imap]; constructor.
  - now apply Hf.
  - apply IH. intros i b. apply Hf.
Qed.

Lemma draw_box_inside (W H : Z) (i : nat) (b : Block.t) :
  block_ok W H b -> inside W H (Viewer.draw_box i b).
Proof.
  unfold block_ok, inside, Viewer.draw_box.
  cbn [Viewer.x1 Viewer.x2 Viewer.y1 Viewer.y2]. lia.
Qed.

Lemma inside_larger (W H W' H' : Z) (q : Viewer.rectangle) :
  W <= W' -> H <= H' -> inside W H q -> inside W' H' q.
Proof. unfold inside. lia. Qed.

(** X18.  Every rectangle that [draw_boxes_on_image] draws is not empty
    and lies within the size that the run reports, one rectangle per
    bounding box.  It also lies within the picture it is drawn on, both
    for a picture that fits the pixel budget, which is processed as it
    is, and for a larger one of less than [2 ^ 50] pixels, whose boxes
    are those of the downscaled copy, where the C library returns the
    power [0.5] to within one unit in the last place. *)
Theorem rectangles_inside_picture (w : world) (image_path : str)
    (saved : result unit) (width height : Z) (drawn : list Viewer.rectangle) :
  Viewer.draw_boxes_on_image w image_path saved
    = Ok (Some ((width, height), drawn)) ->
  exists r,
    run_inference w image_path = Ok (Success r) /\
    image_size w image_path = Ok (width, height) /\
    length drawn = length (Extraction.bounding_boxes r) /\
    Forall (inside (fst (Extraction.image_size r))
              (snd (Extraction.image_size r))) drawn /\
    (width * height <= default_max_pixels ->
     Extraction.image_size r = (width, height)) /\
    (0 < width -> 0 < height -> width * height < 2 ^ 50 ->
     (forall ratio,
        default_max_pixels < width * height ->
        int_truediv default_max_pixels (width * height) = Ok ratio ->
        pow_half_accurate ratio (libm_pow_half w ratio)) ->
     Forall (inside width height) drawn).
Proof.
  unfold Viewer.draw_boxes_on_image. intros E.
  destruct (pil_installed w) eqn:Hpil; [|discriminate]. cbn [negb] in E.
  destruct (run_inference w image_path) as [[f|r]|e] eqn:Hrun;
    try discriminate. cbn [mbind result_bind] in E.
  destruct (image_size w image_path) as [[W0 H0]|e] eqn:Hsize;
    [|discriminate]. cbn [mbind result_bind] in E.
  destruct saved as [[]|e]; [|discriminate]. cbn [mbind result_bind] in E.
  injection E as -> -> <-.
  exists r. split; [reflexivity|]. split; [reflexivity|].
  split; [apply length_imap|].
  destruct (PipelineProps.run_inference_success _ _ _ Hrun)
    as (processed & W & H & doc & blocks & _ & _ & Hresize & _ & Hparse & ->).
  pose proof (PipelineProps.parse_blocks_ok _ _ _ _ _ Hparse) as Hok.
  assert (Hboxes : Extraction.bounding_boxes
                     (assemble (bs4_installed w) doc blocks W H) = blocks).
  { unfold assemble. destruct blocks; [|reflexivity].
    now destruct (extract_text_from_html _ _). }
  assert (Hdims : Extraction.image_size
                    (assemble (bs4_installed w) doc blocks W H) = (W, H)).
  { unfold assemble. destruct blocks; [|reflexivity].
    now destruct (extract_text_from_html _ _). }
  rewrite Hboxes, Hdims. cbn [fst snd].
  assert (Hin : Forall (inside W H) (imap Viewer.draw_box blocks)).
  { apply (Forall_imap_draw (block_ok W H)); [|exact Hok].
    intros i b. apply draw_box_inside. }
  split; [exact Hin|]. split.
  - intros Hfit. unfold resize_image_if_needed in Hresize.
    rewrite Hpil, Hsize in Hresize. cbn [negb mbind result_bind] in Hresize.
    destruct (Z.leb_spec (width * height) default_max_pixels); [|lia].
    now injection Hresize as _ <- <-.
  - intros HW HH HT Hacc.
    destruct (Z.le_gt_cases (width * height) default_max_pixels) as [Hfit|Hbig].
    + unfold resize_image_if_needed in Hresize.
      rewrite Hpil, Hsize in Hresize. cbn [negb mbind result_bind] in Hresize.
      destruct (Z.leb_spec (width * height) default_max_pixels); [|lia].
      injection Hresize as _ <- <-. exact Hin.
    + assert (Hratio : exists ratio,
                int_truediv default_max_pixels (width * height) = Ok ratio).
      { unfold resize_image_if_needed in Hresize.
        rewrite Hpil, Hsize in Hresize. cbn [negb mbind result_bind] in Hresize.
        destruct (Z.leb_spec (width * height) default_max_pixels); [lia|].
        destruct (int_truediv default_max_pixels (width * height)) as [ratio|];
          [eauto | discriminate]. }
      destruct Hratio as [ratio Hratio].
      destruct (NormaliserFacts.downscale_dims w image_path width height
                  default_max_pixels ratio Hpil Hsize HW HH
                  ltac:(split; [reflexivity | lia]) HT Hratio
                  (Hacc ratio ltac:(lia) Hratio))
        as (nw & nh & Hr & Hnw & Hnh & _).
      rewrite Hr in Hresize.
      destruct (save_resized w image_path nw nh); [|discriminate].
      injection Hresize as _ <- <-.
      eapply Forall_impl; [exact Hin|]. intros q.
      apply inside_larger; lia.
Qed.

Lemma rectangles_inside_picture_witness :
  Viewer.draw_boxes_on_image Cases.landscape Examples.page (Ok tt)
    = Ok (Some ((4000, 3000),
                [Viewer.Rect 0 0 1182 886 (py "red") (1%nat, py "Text")
                   (0, -15)])) /\
  default_max_pixels < 4000 * 3000 /\
  (exists ratio,
     int_truediv default_max_pixels (4000 * 3000) = Ok ratio /\
     pow_half_accurate ratio (libm_pow_half Cases.landscape ratio)) /\
  Forall (inside 4000 3000)
    [Viewer.Rect 0 0 1182 886 (py "red") (1%nat, py "Text") (0, -15)].
Proof.
  assert (E : Viewer.draw_boxes_on_image Cases.landscape Examples.page (Ok tt)
              = Ok (Some ((4000, 3000),
                          [Viewer.Rect 0 0 1182 886 (py "red")
                             (1%nat, py "Text") (0, -15)])))
    by (vm_compute; reflexivity).
  assert (Hratio : int_truediv default_max_pixels (4000 * 3000)
                   = Ok (S754_finite false 6296488643826194 (-54)))
    by (vm_compute; reflexivity).
  assert (Hacc : pow_half_accurate (S754_finite false 6296488643826194 (-54))
                   (libm_pow_half Cases.landscape
                      (S754_finite false 6296488643826194 (-54))))
    by (vm_compute; split; discriminate).
  split; [exact E|]. split; [reflexivity|]. split; [eauto|].
  destruct (rectangles_inside_picture _ _ _ _ _ _ E)
    as (r & _ & _ & _ & _ & _ & Hin).
  apply Hin; try reflexivity.
  intros ratio _ Hr. rewrite Hratio in Hr. injection Hr as <-. exact Hacc.
Defined.

End ViewerProps.
